(** * Aagna Naturals storefront: blog media handling and checkout composition

    A shallow embedding of the logic of
    - [src/components/admin/BlogsManagement.tsx] (admin blog editor),
    - [src/pages/Blog.tsx] (public blog listing), and
    - the checkout page (order creation and the chat hand-off message),
    together with the properties the specification states about them.

    JavaScript values are modelled as the code has them: strings are
    sequences of UTF-16 code units, numbers are IEEE-754 binary64 floats,
    exceptions are explicit completions, and the remote services are an
    explicit store threaded through every call. *)

From Stdlib Require Import ZArith List Bool String Ascii Lia Floats DecimalString.
From Stdlib Require Import Sorted Permutation.
Import ListNotations.

#[global] Set Warnings "-register-all".

(* ================================================================== *)
(** * JavaScript values                                                 *)
(* ================================================================== *)

Module JS.

(** A string is a list of UTF-16 code units, each in [0, 65535]. *)
Definition code_unit := Z.
Definition jsstring := list code_unit.

(** An ASCII literal of the source, as code units. *)
Definition js (s : string) : jsstring :=
  map (fun a => Z.of_N (N_of_ascii a)) (list_ascii_of_string s).

Fixpoint str_eqb (a b : jsstring) : bool :=
  match a, b with
  | [], [] => true
  | x :: a', y :: b' => (x =? y)%Z && str_eqb a' b'
  | _, _ => false
  end.

(** [String.prototype.startsWith] *)
Fixpoint startsWith (s prefix : jsstring) {struct prefix} : bool :=
  match prefix, s with
  | [], _ => true
  | p :: prefix', c :: s' => (c =? p)%Z && startsWith s' prefix'
  | _ :: _, [] => false
  end.

(** [s.slice(0, n)] and [s.slice(n)] for a non-negative literal [n]:
    the first [n] code units, and what follows them. *)
Definition slice0 (n : nat) (s : jsstring) : jsstring := firstn n s.
Definition sliceFrom (n : nat) (s : jsstring) : jsstring := skipn n s.

(** WhiteSpace and LineTerminator code points, what [trim] strips. *)
Definition is_space (c : code_unit) : bool :=
  ((9 <=? c) && (c <=? 13) || (c =? 32) || (c =? 160) || (c =? 5760)
   || (8192 <=? c) && (c <=? 8202) || (c =? 8232) || (c =? 8233)
   || (c =? 8239) || (c =? 8287) || (c =? 12288) || (c =? 65279))%Z.

Fixpoint trimStart (s : jsstring) : jsstring :=
  match s with
  | c :: s' => if is_space c then trimStart s' else s
  | [] => []
  end.

Definition trimEnd (s : jsstring) : jsstring := rev (trimStart (rev s)).
Definition trim (s : jsstring) : jsstring := trimEnd (trimStart s).

(** [a || b] on strings: the empty string is falsy. *)
Definition or_str (a b : jsstring) : jsstring :=
  match a with [] => b | _ :: _ => a end.

(** [s.includes(sub)], as a proposition and as a test. *)
Definition includes (s sub : jsstring) : Prop :=
  exists pre post, s = pre ++ sub ++ post.

Fixpoint includesb (s sub : jsstring) : bool :=
  startsWith s sub ||
  match s with
  | [] => false
  | _ :: s' => includesb s' sub
  end.

(** [Array.prototype.join] on strings. *)
Fixpoint join (sep : jsstring) (parts : list jsstring) : jsstring :=
  match parts with
  | [] => []
  | [p] => p
  | p :: rest => p ++ sep ++ join sep rest
  end.

(** Decimal rendering of an integer, as [String(n)] gives for integers. *)
Definition string_of_Z (z : Z) : jsstring :=
  match z with
  | Z0 => js "0"
  | Zpos p => js (NilEmpty.string_of_uint (Pos.to_uint p))
  | Zneg p => js "-" ++ js (NilEmpty.string_of_uint (Pos.to_uint p))
  end.

(** Thrown values. [Error] is [new Error(message)]; [StoreError] is the
    error object a remote service hands back. *)
Inductive JSError :=
| SyntaxError
| TypeError
| URIError
| Error (message : jsstring)
| StoreError (code : Z) (message : jsstring).

(** The completion of a statement or call: a value, or a throw. *)
Inductive completion (A : Type) :=
| Normal (a : A)
| Throw (e : JSError).
Arguments Normal {A} a.
Arguments Throw {A} e.

Definition bind {A B} (c : completion A) (k : A -> completion B) : completion B :=
  match c with
  | Normal a => k a
  | Throw e => Throw e
  end.

(** Values that a database cell or [JSON.parse] can hold. *)
Inductive JSValue :=
| JSUndefined
| JSNull
| JSBool (b : bool)
| JSNumber (x : float)
| JSString (s : jsstring)
| JSArray (items : list JSValue)
| JSObject (fields : list (jsstring * JSValue)).

Definition Array_isArray (v : JSValue) : bool :=
  match v with JSArray _ => true | _ => false end.

(** [v?.key]: property read on a decoded value, [undefined] when absent
    or when [v] is [null] or [undefined].  Fields are kept in the order
    written; a key written twice has its last value. *)
Fixpoint lookup_first (key : jsstring) (fields : list (jsstring * JSValue)) : JSValue :=
  match fields with
  | [] => JSUndefined
  | (k, v) :: rest => if str_eqb k key then v else lookup_first key rest
  end.

Definition lookup_field (key : jsstring) (fields : list (jsstring * JSValue)) : JSValue :=
  lookup_first key (rev fields).

Definition get_opt (v : JSValue) (key : jsstring) : JSValue :=
  match v with
  | JSObject fields => lookup_field key fields
  | _ => JSUndefined
  end.

(** [v === "literal"] *)
Definition strict_eq_str (v : JSValue) (lit : jsstring) : bool :=
  match v with JSString s => str_eqb s lit | _ => false end.

(** [v.filter(p)]: defined on arrays; on any other decoded value the
    property is missing (or the receiver is null) and the call throws. *)
Definition Array_filter (v : JSValue) (p : JSValue -> bool) : completion (list JSValue) :=
  match v with
  | JSArray items => Normal (filter p items)
  | _ => Throw TypeError
  end.

End JS.
Import JS.

(* ================================================================== *)
(** * A reader for a fragment of JSON                                   *)
(* ================================================================== *)

(** [JSON.parse] is a builtin; the development is parametric in it.  To
    run the parser shim on concrete cells, [JsonText.decode] reads the
    JSON texts made of literals, integers of at most fifteen digits,
    strings without escapes, arrays and objects, and rejects the rest. *)
Module JsonText.

Definition is_ws (c : code_unit) : bool :=
  ((c =? 32) || (c =? 9) || (c =? 10) || (c =? 13))%Z.

Fixpoint skip_ws (s : jsstring) : jsstring :=
  match s with
  | c :: s' => if is_ws c then skip_ws s' else s
  | [] => []
  end.

Definition is_digit (c : code_unit) : bool := ((48 <=? c) && (c <=? 57))%Z.

(** Digits of an integer literal, most significant first. *)
Fixpoint read_digits (s : jsstring) (acc : Z) (n : nat) : Z * nat * jsstring :=
  match s with
  | c :: s' => if is_digit c then read_digits s' (10 * acc + (c - 48))%Z (S n)
               else (acc, n, s)
  | [] => (acc, n, s)
  end.

Definition float_of_small (z : Z) : float := PrimFloat.of_uint63 (Uint63.of_Z z).

Definition read_int (s : jsstring) : option (float * jsstring) :=
  let '(acc, n, rest) := read_digits s 0%Z 0 in
  let leading_zero := match s with c :: _ => (c =? 48)%Z | [] => false end in
  let more := match rest with
              | c :: _ => ((c =? 46) || (c =? 101) || (c =? 69))%Z
              | [] => false
              end in
  if (Nat.eqb n 0) || (Nat.ltb 15 n) || (leading_zero && Nat.ltb 1 n) || more
  then None else Some (float_of_small acc, rest).

(** Body of a string literal, after the opening quote. *)
Fixpoint read_string (s : jsstring) (acc : jsstring) : option (jsstring * jsstring) :=
  match s with
  | [] => None
  | c :: s' =>
      if (c =? 34)%Z then Some (rev acc, s')
      else if ((c =? 92) || (c <? 32))%Z then None
      else read_string s' (c :: acc)
  end.

Fixpoint read_value (fuel : nat) (s : jsstring) : option (JSValue * jsstring) :=
  match fuel with
  | O => None
  | S fuel' =>
      let read_elements :=
        fix elems (n : nat) (s : jsstring) (acc : list JSValue) : option (JSValue * jsstring) :=
          match n with
          | O => None
          | S n' =>
              match read_value fuel' s with
              | None => None
              | Some (v, rest) =>
                  match skip_ws rest with
                  | c :: rest' =>
                      if (c =? 44)%Z then elems n' rest' (v :: acc)
                      else if (c =? 93)%Z then Some (JSArray (rev (v :: acc)), rest')
                      else None
                  | [] => None
                  end
              end
          end in
      let read_members :=
        fix membs (n : nat) (s : jsstring) (acc : list (jsstring * JSValue)) : option (JSValue * jsstring) :=
          match n with
          | O => None
          | S n' =>
              match skip_ws s with
              | q :: s1 =>
                  if negb (q =? 34)%Z then None else
                  match read_string s1 [] with
                  | None => None
                  | Some (key, s2) =>
                      match skip_ws s2 with
                      | colon :: s3 =>
                          if negb (colon =? 58)%Z then None else
                          match read_value fuel' s3 with
                          | None => None
                          | Some (v, rest) =>
                              match skip_ws rest with
                              | c :: rest' =>
                                  if (c =? 44)%Z then membs n' rest' ((key, v) :: acc)
                                  else if (c =? 125)%Z then Some (JSObject (rev ((key, v) :: acc)), rest')
                                  else None
                              | [] => None
                              end
                          end
                      | [] => None
                      end
                  end
              | [] => None
              end
          end in
      let s := skip_ws s in
      if startsWith s (js "null") then Some (JSNull, skipn 4 s)
      else if startsWith s (js "true") then Some (JSBool true, skipn 4 s)
      else if startsWith s (js "false") then Some (JSBool false, skipn 5 s)
      else
        match s with
        | [] => None
        | c :: s' =>
            if (c =? 34)%Z then
              match read_string s' [] with
              | Some (str, rest) => Some (JSString str, rest)
              | None => None
              end
            else if (c =? 91)%Z then
              match skip_ws s' with
              | d :: s'' => if (d =? 93)%Z then Some (JSArray [], s'')
                            else read_elements (List.length s') s' []
              | [] => None
              end
            else if (c =? 123)%Z then
              match skip_ws s' with
              | d :: s'' => if (d =? 125)%Z then Some (JSObject [], s'')
                            else read_members (List.length s') s' []
              | [] => None
              end
            else if (c =? 45)%Z then
              match read_int s' with
              | Some (x, rest) => Some (JSNumber (- x)%float, rest)
              | None => None
              end
            else
              match read_int s with
              | Some (x, rest) => Some (JSNumber x, rest)
              | None => None
              end
        end
  end.

Definition decode (s : jsstring) : completion JSValue :=
  match read_value (S (List.length s)) s with
  | Some (v, rest) =>
      match skip_ws rest with
      | [] => Normal v
      | _ :: _ => Throw SyntaxError
      end
  | None => Throw SyntaxError
  end.

End JsonText.

(* ================================================================== *)
(** * Asynchronous functions                                            *)
(* ================================================================== *)

(** An [async] function runs against the state of the remote services
    and ends with a value or a throw; what it did before a throw stays
    done. *)
Module Async.

Definition M (S A : Type) : Type := S -> completion A * S.

Definition ret {S A} (a : A) : M S A := fun s => (Normal a, s).
Definition throw {S A} (e : JSError) : M S A := fun s => (Throw e, s).
Definition mbind {S A B} (c : M S A) (k : A -> M S B) : M S B :=
  fun s =>
    match c s with
    | (Normal a, s') => k a s'
    | (Throw e, s') => (Throw e, s')
    end.

Declare Scope async_scope.
Delimit Scope async_scope with async.
Notation "x <- c ;; k" := (mbind c (fun x => k))
  (at level 61, c at next level, right associativity) : async_scope.

End Async.
Import Async.

(* ================================================================== *)
(** * The remote services behind the blog editor                        *)
(* ================================================================== *)

Module Remote.

(** The signed-in user of the auth context. *)
Record User := { user_id : jsstring }.

(** A notice raised through [toast]. *)
Inductive Toast :=
| toast_success (message : jsstring)
| toast_error (message : jsstring).

Inductive MediaType := image | video | audio.

Record MediaItem := { media_type : MediaType; media_url : jsstring }.

(** A browser [File]: what the editor reads of it. *)
Record File := { file_name : jsstring; file_type : jsstring }.

(** A row of table [blogs].  The [media] cell is whatever the table
    holds: a structured list, or text. *)
Record BlogRow := {
  row_id : jsstring;
  row_title : jsstring;
  row_content : jsstring;
  row_excerpt : option jsstring;
  row_media : JSValue;
  is_published : bool;
  created_at : jsstring;
  author_id : jsstring
}.

(** The services' state: the objects of bucket [blog-media] in upload
    order, the rows of [blogs], the outcome scripted for each coming
    call ([None]: it succeeds; no entry: it succeeds), and the number of
    clock and random readings taken so far. *)
Record state := {
  bucket : list (jsstring * File);
  blogs : list BlogRow;
  outcomes : list (option JSError);
  readings : nat
}.

Definition M := Async.M state.

(** The outcome scripted for the call being made. *)
Definition next_outcome (s : state) : option JSError * state :=
  match outcomes s with
  | [] => (None, s)
  | o :: rest =>
      (o, {| bucket := bucket s; blogs := blogs s; outcomes := rest; readings := readings s |})
  end.

(** [supabase.storage.from("blog-media").upload(path, file)]: resolves
    to [{ error }]; the object is stored when there is none. *)
Definition storage_upload (path : jsstring) (file : File) : M (option JSError) :=
  fun s =>
    let (o, s1) := next_outcome s in
    match o with
    | Some e => (Normal (Some e), s1)
    | None =>
        (Normal None,
         {| bucket := bucket s1 ++ [(path, file)]; blogs := blogs s1;
            outcomes := outcomes s1; readings := readings s1 |})
    end.

(** One reading of [Date.now()] and [Math.random()]: the index of the
    reading, which the caller maps to the values read. *)
Definition take_reading : M nat :=
  fun s =>
    (Normal (readings s),
     {| bucket := bucket s; blogs := blogs s; outcomes := outcomes s;
        readings := S (readings s) |}).

(** Code-unit order on texts, the order of ISO timestamps. *)
Fixpoint str_leb (a b : jsstring) : bool :=
  match a, b with
  | [], _ => true
  | _ :: _, [] => false
  | x :: a', y :: b' => (x <? y)%Z || (x =? y)%Z && str_leb a' b'
  end.

(** [.order("created_at", { ascending: false })] *)
Fixpoint insert_desc (r : BlogRow) (sorted : list BlogRow) : list BlogRow :=
  match sorted with
  | [] => [r]
  | r' :: rest =>
      if str_leb (created_at r') (created_at r) then r :: sorted
      else r' :: insert_desc r rest
  end.

Definition order_created_at_desc (rows : list BlogRow) : list BlogRow :=
  fold_right insert_desc [] rows.

(** A select on table [blogs]: resolves to [{ data, error }]. *)
Definition blogs_select (query : list BlogRow -> list BlogRow)
  : M (list BlogRow * option JSError) :=
  fun s =>
    let (o, s1) := next_outcome s in
    match o with
    | Some e => (Normal ([], Some e), s1)
    | None => (Normal (query (blogs s1), None), s1)
    end.

End Remote.
Import Remote.

(* ================================================================== *)
(** * Safe media parsing                                                *)
(* ================================================================== *)

(** The statement that reads a [media] cell, written out in the
    [admin-blogs] query of BlogsManagement.tsx and again in the card of
    Blog.tsx. *)
Module MediaParser.

Section Parser.

(** [JSON.parse], which returns the decoded value or throws. *)
Variable JSON_parse : jsstring -> completion JSValue.

(** The try block.  [media] starts as the empty list and is assigned
    in at most one of the two branches. *)
Definition try_media (cell : JSValue) : completion JSValue :=
  if Array_isArray cell then Normal cell
  else
    match cell with
    | JSString text => JSON_parse text
    | _ => Normal (JSArray [])
    end.

(** The whole statement: [try { ... } catch { media = []; }]. *)
Definition parseMedia (cell : JSValue) : completion JSValue :=
  match try_media cell with
  | Normal media => Normal media
  | Throw _ => Normal (JSArray [])
  end.

End Parser.

End MediaParser.
Import MediaParser.

(* ================================================================== *)
(** * BlogsManagement.tsx: the admin blog editor                       *)
(* ================================================================== *)

Module BlogsManagement.
Local Open Scope async_scope.

(** ** The [admin-blogs] query *)

Section Query.

Variable JSON_parse : jsstring -> completion JSValue.

(** [(data || []).map((b) => ...)]: each row with its parsed media. *)
Fixpoint parse_rows (data : list BlogRow) : completion (list (BlogRow * JSValue)) :=
  match data with
  | [] => Normal []
  | b :: rest =>
      bind (parseMedia JSON_parse (row_media b)) (fun media =>
      bind (parse_rows rest) (fun parsed => Normal ((b, media) :: parsed)))
  end.

Definition queryFn : M (list (BlogRow * JSValue)) :=
  r <- blogs_select order_created_at_desc ;;
  match r with
  | (_, Some error) => throw error
  | (data, None) => fun s => (parse_rows data, s)
  end.

End Query.

(** ** Upload and classification *)

(** How a saved media list reads as a cell value. *)
Definition type_name (t : MediaType) : jsstring :=
  match t with
  | image => js "image"
  | video => js "video"
  | audio => js "audio"
  end.

Definition media_value (m : MediaItem) : JSValue :=
  JSObject [(js "type", JSString (type_name (media_type m)));
            (js "url", JSString (media_url m))].

Definition media_cell (media : list MediaItem) : JSValue :=
  JSArray (map media_value media).

(** [mime.startsWith("video/")], [mime.startsWith("audio/")], default
    ["image"]. *)
Definition classify (mime : jsstring) : MediaType :=
  if startsWith mime (js "video/") then video
  else if startsWith mime (js "audio/") then audio
  else image.

(** [name.split(".")] *)
Fixpoint split_on (sep : code_unit) (s cur : jsstring) : list jsstring :=
  match s with
  | [] => [rev cur]
  | c :: s' =>
      if (c =? sep)%Z then rev cur :: split_on sep s' []
      else split_on sep s' (c :: cur)
  end.

Definition split_dot (s : jsstring) : list jsstring := split_on 46%Z s [].

(** [parts.pop()] inside a template literal: the last part, or the text
    [undefined] for an empty array. *)
Definition pop_text (parts : list jsstring) : jsstring :=
  last parts (js "undefined").

(** [${user?.id}] *)
Definition user_id_text (user : option User) : jsstring :=
  match user with
  | Some u => user_id u
  | None => js "undefined"
  end.

Section Upload.

(** The signed-in user, the value of the n-th [Date.now()], the text of
    the n-th [Math.random().toString(36)], and the public URL the
    storage service gives a path. *)
Variable user : option User.
Variable Date_now : nat -> Z.
Variable Math_random_toString36 : nat -> jsstring.
Variable getPublicUrl : jsstring -> jsstring.

Definition storage_path (n : nat) (file : File) : jsstring :=
  let ext := pop_text (split_dot (file_name file)) in
  user_id_text user ++ js "/" ++ string_of_Z (Date_now n) ++ js "-"
    ++ sliceFrom 2 (Math_random_toString36 n) ++ js "." ++ ext.

(** The body of [for (const file of files)], with [uploaded] so far. *)
Fixpoint upload_loop (files : list File) (uploaded : list MediaItem) : M (list MediaItem) :=
  match files with
  | [] => ret uploaded
  | file :: rest =>
      n <- take_reading ;;
      let path := storage_path n file in
      uploadError <- storage_upload path file ;;
      match uploadError with
      | Some e => throw e
      | None =>
          let publicUrl := getPublicUrl path in
          let type := classify (file_type file) in
          upload_loop rest (uploaded ++ [{| media_type := type; media_url := publicUrl |}])
      end
  end.

Definition uploadFiles (files : list File) : M (list MediaItem) :=
  match files with
  | [] => ret []
  | _ :: _ => upload_loop files []
  end.

(** What a batch leaves behind when every upload succeeds, its first
    reading being the [n]-th: the media items returned, and the objects
    added to the bucket. *)
Fixpoint uploaded_items (n : nat) (files : list File) : list MediaItem :=
  match files with
  | [] => []
  | file :: rest =>
      {| media_type := classify (file_type file);
         media_url := getPublicUrl (storage_path n file) |} :: uploaded_items (S n) rest
  end.

Fixpoint stored_objects (n : nat) (files : list File) : list (jsstring * File) :=
  match files with
  | [] => []
  | file :: rest => (storage_path n file, file) :: stored_objects (S n) rest
  end.

(** ** The editor's form state and its two mutations *)

(** [type Blog]: a listed blog as the component types it. *)
Record Blog := {
  b_id : jsstring;
  b_title : jsstring;
  b_content : jsstring;
  b_excerpt : option jsstring;
  b_media : option (list MediaItem);
  b_is_published : bool;
  b_created_at : jsstring;
  b_author_id : jsstring
}.

Record Editor := {
  title : jsstring;
  content : jsstring;
  publish : bool;
  editingBlog : option Blog;
  existingMedia : list MediaItem;
  newFiles : list File
}.

(** What [insert] and [update] are handed. *)
Record Payload := {
  p_title : jsstring;
  p_content : jsstring;
  p_excerpt : jsstring;
  p_media : list MediaItem;
  p_author_id : option jsstring;
  p_is_published : bool
}.

(** The identifier and the creation time the table gives a new row. *)
Variable new_blog_id : state -> jsstring.
Variable new_created_at : state -> jsstring.

Definition author_of (p : Payload) : jsstring :=
  match p_author_id p with Some a => a | None => [] end.

(** [supabase.from("blogs").insert(payload)]: resolves to [{ error }]. *)
Definition blogs_insert (p : Payload) : M (option JSError) :=
  fun s =>
    let (o, s1) := next_outcome s in
    match o with
    | Some e => (Normal (Some e), s1)
    | None =>
        let row := {| row_id := new_blog_id s1; row_title := p_title p;
                      row_content := p_content p; row_excerpt := Some (p_excerpt p);
                      row_media := media_cell (p_media p);
                      is_published := p_is_published p;
                      created_at := new_created_at s1; author_id := author_of p |} in
        (Normal None,
         {| bucket := bucket s1; blogs := blogs s1 ++ [row];
            outcomes := outcomes s1; readings := readings s1 |})
    end.

Definition apply_update (p : Payload) (id : jsstring) (row : BlogRow) : BlogRow :=
  if str_eqb (row_id row) id then
    {| row_id := row_id row; row_title := p_title p;
       row_content := p_content p; row_excerpt := Some (p_excerpt p);
       row_media := media_cell (p_media p);
       is_published := p_is_published p;
       created_at := created_at row; author_id := author_id row |}
  else row.

(** [supabase.from("blogs").update(payload).eq("id", id)] *)
Definition blogs_update (p : Payload) (id : jsstring) : M (option JSError) :=
  fun s =>
    let (o, s1) := next_outcome s in
    match o with
    | Some e => (Normal (Some e), s1)
    | None =>
        (Normal None,
         {| bucket := bucket s1; blogs := map (apply_update p id) (blogs s1);
            outcomes := outcomes s1; readings := readings s1 |})
    end.

(** [content.length > 150 ? content.slice(0, 150) + "..." : content] *)
Definition excerpt_of (content : jsstring) : jsstring :=
  if Nat.ltb 150 (List.length content) then slice0 150 content ++ js "..." else content.

(** [title.trim() || content.slice(0, 60) || "Untitled"] *)
Definition title_of (title content : jsstring) : jsstring :=
  or_str (or_str (trim title) (slice0 60 content)) (js "Untitled").

(** The rule of the specification for the stored excerpt and title,
    in its words: as relations between what was entered and what is
    stored. *)
Definition excerpt_rule (content stored : jsstring) : Prop :=
  (150 < List.length content -> stored = firstn 150 content ++ js "...")
  /\ (List.length content <= 150 -> stored = content).

Definition title_rule (title content stored : jsstring) : Prop :=
  (trim title <> [] -> stored = trim title)
  /\ (trim title = [] -> firstn 60 content <> [] -> stored = firstn 60 content)
  /\ (trim title = [] -> firstn 60 content = [] -> stored = js "Untitled").

(** [createBlogMutation.mutationFn] *)
Definition createBlogMutation (ed : Editor) : M unit :=
  match user with
  | None => throw (Error (js "Not authenticated"))
  | Some u =>
      match trim (content ed) with
      | [] => throw (Error (js "Content is required"))
      | _ :: _ =>
          uploadedMedia <- uploadFiles (newFiles ed) ;;
          let excerpt := excerpt_of (content ed) in
          let payload := {| p_title := title_of (title ed) (content ed);
                            p_content := content ed;
                            p_excerpt := excerpt;
                            p_media := uploadedMedia;
                            p_author_id := Some (user_id u);
                            p_is_published := publish ed |} in
          error <- blogs_insert payload ;;
          match error with
          | Some e => throw e
          | None => ret tt
          end
      end
  end.

(** [updateBlogMutation.mutationFn] *)
Definition updateBlogMutation (ed : Editor) : M unit :=
  match editingBlog ed with
  | None => throw (Error (js "No blog selected"))
  | Some blog =>
      match trim (content ed) with
      | [] => throw (Error (js "Content is required"))
      | _ :: _ =>
          uploadedMedia <- uploadFiles (newFiles ed) ;;
          let finalMedia := existingMedia ed ++ uploadedMedia in
          let excerpt := excerpt_of (content ed) in
          let payload := {| p_title := title_of (title ed) (content ed);
                            p_content := content ed;
                            p_excerpt := excerpt;
                            p_media := finalMedia;
                            p_author_id := None;
                            p_is_published := publish ed |} in
          error <- blogs_update payload (b_id blog) ;;
          match error with
          | Some e => throw e
          | None => ret tt
          end
      end
  end.

End Upload.

(** ** File selection *)

Definition is_image_item (m : MediaItem) : bool :=
  match media_type m with image => true | _ => false end.

Definition is_image_file (f : File) : bool :=
  startsWith (file_type f) (js "image/").

Definition count {A} (p : A -> bool) (l : list A) : nat := List.length (filter p l).

(** A file the cap does not look at. *)
Definition other_file (f : File) : bool := negb (is_image_file f).

(** One turn of [for (const file of files)], on [allowedFiles] and
    [rejectedImages]. *)
Definition select_file (currentImageCount : nat) (acc : list File * nat) (file : File)
  : list File * nat :=
  let (allowedFiles, rejectedImages) := acc in
  if is_image_file file then
    if Nat.ltb (currentImageCount + count is_image_file allowedFiles) 4
    then (allowedFiles ++ [file], rejectedImages)
    else (allowedFiles, S rejectedImages)
  else (allowedFiles ++ [file], rejectedImages).

(** The images of the post being edited: saved media of type image and
    staged image files. *)
Definition image_count (ed : Editor) : nat :=
  count is_image_item (existingMedia ed) + count is_image_file (newFiles ed).

(** The whole loop, from [allowedFiles = []] and [rejectedImages = 0]. *)
Definition select_files (currentImageCount : nat) (files : list File) : list File * nat :=
  fold_left (select_file currentImageCount) files ([], 0).

Definition handleFileChange (files : list File) (ed : Editor) : Editor * list Toast :=
  match files with
  | [] => (ed, [])
  | _ :: _ =>
      let currentImageCount :=
        count is_image_item (existingMedia ed) + count is_image_file (newFiles ed) in
      let (allowedFiles, rejectedImages) := select_files currentImageCount files in
      let toasts :=
        if Nat.ltb 0 rejectedImages then [toast_error (js "Maximum 4 images allowed")] else [] in
      ({| title := title ed; content := content ed; publish := publish ed;
          editingBlog := editingBlog ed; existingMedia := existingMedia ed;
          newFiles := newFiles ed ++ allowedFiles |}, toasts)
  end.

(** [blog.media || []] *)
Definition or_media (media : option (list MediaItem)) : list MediaItem :=
  match media with Some l => l | None => [] end.

Definition handleEdit (blog : Blog) (ed : Editor) : Editor :=
  {| title := or_str (b_title blog) []; content := or_str (b_content blog) [];
     publish := b_is_published blog; editingBlog := Some blog;
     existingMedia := or_media (b_media blog); newFiles := [] |}.

(** [{ ...b, media } as Blog]: a fetched row typed as a [Blog], with
    the parsed media in place of the cell. *)
Definition as_Blog (row : BlogRow) (media : list MediaItem) : Blog :=
  {| b_id := row_id row; b_title := row_title row; b_content := row_content row;
     b_excerpt := row_excerpt row; b_media := Some media;
     b_is_published := is_published row; b_created_at := created_at row;
     b_author_id := author_id row |}.

End BlogsManagement.

(* ================================================================== *)
(** * Blog.tsx: the public blog listing                                 *)
(* ================================================================== *)

Module BlogPage.
Local Open Scope async_scope.

(** [.eq("is_published", value)] *)
Definition eq_is_published (value : bool) (rows : list BlogRow) : list BlogRow :=
  filter (fun r => Bool.eqb (is_published r) value) rows.

(** The [blogs] query function of the page. *)
Definition queryFn : Remote.M (list BlogRow) :=
  r <- blogs_select (fun table => order_created_at_desc (eq_is_published true table)) ;;
  match r with
  | (_, Some error) => throw error
  | (data, None) => ret data
  end.

Section Cards.

Variable JSON_parse : jsstring -> completion JSValue.

(** [(m) => m?.type === t] *)
Definition has_type (t : jsstring) (m : JSValue) : bool :=
  strict_eq_str (get_opt m (js "type")) t.

(** The start of a card: parse the cell, then split the media by type. *)
Definition card_media (cell : JSValue)
  : completion (list JSValue * list JSValue * list JSValue) :=
  bind (parseMedia JSON_parse cell) (fun media =>
  bind (Array_filter media (has_type (js "image"))) (fun images =>
  bind (Array_filter media (has_type (js "video"))) (fun videos =>
  bind (Array_filter media (has_type (js "audio"))) (fun audios =>
  Normal (images, videos, audios))))).

(** [blogs.map((blog) => ...)]: one card per fetched blog, in order; a
    throw in one card ends the render. *)
Fixpoint cards (data : list BlogRow)
  : completion (list (BlogRow * (list JSValue * list JSValue * list JSValue))) :=
  match data with
  | [] => Normal []
  | blog :: rest =>
      bind (card_media (row_media blog)) (fun media =>
      bind (cards rest) (fun more => Normal ((blog, media) :: more)))
  end.

End Cards.

End BlogPage.

(* ================================================================== *)
(** * JavaScript numbers                                                *)
(* ================================================================== *)

Module Num.

(** [0], [-0] and [NaN] are the falsy numbers. *)
Definition falsy (x : float) : bool := PrimFloat.is_zero x || PrimFloat.is_nan x.

(** [x || d] *)
Definition or_num (x d : float) : float := if falsy x then d else x.

Definition finiteb (x : float) : bool :=
  match Prim2SF x with
  | S754_zero _ | S754_finite _ _ _ => true
  | _ => false
  end.

(** A number other than [NaN] and [-0]: what [x || 0] leaves as it is. *)
Definition ordinary (x : float) : bool :=
  match Prim2SF x with
  | S754_nan => false
  | S754_zero true => false
  | _ => true
  end.

(** Equality of numbers up to the sign of zero ([NaN] equal to itself). *)
Definition canon (x : spec_float) : spec_float :=
  match x with
  | S754_zero _ => S754_zero false
  | _ => x
  end.

Definition same_number (x y : float) : Prop := canon (Prim2SF x) = canon (Prim2SF y).

(** The integer [n] nearest to [100 * m * 2^e], the larger one on a tie. *)
Definition hundredths (m : positive) (e : Z) : Z :=
  if (0 <=? e)%Z then Zpos m * 2 ^ e * 100
  else (200 * Zpos m + 2 ^ (- e)) / 2 ^ (- e + 1).

Definition at_least_1e21 (m : positive) (e : Z) : bool :=
  if (0 <=? e)%Z then (10 ^ 21 <=? Zpos m * 2 ^ e)%Z
  else (10 ^ 21 * 2 ^ (- e) <=? Zpos m)%Z.

(** The digits of [n], zero-padded to three, with a point before the
    last two. *)
Definition fixed2 (n : Z) : jsstring :=
  let digits := string_of_Z n in
  let padded := repeat 48%Z (3 - List.length digits) ++ digits in
  let k := List.length padded in
  firstn (k - 2) padded ++ js "." ++ skipn (k - 2) padded.

Section Formatting.

(** [Number::toString], the builtin behind [String(x)] and [`${x}`]. *)
Variable Number_toString : float -> jsstring.

(** [x.toFixed(2)] *)
Definition toFixed2 (x : float) : jsstring :=
  match Prim2SF x with
  | S754_nan | S754_infinity _ => Number_toString x
  | S754_zero _ => js "0.00"
  | S754_finite neg m e =>
      let sign := if neg then js "-" else [] in
      if at_least_1e21 m e then sign ++ Number_toString (PrimFloat.abs x)
      else sign ++ fixed2 (hundredths m e)
  end.

End Formatting.

(** [Number::toString] on the integers below [10^21], [NaN] and the
    infinities.  Elsewhere (fractions, exponent forms) it gives the
    empty text, which no run below relies on. *)
Definition Number_toString_integral (x : float) : jsstring :=
  match Prim2SF x with
  | S754_nan => js "NaN"
  | S754_infinity neg => (if neg then js "-" else []) ++ js "Infinity"
  | S754_zero _ => js "0"
  | S754_finite neg m e =>
      let sign := if neg then js "-" else [] in
      if at_least_1e21 m e then []
      else if (0 <=? e)%Z then sign ++ string_of_Z (Zpos m * 2 ^ e)
      else if (Zpos m mod 2 ^ (- e) =? 0)%Z then sign ++ string_of_Z (Zpos m / 2 ^ (- e))
      else []
  end.

End Num.

(* ================================================================== *)
(** * Percent-encoding                                                  *)
(* ================================================================== *)

Module URI.

Definition between (lo hi c : Z) : bool := ((lo <=? c) && (c <=? hi))%Z.

(** The characters [encodeURIComponent] leaves as they are: letters,
    digits and [- _ . ! ~ * ' ( )]. *)
Definition unescaped (c : code_unit) : bool :=
  between 65 90 c || between 97 122 c || between 48 57 c
  || (c =? 45)%Z || (c =? 95)%Z || (c =? 46)%Z || (c =? 33)%Z || (c =? 126)%Z
  || (c =? 42)%Z || (c =? 39)%Z || (c =? 40)%Z || (c =? 41)%Z.

Definition is_lead (c : code_unit) : bool := between 55296 56319 c.
Definition is_trail (c : code_unit) : bool := between 56320 57343 c.

(** UTF-8 octets of a code point. *)
Definition utf8 (cp : Z) : list Z :=
  if (cp <? 128)%Z then [cp]
  else if (cp <? 2048)%Z then [192 + cp / 64; 128 + cp mod 64]%Z
  else if (cp <? 65536)%Z then
    [224 + cp / 4096; 128 + (cp / 64) mod 64; 128 + cp mod 64]%Z
  else
    [240 + cp / 262144; 128 + (cp / 4096) mod 64; 128 + (cp / 64) mod 64;
     128 + cp mod 64]%Z.

Definition hex_digit (n : Z) : code_unit := if (n <? 10)%Z then (48 + n)%Z else (55 + n)%Z.

(** ["%"] and the two upper-case hexadecimal digits of an octet. *)
Definition escape (octet : Z) : jsstring :=
  [37%Z; hex_digit (octet / 16); hex_digit (octet mod 16)].

Definition escape_all (octets : list Z) : jsstring := flat_map escape octets.

Definition code_point (lead trail : code_unit) : Z :=
  ((lead - 55296) * 1024 + (trail - 56320) + 65536)%Z.

Definition prepend (pre : jsstring) (c : completion jsstring) : completion jsstring :=
  bind c (fun rest => Normal (pre ++ rest)).

(** [encodeURIComponent]: throws [URIError] on an unpaired surrogate. *)
Fixpoint encodeURIComponent (s : jsstring) : completion jsstring :=
  match s with
  | [] => Normal []
  | c :: rest =>
      if unescaped c then prepend [c] (encodeURIComponent rest)
      else if is_trail c then Throw URIError
      else if is_lead c then
        match rest with
        | d :: rest' =>
            if is_trail d
            then prepend (escape_all (utf8 (code_point c d))) (encodeURIComponent rest')
            else Throw URIError
        | [] => Throw URIError
        end
      else prepend (escape_all (utf8 c)) (encodeURIComponent rest)
  end.

(** *** The reading side, to say what a valid percent-encoding of a text
        is: the octets an encoded component spells, and the text whose
        UTF-8 form they are. *)

Definition hex_value (c : code_unit) : option Z :=
  if between 48 57 c then Some (c - 48)%Z
  else if between 65 70 c then Some (c - 55)%Z
  else if between 97 102 c then Some (c - 87)%Z
  else None.

Fixpoint octets_of (encoded : jsstring) : option (list Z) :=
  match encoded with
  | [] => Some []
  | c :: rest =>
      if (c =? 37)%Z then
        match rest with
        | h :: l :: rest' =>
            match hex_value h, hex_value l, octets_of rest' with
            | Some hv, Some lv, Some more => Some ((16 * hv + lv)%Z :: more)
            | _, _, _ => None
            end
        | _ => None
        end
      else if between 0 127 c then
        match octets_of rest with
        | Some more => Some (c :: more)
        | None => None
        end
      else None
  end.

(** Code units of a code point. *)
Definition utf16 (cp : Z) : jsstring :=
  if (cp <? 65536)%Z then [cp]
  else [55296 + (cp - 65536) / 1024; 56320 + (cp - 65536) mod 1024]%Z.

Definition continuation (b : Z) : bool := between 128 191 b.

(** UTF-8 decoding, shortest forms only, no surrogate code points. *)
Fixpoint text_of (octets : list Z) : option jsstring :=
  match octets with
  | [] => Some []
  | b0 :: rest =>
      if between 0 127 b0 then option_map (app [b0]) (text_of rest)
      else if between 194 223 b0 then
        match rest with
        | b1 :: rest' =>
            if continuation b1
            then option_map (app (utf16 ((b0 - 192) * 64 + (b1 - 128)))) (text_of rest')
            else None
        | _ => None
        end
      else if between 224 239 b0 then
        match rest with
        | b1 :: b2 :: rest' =>
            let cp := ((b0 - 224) * 4096 + (b1 - 128) * 64 + (b2 - 128))%Z in
            if continuation b1 && continuation b2 && (2048 <=? cp)%Z
               && negb (between 55296 57343 cp)
            then option_map (app (utf16 cp)) (text_of rest')
            else None
        | _ => None
        end
      else if between 240 244 b0 then
        match rest with
        | b1 :: b2 :: b3 :: rest' =>
            let cp := ((b0 - 240) * 262144 + (b1 - 128) * 4096 + (b2 - 128) * 64
                       + (b3 - 128))%Z in
            if continuation b1 && continuation b2 && continuation b3
               && (65536 <=? cp)%Z && (cp <=? 1114111)%Z
            then option_map (app (utf16 cp)) (text_of rest')
            else None
        | _ => None
        end
      else None
  end.

(** The text an encoded component stands for, if it is one. *)
Definition decoded (encoded : jsstring) : option jsstring :=
  match octets_of encoded with
  | Some octets => text_of octets
  | None => None
  end.

(** UTF-8 octets of a text. *)
Fixpoint utf8_text (s : jsstring) : list Z :=
  match s with
  | [] => []
  | c :: rest =>
      if is_lead c then
        match rest with
        | d :: rest' => utf8 (code_point c d) ++ utf8_text rest'
        | [] => utf8 c
        end
      else utf8 c ++ utf8_text rest
  end.

(** The characters an encoded component is made of: the unescaped
    ones, the percent sign and the upper-case hexadecimal digits. *)
Definition component_char (c : code_unit) : bool :=
  unescaped c || (c =? 37)%Z || between 48 57 c || between 65 70 c.

(** A text of code units below the surrogate range. *)
Definition plain (s : jsstring) : bool := forallb (between 0 55295) s.

(** A text with every code unit in range and every surrogate paired. *)
Fixpoint well_formed (s : jsstring) : bool :=
  match s with
  | [] => true
  | c :: rest =>
      if is_trail c then false
      else if is_lead c then
        match rest with
        | d :: rest' => is_trail d && well_formed rest'
        | [] => false
        end
      else between 0 65535 c && well_formed rest
  end.

End URI.

(* ================================================================== *)
(** * The checkout page                                                 *)
(* ================================================================== *)

Module Checkout.
Import Num URI.
Local Open Scope async_scope.

Record Product := { product_name : jsstring; price : float }.

(** A row of [cart_items] with its joined product, if the join found
    one. *)
Record CartItem := {
  cart_item_id : jsstring;
  cart_user_id : jsstring;
  product_id : jsstring;
  quantity : float;
  products : option Product
}.

Record Profile := {
  profile_name : option jsstring;
  phone : option jsstring;
  address : option jsstring
}.

Record Order := {
  order_id : jsstring;
  order_user_id : jsstring;
  total_amount : float;
  payment_status : jsstring;
  delivery_status : jsstring
}.

Record OrderItem := {
  oi_order_id : jsstring;
  oi_product_id : jsstring;
  oi_product_name : jsstring;
  oi_quantity : float;
  oi_price : float
}.

(** The remote calls of the page, as the store receives them. *)
Inductive Call :=
| insert_order
| insert_order_items
| delete_cart_items.

(** The tables the page writes, the outcome scripted for each coming
    call, and the calls received so far. *)
Record Shop := {
  orders : list Order;
  order_items : list OrderItem;
  cart_items : list CartItem;
  scripted : list (option JSError);
  calls : list Call
}.

Definition M := Async.M Shop.

(** A call reaches the store: it is recorded, and its outcome read. *)
Definition receive (c : Call) (s : Shop) : option JSError * Shop :=
  let log := calls s ++ [c] in
  match scripted s with
  | [] =>
      (None, {| orders := orders s; order_items := order_items s;
                cart_items := cart_items s; scripted := []; calls := log |})
  | o :: rest =>
      (o, {| orders := orders s; order_items := order_items s;
             cart_items := cart_items s; scripted := rest; calls := log |})
  end.

(** [item.products?.price || 0] *)
Definition unit_price (item : CartItem) : float :=
  match products item with
  | Some p => or_num (price p) 0
  | None => 0%float
  end.

(** [cartItems.reduce((sum, item) => sum + (item.products?.price || 0) * item.quantity, 0)] *)
Definition total (cartItems : list CartItem) : float :=
  fold_left (fun sum item => (sum + unit_price item * quantity item)%float) cartItems 0%float.

(** The reducer of [total], by name. *)
Definition add_line (sum : float) (item : CartItem) : float :=
  (sum + unit_price item * quantity item)%float.

(** [item.products?.name || ""] *)
Definition order_item_name (item : CartItem) : jsstring :=
  match products item with
  | Some p => or_str (product_name p) []
  | None => []
  end.

Definition orderItems (order : Order) (cartItems : list CartItem) : list OrderItem :=
  map (fun item =>
         {| oi_order_id := order_id order;
            oi_product_id := product_id item;
            oi_product_name := order_item_name item;
            oi_quantity := quantity item;
            oi_price := unit_price item |}) cartItems.

Section Mutation.

(** The identifier the store gives a new order. *)
Variable new_order_id : Shop -> jsstring.

(** [supabase.from("orders").insert({...}).select().single()] *)
Definition orders_insert (uid : jsstring) (amount : float)
  : M (option Order * option JSError) :=
  fun s =>
    let (o, s1) := receive insert_order s in
    match o with
    | Some e => (Normal (None, Some e), s1)
    | None =>
        let order := {| order_id := new_order_id s1; order_user_id := uid;
                        total_amount := amount;
                        payment_status := js "completed";
                        delivery_status := js "processing" |} in
        (Normal (Some order, None),
         {| orders := orders s1 ++ [order]; order_items := order_items s1;
            cart_items := cart_items s1; scripted := scripted s1; calls := calls s1 |})
    end.

(** [supabase.from("order_items").insert(orderItems)] *)
Definition order_items_insert (items : list OrderItem) : M (option JSError) :=
  fun s =>
    let (o, s1) := receive insert_order_items s in
    match o with
    | Some e => (Normal (Some e), s1)
    | None =>
        (Normal None,
         {| orders := orders s1; order_items := order_items s1 ++ items;
            cart_items := cart_items s1; scripted := scripted s1; calls := calls s1 |})
    end.

(** [supabase.from("cart_items").delete().eq("user_id", uid)] *)
Definition cart_items_delete (uid : jsstring) : M (option JSError) :=
  fun s =>
    let (o, s1) := receive delete_cart_items s in
    match o with
    | Some e => (Normal (Some e), s1)
    | None =>
        (Normal None,
         {| orders := orders s1; order_items := order_items s1;
            cart_items := filter (fun row => negb (str_eqb (cart_user_id row) uid)) (cart_items s1);
            scripted := scripted s1; calls := calls s1 |})
    end.

(** [createOrderMutation.mutationFn] *)
Definition mutationFn (user : option User) (cartItems : option (list CartItem)) : M float :=
  match user, cartItems with
  | Some u, Some items =>
      let total := total items in
      r <- orders_insert (user_id u) total ;;
      match r with
      | (_, Some orderError) => throw orderError
      | (None, None) => throw TypeError
      | (Some order, None) =>
          itemsError <- order_items_insert (orderItems order items) ;;
          match itemsError with
          | Some e => throw e
          | None =>
              clearError <- cart_items_delete (user_id u) ;;
              match clearError with
              | Some e => throw e
              | None => ret total
              end
          end
      end
  | _, _ => throw (Error (js "Invalid state"))
  end.

(** The order row the first write creates, and the cart rows left once
    the user's rows are cleared. *)
Definition created_order (u : User) (items : list CartItem) (s : Shop) : Order :=
  {| order_id := new_order_id (snd (receive insert_order s));
     order_user_id := user_id u; total_amount := total items;
     payment_status := js "completed"; delivery_status := js "processing" |}.

Definition cleared (u : User) (rows : list CartItem) : list CartItem :=
  filter (fun row => negb (str_eqb (cart_user_id row) (user_id u))) rows.

End Mutation.

(** ** The message and the deep link *)

Definition ADMIN_WHATSAPP : jsstring := js "94741167143".

Definition nl : jsstring := [10%Z].

(** The shopping-cart sign U+1F6D2, as its two code units. *)
Definition cart_sign : jsstring := [55357%Z; 57042%Z].

(** [field || "N/A"] on a field of an optional profile. *)
Definition or_NA (field : option jsstring) : jsstring :=
  match field with
  | Some text => or_str text (js "N/A")
  | None => js "N/A"
  end.

Definition profile_field (profile : option Profile) (get : Profile -> option jsstring)
  : option jsstring :=
  match profile with
  | Some p => get p
  | None => None
  end.

(** [item.products?.name || "Item"] *)
Definition line_name (item : CartItem) : jsstring :=
  match products item with
  | Some p => or_str (product_name p) (js "Item")
  | None => js "Item"
  end.

Section Message.

Variable Number_toString : float -> jsstring.

(** [`- ${item.products?.name || "Item"} (x${item.quantity || 1})`] *)
Definition item_line (item : CartItem) : jsstring :=
  js "- " ++ line_name item ++ js " (x" ++ Number_toString (or_num (quantity item) 1) ++ js ")".

Definition message (profile : option Profile) (cartItems : list CartItem) (total : float)
  : jsstring :=
  (cart_sign ++ js " *New Order Received*" ++ nl ++ nl)
  ++ (js "*Customer Details*" ++ nl)
  ++ (js "Name: " ++ or_NA (profile_field profile profile_name) ++ nl)
  ++ (js "Phone: " ++ or_NA (profile_field profile phone) ++ nl)
  ++ (js "Address: " ++ or_NA (profile_field profile address) ++ nl ++ nl)
  ++ (js "*Order Items*" ++ nl)
  ++ join nl (map item_line cartItems)
  ++ (nl ++ nl ++ js "*Total Amount:* $" ++ toFixed2 Number_toString total ++ nl ++ nl)
  ++ js "Please confirm the order.".

Definition link_prefix : jsstring := js "https://wa.me/" ++ ADMIN_WHATSAPP ++ js "?text=".

(** [onSuccess]: the notice raised and the address the window is sent
    to. *)
Definition onSuccess (profile : option Profile) (cartItems : list CartItem) (total : float)
  : list Toast * completion jsstring :=
  ([toast_success (js "Order placed successfully!")],
   bind (encodeURIComponent (message profile cartItems total))
        (fun encoded => Normal (link_prefix ++ encoded))).

End Message.

(** The texts of the profile and of the cart that go into a message. *)
Definition message_texts (profile : option Profile) (cartItems : list CartItem)
  : list jsstring :=
  or_NA (profile_field profile profile_name)
  :: or_NA (profile_field profile phone)
  :: or_NA (profile_field profile address)
  :: map line_name cartItems.

Definition texts_well_formed (profile : option Profile) (cartItems : list CartItem) : bool :=
  forallb well_formed (message_texts profile cartItems).

(** ** The specification's words *)

(** "Sum of (unit price x quantity) over cart lines", on the lines as
    pairs of a unit price and a quantity, summed in cart order. *)
Definition sum_of_lines (lines : list (float * float)) : float :=
  fold_left (fun acc line => (acc + fst line * snd line)%float) lines 0%float.

(** The lines of a cart each of whose items has its product, priced by
    an ordinary number. *)
Fixpoint priced_lines (cartItems : list CartItem) : option (list (float * float)) :=
  match cartItems with
  | [] => Some []
  | item :: rest =>
      match products item, priced_lines rest with
      | Some p, Some lines =>
          if ordinary (price p) then Some ((price p, quantity item) :: lines) else None
      | _, _ => None
      end
  end.

End Checkout.

(* ================================================================== *)
(** * Sample data                                                       *)
(* ================================================================== *)

(** Concrete users, files, stores and carts on which the definitions
    above are run. *)
Module Sample.
Import BlogsManagement.
Local Open Scope float_scope.

(** A signed-in user, a clock, a random source and a storage service to
    run the batch on. *)
Definition admin : option User := Some {| user_id := js "admin" |}.
Definition clock (n : nat) : Z := 1700000000000 + Z.of_nat n.
Definition random36 (n : nat) : jsstring := js "0.k3j9x" ++ string_of_Z (Z.of_nat n).
Definition public_url (path : jsstring) : jsstring := js "https://cdn.example/" ++ path.

Definition png (name : string) : File := {| file_name := js name; file_type := js "image/png" |}.
Definition mp4 (name : string) : File := {| file_name := js name; file_type := js "video/mp4" |}.
Definition mp3 (name : string) : File := {| file_name := js name; file_type := js "audio/mpeg" |}.
Definition untyped (name : string) : File := {| file_name := js name; file_type := [] |}.

Definition store_failure : JSError := StoreError 413 (js "Payload too large").

Definition empty_store (script : list (option JSError)) : state :=
  {| bucket := []; blogs := []; outcomes := script; readings := 0 |}.

(** The identifier and the stamp a store gives its next row. *)
Definition row_ident (s : state) : jsstring :=
  js "blog-" ++ string_of_Z (Z.of_nat (List.length (blogs s))).
Definition row_stamp (s : state) : jsstring :=
  js "2025-01-01T00:00:" ++ string_of_Z (Z.of_nat (10 + List.length (blogs s))) ++ js "Z".

(** A form holding a content of 200 letters, a blank title and no file. *)
Definition long_post : Editor :=
  {| title := js "   "; content := repeat 97%Z 200; publish := true;
     editingBlog := None; existingMedia := []; newFiles := [] |}.

Definition image_at (u : string) : MediaItem := {| media_type := image; media_url := js u |}.

Definition empty_form : Editor :=
  {| title := []; content := []; publish := true; editingBlog := None;
     existingMedia := []; newFiles := [] |}.

(** A form with a content, before any file is chosen. *)
Definition draft : Editor :=
  {| title := js "Tips"; content := js "Drink warm water."; publish := true;
     editingBlog := None; existingMedia := []; newFiles := [] |}.

(** Four pictures and a file whose type the browser does not know. *)
Definition four_pictures_and_notes : list File :=
  [png "a.png"; png "b.png"; png "c.png"; png "d.png"; untyped "notes"].

(** A form editing a post with three saved images. *)
Definition three_saved : Editor :=
  {| title := js "Tips"; content := js "Drink warm water."; publish := true;
     editingBlog := None;
     existingMedia := [image_at "1"; image_at "2"; image_at "3"]; newFiles := [] |}.

(** A form editing a post saved with five images. *)
Definition five_saved : Editor :=
  {| title := js "Tips"; content := js "Drink warm water."; publish := true;
     editingBlog := None;
     existingMedia := [image_at "1"; image_at "2"; image_at "3"; image_at "4"; image_at "5"];
     newFiles := [] |}.

Definition post (id stamp : string) (published : bool) (media : JSValue) : BlogRow :=
  {| row_id := js id; row_title := js "Post " ++ js id; row_content := js "Body";
     row_excerpt := None; row_media := media; is_published := published;
     created_at := js stamp; author_id := js "admin" |}.

(** A table with two published posts and a draft between them. *)
Definition three_posts : state :=
  {| bucket := [];
     blogs := [post "1" "2025-01-01" true (JSArray []);
               post "2" "2025-01-02" false (JSArray []);
               post "3" "2025-01-03" true JSNull];
     outcomes := []; readings := 0 |}.

(** Carts.  [line name price qty] is a cart row with its product;
    [orphan qty] is one whose product the join did not find. *)
Definition line (name : string) (unit_price qty : float) : Checkout.CartItem :=
  {| Checkout.cart_item_id := js "row-" ++ js name; Checkout.cart_user_id := js "u1";
     Checkout.product_id := js "p-" ++ js name; Checkout.quantity := qty;
     Checkout.products := Some {| Checkout.product_name := js name;
                                  Checkout.price := unit_price |} |}.

Definition orphan (qty : float) : Checkout.CartItem :=
  {| Checkout.cart_item_id := js "row-gone"; Checkout.cart_user_id := js "u1";
     Checkout.product_id := js "p-gone"; Checkout.quantity := qty;
     Checkout.products := None |}.

Definition two_line_cart : list Checkout.CartItem := [line "Oil" 10 2; line "Tea" 5 1].

Definition profile_ABC : Checkout.Profile :=
  {| Checkout.profile_name := Some (js "A"); Checkout.phone := Some (js "B");
     Checkout.address := Some (js "C") |}.

(** One line of two units of X, at 7.5 a unit. *)
Definition cart_X2 : list Checkout.CartItem := [line "X" 7.5 2].

(** A line whose quantity is zero, before a line of one. *)
Definition cart_with_zero_quantity : list Checkout.CartItem :=
  [line "X" 1.25 0; line "Y" 1.25 1].

Definition buyer : User := {| user_id := js "u1" |}.

Definition shop (cart : list Checkout.CartItem) (script : list (option JSError)) : Checkout.Shop :=
  {| Checkout.orders := []; Checkout.order_items := []; Checkout.cart_items := cart;
     Checkout.scripted := script; Checkout.calls := [] |}.

Definition order_ident (s : Checkout.Shop) : jsstring :=
  js "order-" ++ string_of_Z (Z.of_nat (List.length (Checkout.orders s))).

End Sample.

(* ================================================================== *)
(** * The order of a listing                                            *)
(* ================================================================== *)

Module Listing.

(** [a] may stand before [b] in a listing ordered by [created_at],
    descending. *)
Definition newer_first (a b : BlogRow) : Prop :=
  str_leb (created_at b) (created_at a) = true.

Definition published (rows : list BlogRow) : list BlogRow := filter is_published rows.

End Listing.

(* ================================================================== *)
(** * BlogsManagement.tsx: the other actions of the editor             *)
(* ================================================================== *)

Module EditorActions.
Import BlogsManagement.
Local Open Scope async_scope.

(** [list.filter((x, i) => keep(x, i))], the index counted from [i]. *)
Fixpoint filter_index {A} (keep : A -> nat -> bool) (i : nat) (l : list A) : list A :=
  match l with
  | [] => []
  | x :: rest =>
      if keep x i then x :: filter_index keep (S i) rest
      else filter_index keep (S i) rest
  end.

(** [prev.filter((_, i) => i !== index)] *)
Definition without_index {A} (index : nat) (prev : list A) : list A :=
  filter_index (fun _ i => negb (Nat.eqb i index)) 0 prev.

Definition handleRemoveExistingMedia (index : nat) (ed : Editor) : Editor :=
  {| title := title ed; content := content ed; publish := publish ed;
     editingBlog := editingBlog ed;
     existingMedia := without_index index (existingMedia ed);
     newFiles := newFiles ed |}.

Definition handleRemoveNewFile (index : nat) (ed : Editor) : Editor :=
  {| title := title ed; content := content ed; publish := publish ed;
     editingBlog := editingBlog ed; existingMedia := existingMedia ed;
     newFiles := without_index index (newFiles ed) |}.

Definition resetForm (ed : Editor) : Editor :=
  {| title := []; content := []; publish := true; editingBlog := None;
     existingMedia := []; newFiles := [] |}.

(** [supabase.from("blogs").delete().eq("id", id)] *)
Definition blogs_delete (id : jsstring) : M (option JSError) :=
  fun s =>
    let (o, s1) := next_outcome s in
    match o with
    | Some e => (Normal (Some e), s1)
    | None =>
        (Normal None,
         {| bucket := bucket s1;
            blogs := filter (fun row => negb (str_eqb (row_id row) id)) (blogs s1);
            outcomes := outcomes s1; readings := readings s1 |})
    end.

(** [deleteBlogMutation.mutationFn] *)
Definition deleteBlogMutation (id : jsstring) : M unit :=
  error <- blogs_delete id ;;
  match error with
  | Some e => throw e
  | None => ret tt
  end.

(** The feed of the editor: [m.type === t] on a media item, and what a
    post of the feed renders of [(blog.media || [])]: [images.slice(0, 4)],
    [videos[0]] and [audios[0]] when there are any. *)
Definition of_type (t : MediaType) (m : MediaItem) : bool :=
  match t, media_type m with
  | image, image | video, video | audio, audio => true
  | _, _ => false
  end.

Definition feed_shown (media : option (list MediaItem))
  : list MediaItem * option MediaItem * option MediaItem :=
  let media := or_media media in
  let images := filter (of_type image) media in
  let videos := filter (of_type video) media in
  let audios := filter (of_type audio) media in
  (firstn 4 images, hd_error videos, hd_error audios).

Section Submit.

Variable user : option User.
Variable Date_now : nat -> Z.
Variable Math_random_toString36 : nat -> jsstring.
Variable getPublicUrl : jsstring -> jsstring.
Variable new_blog_id : state -> jsstring.
Variable new_created_at : state -> jsstring.

(** The store once the files of the form are uploaded and one more call
    has been answered, and the row a create by [u] then adds. *)
Definition after_uploads (ed : Editor) (s : state) : state :=
  {| bucket := bucket s
               ++ stored_objects user Date_now Math_random_toString36 (readings s) (newFiles ed);
     blogs := blogs s;
     outcomes := skipn (S (List.length (newFiles ed))) (outcomes s);
     readings := readings s + List.length (newFiles ed) |}.

Definition uploaded (ed : Editor) (s : state) : list MediaItem :=
  uploaded_items user Date_now Math_random_toString36 getPublicUrl (readings s) (newFiles ed).

Definition created_row (u : User) (ed : Editor) (s : state) : BlogRow :=
  {| row_id := new_blog_id (after_uploads ed s);
     row_title := title_of (title ed) (content ed);
     row_content := content ed;
     row_excerpt := Some (excerpt_of (content ed));
     row_media := media_cell (uploaded ed s);
     is_published := publish ed;
     created_at := new_created_at (after_uploads ed s);
     author_id := user_id u |}.

(** The payload of an update. *)
Definition update_payload (ed : Editor) (s : state) : Payload :=
  {| p_title := title_of (title ed) (content ed);
     p_content := content ed;
     p_excerpt := excerpt_of (content ed);
     p_media := existingMedia ed ++ uploaded ed s;
     p_author_id := None;
     p_is_published := publish ed |}.

(** The [message] of a thrown value: its own for an [Error] and for a
    store's error object, the engine's for the builtin errors. *)
Variable builtin_message : JSError -> jsstring.

Definition message_of (err : JSError) : jsstring :=
  match err with
  | Error message => message
  | StoreError _ message => message
  | _ => builtin_message err
  end.

(** [mutation.mutate()]: the mutation function, then [onSuccess] or
    [onError]; the form after it and the notices raised. *)
Definition mutate_create (ed : Editor) : state -> (Editor * list Toast) * state :=
  fun s =>
    match createBlogMutation user Date_now Math_random_toString36 getPublicUrl
                             new_blog_id new_created_at ed s with
    | (Normal _, s') => ((resetForm ed, [toast_success (js "Blog created successfully")]), s')
    | (Throw err, s') =>
        ((ed, [toast_error (or_str (message_of err) (js "Failed to create blog"))]), s')
    end.

Definition mutate_update (ed : Editor) : state -> (Editor * list Toast) * state :=
  fun s =>
    match updateBlogMutation user Date_now Math_random_toString36 getPublicUrl ed s with
    | (Normal _, s') => ((resetForm ed, [toast_success (js "Blog updated successfully")]), s')
    | (Throw err, s') =>
        ((ed, [toast_error (or_str (message_of err) (js "Failed to update blog"))]), s')
    end.

(** [editingBlog ? updateBlogMutation.mutate() : createBlogMutation.mutate()] *)
Definition handleSubmit (ed : Editor) : state -> (Editor * list Toast) * state :=
  match editingBlog ed with
  | Some _ => mutate_update ed
  | None => mutate_create ed
  end.

End Submit.

(** [deleteBlogMutation.mutate(id)]: the form is not touched. *)
Definition mutate_delete (id : jsstring) : state -> list Toast * state :=
  fun s =>
    match deleteBlogMutation id s with
    | (Normal _, s') => ([toast_success (js "Blog deleted successfully")], s')
    | (Throw _, s') => ([toast_error (js "Failed to delete blog")], s')
    end.

End EditorActions.

(* ================================================================== *)
(** * Blog.tsx: what a card shows                                       *)
(* ================================================================== *)

Module BlogCard.
Import BlogPage.

(** [blog.excerpt || blog.content.substring(0, 150) + "..."] *)
Definition card_excerpt (blog : BlogRow) : jsstring :=
  match row_excerpt blog with
  | Some (c :: excerpt) => c :: excerpt
  | _ => firstn 150 (row_content blog) ++ js "..."
  end.

(** Truthiness of a decoded value, and [a || b] on such values. *)
Definition truthy (v : JSValue) : bool :=
  match v with
  | JSUndefined | JSNull => false
  | JSBool b => b
  | JSNumber x => negb (Num.falsy x)
  | JSString [] => false
  | JSString (_ :: _) => true
  | JSArray _ | JSObject _ => true
  end.

Definition or_value (a b : JSValue) : JSValue := if truthy a then a else b.

(** [images[0]?.url || blog.image_url || null], [image_url] being the
    row's value for that column. *)
Definition coverImage (images : list JSValue) (image_url : JSValue) : JSValue :=
  or_value (or_value (get_opt (hd JSUndefined images) (js "url")) image_url) JSNull.

Section Shown.

Variable JSON_parse : jsstring -> completion JSValue.

(** The media a card renders: [images.slice(0, 4)], [videos[0]] when
    there is a video, [audios[0]] when there is an audio. *)
Definition card_shown (cell : JSValue)
  : completion (list JSValue * option JSValue * option JSValue) :=
  bind (card_media JSON_parse cell) (fun media =>
    let '(images, videos, audios) := media in
    Normal (firstn 4 images, hd_error videos, hd_error audios)).

End Shown.

End BlogCard.

(* ================================================================== *)
(** * The checkout page: its cart query, its total and its mutation     *)
(* ================================================================== *)

Module CheckoutPage.
Import Num Checkout.

(** The [cart] query function: no call without a user; else the rows of
    [cart_items] whose [user_id] is the user's, or the error of the
    store when it answers with one. *)
Definition cart_queryFn (user : option User) (answer : option JSError) (s : Shop)
  : completion (list CartItem) :=
  match user with
  | None => Normal []
  | Some u =>
      match answer with
      | Some error => Throw error
      | None =>
          Normal (filter (fun row => str_eqb (cart_user_id row) (user_id u)) (cart_items s))
      end
  end.

(** [cartItems?.reduce(...) || 0]: the total the page shows. *)
Definition page_total (cartItems : option (list CartItem)) : float :=
  match cartItems with
  | Some items => or_num (total items) 0
  | None => 0%float
  end.

Section Mutate.

Variable new_order_id : Shop -> jsstring.
Variable Number_toString : float -> jsstring.

(** [createOrderMutation.mutate()]: the mutation function, then
    [onSuccess] or [onError]; the notices raised, and the address the
    window is sent to when [onSuccess] ran. *)
Definition mutate (user : option User) (cartItems : option (list CartItem))
           (profile : option Profile)
  : Shop -> (list Toast * option (completion jsstring)) * Shop :=
  fun s =>
    match mutationFn new_order_id user cartItems s with
    | (Normal total, s') =>
        match cartItems with
        | Some items =>
            let (toasts, url) := onSuccess Number_toString profile items total in
            ((toasts, Some url), s')
        | None =>
            (([toast_success (js "Order placed successfully!")], Some (Throw TypeError)), s')
        end
    | (Throw _, s') => (([toast_error (js "Failed to place order")], None), s')
    end.

End Mutate.

End CheckoutPage.

(* ================================================================== *)
(** * ProductsManagement.tsx: the product image upload                  *)
(* ================================================================== *)

Module ProductsManagement.
Local Open Scope async_scope.

Record FormData := {
  name : jsstring;
  description : jsstring;
  benefits : jsstring;
  ingredients : jsstring;
  usage_instructions : jsstring;
  price : jsstring;
  stock_count : jsstring;
  image_url : jsstring
}.

(** Bucket [product-images]: at most one object per path, and the
    outcome scripted for each coming upload. *)
Record Images := {
  objects : list (jsstring * File);
  upload_outcomes : list (option JSError)
}.

Definition M := Async.M Images.

(** The object at a path. *)
Fixpoint object_at (path : jsstring) (objs : list (jsstring * File)) : option File :=
  match objs with
  | [] => None
  | (p, f) :: rest => if str_eqb p path then Some f else object_at path rest
  end.

(** An upload with [upsert: true]: the object at the path is replaced
    when there is one, and added otherwise. *)
Fixpoint upsert (path : jsstring) (file : File) (objs : list (jsstring * File))
  : list (jsstring * File) :=
  match objs with
  | [] => [(path, file)]
  | (p, f) :: rest =>
      if str_eqb p path then (p, file) :: rest else (p, f) :: upsert path file rest
  end.

(** [supabase.storage.from("product-images").upload(filePath, file, { upsert: true })] *)
Definition product_images_upload (path : jsstring) (file : File) : M (option JSError) :=
  fun s =>
    match upload_outcomes s with
    | Some e :: rest => (Normal (Some e), {| objects := objects s; upload_outcomes := rest |})
    | None :: rest =>
        (Normal None, {| objects := upsert path file (objects s); upload_outcomes := rest |})
    | [] => (Normal None, {| objects := upsert path file (objects s); upload_outcomes := [] |})
    end.

Section ImageInput.

(** The public URL the storage service gives a path. *)
Variable getPublicUrl : jsstring -> jsstring.

(** [`products/${Date.now()}.${file.name.split(".").pop()}`] *)
Definition filePath (now : Z) (file : File) : jsstring :=
  let fileExt := BlogsManagement.pop_text (BlogsManagement.split_dot (file_name file)) in
  let fileName := string_of_Z now ++ js "." ++ fileExt in
  js "products/" ++ fileName.

(** The [onChange] of the image input: [file] is [e.target.files?.[0]],
    [now] the reading of [Date.now()], [formData] the form the handler
    closed over.  It gives the form to set, if any, and the notices. *)
Definition onChange (file : option File) (now : Z) (formData : FormData)
  : M (option FormData * list Toast) :=
  match file with
  | None => ret (None, [])
  | Some file =>
      uploadError <- product_images_upload (filePath now file) file ;;
      match uploadError with
      | Some _ => ret (None, [toast_error (js "Image upload failed")])
      | None =>
          let publicUrl := getPublicUrl (filePath now file) in
          ret (Some {| name := name formData; description := description formData;
                       benefits := benefits formData; ingredients := ingredients formData;
                       usage_instructions := usage_instructions formData;
                       price := price formData; stock_count := stock_count formData;
                       image_url := publicUrl |},
               [toast_success (js "Image uploaded successfully")])
      end
  end.

End ImageInput.

End ProductsManagement.

(* ================================================================== *)
(** * More sample data                                                  *)
(* ================================================================== *)

Module Scenes.
Import BlogsManagement Sample.

(** A form with a content, two pictures and a clip staged. *)
Definition staged_post : Editor :=
  {| title := js " Morning routine "; content := js "Drink warm water."; publish := true;
     editingBlog := None; existingMedia := [];
     newFiles := [png "a.png"; png "b.png"; mp4 "c.mp4"] |}.

(** A form whose content is white space only. *)
Definition blank_post : Editor :=
  {| title := js "Tips"; content := [32%Z; 10%Z; 9%Z; 160%Z]; publish := true;
     editingBlog := None; existingMedia := []; newFiles := [png "a.png"] |}.

(** A form with four pictures staged. *)
Definition full_post : Editor :=
  {| title := js "Tips"; content := js "Drink warm water."; publish := true;
     editingBlog := None; existingMedia := [image_at "1"];
     newFiles := [png "a.png"; mp4 "c.mp4"; png "b.png"; png "d.png"] |}.

Definition listed (id : string) : Blog :=
  {| b_id := js id; b_title := js "Post"; b_content := js "Body"; b_excerpt := None;
     b_media := None; b_is_published := true; b_created_at := js "2025-01-01";
     b_author_id := js "admin" |}.

(** A form editing post 1, with one saved picture and one clip staged. *)
Definition edited_post : Editor :=
  {| title := js "New title"; content := js "New body"; publish := false;
     editingBlog := Some (listed "1"); existingMedia := [image_at "old"];
     newFiles := [mp4 "c.mp4"] |}.

(** A form editing post 1, with a blank title and a long content. *)
Definition long_edit : Editor :=
  {| title := js "  "; content := repeat 97%Z 200; publish := true;
     editingBlog := Some (listed "1"); existingMedia := []; newFiles := [] |}.

Definition engine_message (e : JSError) : jsstring := js "engine error".

Definition a_form : ProductsManagement.FormData :=
  {| ProductsManagement.name := js "Oil"; ProductsManagement.description := js "Hair oil";
     ProductsManagement.benefits := []; ProductsManagement.ingredients := [];
     ProductsManagement.usage_instructions := []; ProductsManagement.price := js "10";
     ProductsManagement.stock_count := js "3"; ProductsManagement.image_url := [] |}.

Definition no_images : ProductsManagement.Images :=
  {| ProductsManagement.objects := []; ProductsManagement.upload_outcomes := [] |}.

End Scenes.

(* ================================================================== *)
(** * Properties: texts                                                 *)
(* ================================================================== *)

Module TextFacts.

Lemma startsWith_app (p rest : jsstring) : startsWith (p ++ rest) p = true.
Proof.
  induction p as [|c p IH]; simpl; [reflexivity|].
  now rewrite Z.eqb_refl, IH.
Qed.

Lemma startsWith_split (s p : jsstring) :
  startsWith s p = true -> exists rest, s = p ++ rest.
Proof.
  revert s; induction p as [|c p IH]; intros s H.
  - now exists s.
  - destruct s as [|d s]; simpl in H; [discriminate|].
    apply andb_prop in H as [Hc Hs]. apply Z.eqb_eq in Hc; subst d.
    destruct (IH _ Hs) as [rest ->]. now exists rest.
Qed.

Lemma startsWith_iff (s p : jsstring) :
  startsWith s p = true <-> exists rest, s = p ++ rest.
Proof.
  split; [apply startsWith_split|].
  intros [rest ->]. apply startsWith_app.
Qed.

Lemma includesb_sound (s sub : jsstring) : includesb s sub = true -> includes s sub.
Proof.
  induction s as [|c s IH]; simpl; intros H.
  - rewrite orb_false_r in H. apply startsWith_split in H as [rest E].
    exists [], rest. exact E.
  - apply orb_prop in H as [H|H].
    + apply startsWith_split in H as [rest E]. exists [], rest. exact E.
    + destruct (IH H) as (pre & post & E). exists (c :: pre), post. now rewrite E.
Qed.

Lemma includesb_start (s sub : jsstring) : startsWith s sub = true -> includesb s sub = true.
Proof. intros H. destruct s; simpl; now rewrite H. Qed.

Lemma includesb_complete (s sub : jsstring) : includes s sub -> includesb s sub = true.
Proof.
  intros (pre & post & E). subst s.
  induction pre as [|c pre IH]; simpl.
  - apply includesb_start, startsWith_app.
  - rewrite IH. apply orb_true_r.
Qed.

Lemma includes_iff (s sub : jsstring) : includes s sub <-> includesb s sub = true.
Proof. split; [apply includesb_complete | apply includesb_sound]. Qed.

Lemma includes_here (pre sub post : jsstring) : includes (pre ++ sub ++ post) sub.
Proof. now exists pre, post. Qed.

Lemma includes_app_l (s t sub : jsstring) : includes s sub -> includes (s ++ t) sub.
Proof.
  intros (pre & post & ->). exists pre, (post ++ t). now rewrite <- !app_assoc.
Qed.

Lemma includes_app_r (s t sub : jsstring) : includes t sub -> includes (s ++ t) sub.
Proof.
  intros (pre & post & ->). exists (s ++ pre), post. now rewrite <- !app_assoc.
Qed.

End TextFacts.
Import TextFacts.

(* ================================================================== *)
(** * Properties: safe media parsing                                    *)
(* ================================================================== *)

Module MediaParserFacts.

Section AnyDecoder.

Variable JSON_parse : jsstring -> completion JSValue.

Lemma parseMedia_array (items : list JSValue) :
  parseMedia JSON_parse (JSArray items) = Normal (JSArray items).
Proof. reflexivity. Qed.

Lemma parseMedia_text (text : jsstring) :
  parseMedia JSON_parse (JSString text) =
  match JSON_parse text with
  | Normal v => Normal v
  | Throw _ => Normal (JSArray [])
  end.
Proof. reflexivity. Qed.

Lemma parseMedia_other (cell : JSValue) :
  Array_isArray cell = false ->
  (forall text, cell <> JSString text) ->
  parseMedia JSON_parse cell = Normal (JSArray []).
Proof.
  intros Ha Hs. destruct cell; try reflexivity; try discriminate.
  now destruct (Hs s).
Qed.

Lemma parseMedia_never_throws (cell : JSValue) :
  exists media, parseMedia JSON_parse cell = Normal media.
Proof.
  unfold parseMedia. destruct (try_media JSON_parse cell) as [media|e]; eauto.
Qed.

(** What the parser does keep of its contract: a list passes through,
    a text that decodes to a list gives that list, a text that fails to
    decode and a cell that is neither a list nor a text give the empty
    list, and no input makes it throw. *)
Lemma parseMedia_contract_on_lists :
  (forall items, parseMedia JSON_parse (JSArray items) = Normal (JSArray items))
  /\ (forall text items, JSON_parse text = Normal (JSArray items) ->
        parseMedia JSON_parse (JSString text) = Normal (JSArray items))
  /\ (forall text e, JSON_parse text = Throw e ->
        parseMedia JSON_parse (JSString text) = Normal (JSArray []))
  /\ (forall cell, Array_isArray cell = false -> (forall text, cell <> JSString text) ->
        parseMedia JSON_parse cell = Normal (JSArray []))
  /\ (forall cell, exists media, parseMedia JSON_parse cell = Normal media).
Proof.
  repeat split.
  - intros text items H. now rewrite parseMedia_text, H.
  - intros text e H. now rewrite parseMedia_text, H.
  - apply parseMedia_other.
  - apply parseMedia_never_throws.
Qed.

(** A text that decodes to something other than a list comes back as
    that value: the result is then no list at all. *)
Lemma parseMedia_decoded_as_is (text : jsstring) (v : JSValue) :
  JSON_parse text = Normal v ->
  parseMedia JSON_parse (JSString text) = Normal v.
Proof. intros H. now rewrite parseMedia_text, H. Qed.

Lemma card_media_needs_a_list (cell v : JSValue) :
  parseMedia JSON_parse cell = Normal v ->
  Array_isArray v = false ->
  BlogPage.card_media JSON_parse cell = Throw TypeError.
Proof.
  intros H Hv. unfold BlogPage.card_media. rewrite H. simpl.
  destruct v; try reflexivity; discriminate.
Qed.

End AnyDecoder.

(** The rows of the admin query come back each with a parsed media
    value: parsing never makes the query throw. *)
Lemma parse_rows_never_throws (JSON_parse : jsstring -> completion JSValue)
      (data : list BlogRow) :
  exists parsed,
    BlogsManagement.parse_rows JSON_parse data = Normal parsed /\ map fst parsed = data.
Proof.
  induction data as [|b data (parsed & Hp & Hm)]; [now exists []|].
  destruct (parseMedia_never_throws JSON_parse (row_media b)) as [media Hmedia].
  exists ((b, media) :: parsed). cbn [BlogsManagement.parse_rows].
  rewrite Hmedia, Hp. cbn. now rewrite Hm.
Qed.

(** So the admin query throws the store's error or returns every row,
    newest first, with its parsed media. *)
Lemma admin_query_cases (JSON_parse : jsstring -> completion JSValue) (s : state) :
  (exists e rest,
     outcomes s = Some e :: rest /\ fst (BlogsManagement.queryFn JSON_parse s) = Throw e)
  \/ (exists parsed,
        fst (BlogsManagement.queryFn JSON_parse s) = Normal parsed
        /\ map fst parsed = order_created_at_desc (blogs s)).
Proof.
  destruct s as [bk bl [|[e|] oc] rd].
  - right. destruct (parse_rows_never_throws JSON_parse (order_created_at_desc bl))
      as (parsed & Hp & Hm).
    exists parsed. unfold BlogsManagement.queryFn, mbind, blogs_select.
    cbn -[order_created_at_desc BlogsManagement.parse_rows]. now rewrite Hp.
  - left. now exists e, oc.
  - right. destruct (parse_rows_never_throws JSON_parse (order_created_at_desc bl))
      as (parsed & Hp & Hm).
    exists parsed. unfold BlogsManagement.queryFn, mbind, blogs_select.
    cbn -[order_created_at_desc BlogsManagement.parse_rows]. now rewrite Hp.
Qed.

(** A saved media list, as a list and as its JSON text, parses to the
    same list; a text cut short parses to the empty list. *)
Example parseMedia_of_saved_media :
  let quote := [34%Z] in
  let text := js "[{" ++ quote ++ js "type" ++ quote ++ js ":" ++ quote ++ js "image" ++ quote
              ++ js "," ++ quote ++ js "url" ++ quote ++ js ":" ++ quote ++ js "u" ++ quote
              ++ js "}]" in
  let saved := BlogsManagement.media_cell [Sample.image_at "u"] in
  parseMedia JsonText.decode saved = Normal saved
  /\ parseMedia JsonText.decode (JSString text) = Normal saved
  /\ parseMedia JsonText.decode (JSString (firstn 20 text)) = Normal (JSArray [])
  /\ parseMedia JsonText.decode JSNull = Normal (JSArray []).
Proof. vm_compute. repeat split. Qed.

(** C1, at the cell holding the two-character text of an empty JSON
    object: the parser hands back the decoded object, which is no list
    and not the empty list, and the card of the public page, which
    filters what the parser returned, throws. *)
Theorem parseMedia_leaks_decoded_non_list :
  let cell := JSString (js "{}") in
  JsonText.decode (js "{}") = Normal (JSObject [])
  /\ parseMedia JsonText.decode cell = Normal (JSObject [])
  /\ parseMedia JsonText.decode cell <> Normal (JSArray [])
  /\ BlogPage.card_media JsonText.decode cell = Throw TypeError.
Proof.
  intros cell.
  assert (D : JsonText.decode (js "{}") = Normal (JSObject [])) by (vm_compute; reflexivity).
  assert (P : parseMedia JsonText.decode cell = Normal (JSObject [])).
  { unfold cell. now apply parseMedia_decoded_as_is. }
  split; [exact D|]. split; [exact P|]. split.
  - rewrite P. discriminate.
  - now apply card_media_needs_a_list with (v := JSObject []).
Qed.

End MediaParserFacts.

(* ================================================================== *)
(** * Properties: upload and classification                             *)
(* ================================================================== *)

Module UploadFacts.
Import BlogsManagement Sample.

Section Batch.

Variable user : option User.
Variable Date_now : nat -> Z.
Variable Math_random_toString36 : nat -> jsstring.
Variable getPublicUrl : jsstring -> jsstring.

Local Abbreviation loop := (upload_loop user Date_now Math_random_toString36 getPublicUrl).
Local Abbreviation upload := (uploadFiles user Date_now Math_random_toString36 getPublicUrl).
Local Abbreviation items := (uploaded_items user Date_now Math_random_toString36 getPublicUrl).
Local Abbreviation objects := (stored_objects user Date_now Math_random_toString36).

Lemma uploadFiles_is_loop (files : list File) (s : state) :
  upload files s = loop files [] s.
Proof. destruct files; reflexivity. Qed.

(** One turn of the loop whose upload succeeds. *)
Lemma loop_turn_ok file rest uploaded bk bl oc rd :
  hd None oc = None ->
  loop (file :: rest) uploaded
       {| bucket := bk; blogs := bl; outcomes := oc; readings := rd |}
  = loop rest (uploaded ++ items rd [file])
         {| bucket := bk ++ objects rd [file]; blogs := bl;
            outcomes := tl oc; readings := S rd |}.
Proof.
  intros H. destruct oc as [|o oc]; simpl in H; [|subst o]; reflexivity.
Qed.

(** One turn of the loop whose upload fails. *)
Lemma loop_turn_fail file rest uploaded bk bl oc rd e :
  loop (file :: rest) uploaded
       {| bucket := bk; blogs := bl; outcomes := Some e :: oc; readings := rd |}
  = (Throw e, {| bucket := bk; blogs := bl; outcomes := oc; readings := S rd |}).
Proof. reflexivity. Qed.

Lemma loop_all_ok (files : list File) :
  forall uploaded s,
    Forall (eq None) (firstn (List.length files) (outcomes s)) ->
    loop files uploaded s
    = (Normal (uploaded ++ items (readings s) files),
       {| bucket := bucket s ++ objects (readings s) files; blogs := blogs s;
          outcomes := skipn (List.length files) (outcomes s);
          readings := readings s + List.length files |}).
Proof.
  induction files as [|file rest IH]; intros uploaded [bk bl oc rd] H; simpl in H.
  - cbn. now rewrite !app_nil_r, Nat.add_0_r.
  - rewrite loop_turn_ok.
    + rewrite IH; cbn [bucket blogs outcomes readings].
      * cbn. rewrite <- !app_assoc. cbn.
        replace (rd + S (List.length rest)) with (S (rd + List.length rest)) by lia.
        destruct oc; cbn; rewrite ?skipn_nil; reflexivity.
      * destruct oc as [|o oc]; cbn in *; [destruct (List.length rest); constructor|].
        now inversion H.
    + destruct oc as [|o oc]; [reflexivity|]. now inversion H.
Qed.

Lemma loop_fails_at (files : list File) :
  forall k uploaded s e rest,
    outcomes s = repeat None k ++ Some e :: rest ->
    k < List.length files ->
    loop files uploaded s
    = (Throw e,
       {| bucket := bucket s ++ objects (readings s) (firstn k files); blogs := blogs s;
          outcomes := rest; readings := readings s + S k |}).
Proof.
  induction files as [|file files IH]; intros k uploaded [bk bl oc rd] e rest Ho Hk;
    simpl in Hk; [lia|]. cbn in Ho. subst oc.
  destruct k as [|k]; cbn [repeat app].
  - rewrite loop_turn_fail. cbn. now rewrite app_nil_r, Nat.add_1_r.
  - rewrite loop_turn_ok by reflexivity. cbn [tl].
    rewrite (IH k _ _ e rest) by (cbn; first [reflexivity | lia]).
    cbn. rewrite <- app_assoc. cbn.
    now replace (rd + S (S k)) with (S (rd + S k)) by lia.
Qed.

(** Whatever the outcomes, a batch that returns has returned the items
    of all its files, and no batch touches the table. *)
Lemma loop_inv (files : list File) :
  forall uploaded s,
    blogs (snd (loop files uploaded s)) = blogs s
    /\ forall result, fst (loop files uploaded s) = Normal result ->
         result = uploaded ++ items (readings s) files.
Proof.
  induction files as [|file files IH]; intros uploaded [bk bl oc rd].
  - cbn. split; [reflexivity|]. intros r [= <-]. now rewrite app_nil_r.
  - destruct oc as [|[e|] oc].
    + rewrite loop_turn_ok by reflexivity.
      destruct (IH (uploaded ++ items rd [file])
                  {| bucket := bk ++ objects rd [file]; blogs := bl;
                     outcomes := tl []; readings := S rd |}) as [Hb Hr].
      split; [exact Hb|]. intros r Hn. rewrite (Hr r Hn). cbn. now rewrite <- app_assoc.
    + rewrite loop_turn_fail. cbn. split; [reflexivity | discriminate].
    + rewrite loop_turn_ok by reflexivity.
      destruct (IH (uploaded ++ items rd [file])
                  {| bucket := bk ++ objects rd [file]; blogs := bl;
                     outcomes := tl (None :: oc); readings := S rd |}) as [Hb Hr].
      split; [exact Hb|]. intros r Hn. rewrite (Hr r Hn). cbn. now rewrite <- app_assoc.
Qed.

Lemma items_length n (files : list File) : List.length (items n files) = List.length files.
Proof. revert n; induction files; intros n; simpl; [|rewrite IHfiles]; reflexivity. Qed.

Lemma items_types n (files : list File) :
  map media_type (items n files) = map (fun f => classify (file_type f)) files.
Proof. revert n; induction files; intros n; simpl; [|rewrite IHfiles]; reflexivity. Qed.

Lemma objects_files n (files : list File) : map snd (objects n files) = files.
Proof. revert n; induction files; intros n; simpl; [|rewrite IHfiles]; reflexivity. Qed.

Lemma items_nth (files : list File) :
  forall n i file,
    nth_error files i = Some file ->
    nth_error (items n files) i
    = Some {| media_type := classify (file_type file);
              media_url := getPublicUrl (storage_path user Date_now Math_random_toString36
                                                      (n + i) file) |}.
Proof.
  induction files as [|f files IH]; intros n i file H; destruct i as [|i]; try discriminate.
  - cbn in *. injection H as ->. now rewrite Nat.add_0_r.
  - cbn in *. rewrite (IH (S n) i file H). do 4 f_equal. lia.
Qed.

(** C6. Files are uploaded one after the other in selection order.
    When every upload succeeds the batch returns one media item per
    file, in the same order, and the bucket has gained exactly those
    files in that order.  When the upload of the file at position [k]
    fails with [e] (those before it having succeeded), the batch throws
    that very [e], the bucket has gained the [k] files before it and
    nothing after, and exactly [k + 1] calls were made: no later file
    is tried, none is retried, and no partial list is returned. *)
Theorem uploadFiles_sequential_all_or_error (files : list File) (s : state) :
  (Forall (eq None) (firstn (List.length files) (outcomes s)) ->
     exists s',
       upload files s = (Normal (items (readings s) files), s')
       /\ List.length (items (readings s) files) = List.length files
       /\ (forall i file, nth_error files i = Some file ->
             nth_error (items (readings s) files) i
             = Some {| media_type := classify (file_type file);
                       media_url := getPublicUrl
                         (storage_path user Date_now Math_random_toString36
                                       (readings s + i) file) |})
       /\ bucket s' = bucket s ++ objects (readings s) files
       /\ map snd (objects (readings s) files) = files
       /\ outcomes s' = skipn (List.length files) (outcomes s))
  /\ (forall k e rest,
        outcomes s = repeat None k ++ Some e :: rest ->
        k < List.length files ->
        exists s',
          upload files s = (Throw e, s')
          /\ bucket s' = bucket s ++ objects (readings s) (firstn k files)
          /\ map snd (objects (readings s) (firstn k files)) = firstn k files
          /\ outcomes s' = rest).
Proof.
  split.
  - intros Hok. rewrite uploadFiles_is_loop, (loop_all_ok files [] s Hok).
    eexists; split; [reflexivity|].
    split; [apply items_length|].
    split; [intros i file Hi; now apply items_nth|].
    cbn. split; [reflexivity|]. split; [apply objects_files | reflexivity].
  - intros k e rest Ho Hk.
    rewrite uploadFiles_is_loop, (loop_fails_at files k [] s e rest Ho Hk).
    eexists; split; [reflexivity|]. cbn.
    split; [reflexivity|]. split; [apply objects_files | reflexivity].
Qed.

(** C7. The type of an uploaded file's media item is decided by the
    file's declared MIME type alone: [video] when it begins with
    [video/], [audio] when it begins with [audio/], and [image] for
    every other type, the empty one included; whatever the file's
    name, the user, the clock or the store, the items a batch returns
    carry the classification of their files' types. *)
Theorem classify_by_mime_prefix :
  (forall rest, classify (js "video/" ++ rest) = video)
  /\ (forall rest, classify (js "audio/" ++ rest) = audio)
  /\ (forall mime,
        (forall rest, mime <> js "video/" ++ rest) ->
        (forall rest, mime <> js "audio/" ++ rest) ->
        classify mime = image)
  /\ classify [] = image
  /\ (forall files s result,
        fst (upload files s) = Normal result ->
        map media_type result = map (fun f => classify (file_type f)) files).
Proof.
  split; [|split; [|split; [|split]]].
  - intros rest. unfold classify. now rewrite startsWith_app.
  - intros rest. unfold classify. rewrite startsWith_app.
    now destruct (startsWith (js "audio/" ++ rest) (js "video/")) eqn:E.
  - intros mime Hv Ha. unfold classify.
    destruct (startsWith mime (js "video/")) eqn:Ev.
    { apply startsWith_split in Ev as [rest E]. now destruct (Hv rest). }
    destruct (startsWith mime (js "audio/")) eqn:Ea; [|reflexivity].
    apply startsWith_split in Ea as [rest E]. now destruct (Ha rest).
  - reflexivity.
  - intros files s result H. rewrite uploadFiles_is_loop in H.
    rewrite (proj2 (loop_inv files [] s) result H). apply items_types.
Qed.

End Batch.

(** The second of three uploads fails: the error comes out as it is,
    one file is in the bucket, and the third was never tried. *)
Lemma uploadFiles_second_fails :
  exists s',
    uploadFiles admin clock random36 public_url [png "a.png"; mp4 "b.mp4"; mp3 "c.mp3"]
                (empty_store [None; Some store_failure; None])
    = (Throw store_failure, s')
    /\ bucket s'
       = [] ++ stored_objects admin clock random36 0 (firstn 1 [png "a.png"; mp4 "b.mp4"; mp3 "c.mp3"])
    /\ map snd (stored_objects admin clock random36 0
                               (firstn 1 [png "a.png"; mp4 "b.mp4"; mp3 "c.mp3"]))
       = firstn 1 [png "a.png"; mp4 "b.mp4"; mp3 "c.mp3"]
    /\ outcomes s' = [None].
Proof.
  apply (proj2 (uploadFiles_sequential_all_or_error admin clock random36 public_url
                  [png "a.png"; mp4 "b.mp4"; mp3 "c.mp3"]
                  (empty_store [None; Some store_failure; None]))
               1 store_failure [None]).
  - reflexivity.
  - simpl. lia.
Defined.

(** A batch of three files of three kinds, all stored: three items, of
    the kinds of their files. *)
Lemma classify_batch_example :
  map media_type
      (uploaded_items admin clock random36 public_url 0
                      [png "a.png"; mp4 "b.mp4"; untyped "notes"])
  = map (fun f => classify (file_type f)) [png "a.png"; mp4 "b.mp4"; untyped "notes"].
Proof.
  apply (proj2 (proj2 (proj2 (proj2 (classify_by_mime_prefix admin clock random36 public_url))))
               [png "a.png"; mp4 "b.mp4"; untyped "notes"] (empty_store [])).
  vm_compute. reflexivity.
Defined.

End UploadFacts.

(* ================================================================== *)
(** * Properties: the editor's mutations                                *)
(* ================================================================== *)

Module EditorFacts.
Import BlogsManagement Sample.

Lemma excerpt_of_rule (content : jsstring) : excerpt_rule content (excerpt_of content).
Proof.
  unfold excerpt_rule, excerpt_of, slice0.
  destruct (Nat.ltb_spec 150 (List.length content)); split; intros; trivial; lia.
Qed.

Lemma title_of_rule (title content : jsstring) : title_rule title content (title_of title content).
Proof.
  unfold title_rule, title_of, slice0.
  generalize (firstn 60 content) as head; intros head.
  destruct (trim title) as [|c t]; destruct head as [|h head]; cbn [or_str];
    (split; [|split]); intros H1; try intros H2;
    first [reflexivity | discriminate | now destruct H1 | now destruct H2].
Qed.

Lemma excerpt_of_length (content : jsstring) : List.length (excerpt_of content) <= 153.
Proof.
  unfold excerpt_of, slice0. destruct (Nat.ltb_spec 150 (List.length content)); [|lia].
  rewrite length_app, length_firstn. change (List.length (js "...")) with 3. lia.
Qed.

Section Mutations.

Variable Date_now : nat -> Z.
Variable Math_random_toString36 : nat -> jsstring.
Variable getPublicUrl : jsstring -> jsstring.
Variable new_blog_id : state -> jsstring.
Variable new_created_at : state -> jsstring.

Local Abbreviation upload user := (uploadFiles user Date_now Math_random_toString36 getPublicUrl).
Local Abbreviation create user :=
  (createBlogMutation user Date_now Math_random_toString36 getPublicUrl new_blog_id new_created_at).
Local Abbreviation update user :=
  (updateBlogMutation user Date_now Math_random_toString36 getPublicUrl).

Lemma upload_keeps_blogs user (files : list File) (s : state) :
  blogs (snd (upload user files s)) = blogs s.
Proof.
  rewrite UploadFacts.uploadFiles_is_loop. apply UploadFacts.loop_inv.
Qed.

(** The table after an insert: as before, or one more row, built from
    the payload. *)
Lemma blogs_insert_cases (p : Payload) (s : state) :
  (exists e, fst (blogs_insert new_blog_id new_created_at p s) = Normal (Some e)
             /\ blogs (snd (blogs_insert new_blog_id new_created_at p s)) = blogs s)
  \/ (exists row,
        fst (blogs_insert new_blog_id new_created_at p s) = Normal None
        /\ blogs (snd (blogs_insert new_blog_id new_created_at p s)) = blogs s ++ [row]
        /\ row_title row = p_title p
        /\ row_excerpt row = Some (p_excerpt p)
        /\ row_content row = p_content p
        /\ row_media row = media_cell (p_media p)).
Proof.
  destruct s as [bk bl [|[e|] oc] rd]; cbn.
  - right. eexists. repeat split.
  - left. exists e. now split.
  - right. eexists. repeat split.
Qed.

Lemma blogs_update_cases (p : Payload) (id : jsstring) (s : state) :
  (exists e, fst (blogs_update p id s) = Normal (Some e)
             /\ blogs (snd (blogs_update p id s)) = blogs s)
  \/ (fst (blogs_update p id s) = Normal None
      /\ blogs (snd (blogs_update p id s)) = map (apply_update p id) (blogs s)).
Proof.
  destruct s as [bk bl [|[e|] oc] rd]; cbn.
  - right. now split.
  - left. exists e. now split.
  - right. now split.
Qed.

Lemma create_stores_by_rule user (ed : Editor) (s : state) :
  blogs (snd (create user ed s)) = blogs s
  \/ exists row,
       fst (create user ed s) = Normal tt
       /\ blogs (snd (create user ed s)) = blogs s ++ [row]
       /\ row_content row = content ed
       /\ (exists excerpt, row_excerpt row = Some excerpt /\ excerpt_rule (content ed) excerpt)
       /\ title_rule (title ed) (content ed) (row_title row).
Proof.
  unfold createBlogMutation. destruct user as [u|]; [|now left].
  destruct (trim (content ed)) as [|c t] eqn:Et; [now left|].
  unfold mbind. pose proof (upload_keeps_blogs (Some u) (newFiles ed) s) as Hb.
  destruct (upload (Some u) (newFiles ed) s) as [[uploaded|e] s1]; cbn [snd] in Hb; [|left; exact Hb].
  match goal with |- context [blogs_insert _ _ ?p s1] =>
    destruct (blogs_insert_cases p s1) as [(e & Hf & Hs)|(row & Hf & Hs & Ht & He & Hc & _)];
    destruct (blogs_insert new_blog_id new_created_at p s1) as [r s2]
  end; cbn [fst snd] in *; subst r; cbn.
  - left. congruence.
  - right. exists row. rewrite Hs, Hb, Ht, Hc. cbn.
    repeat split; trivial; try apply title_of_rule.
    exists (excerpt_of (content ed)). split; [exact He | apply excerpt_of_rule].
Qed.

Lemma update_stores_by_rule user (ed : Editor) (s : state) :
  blogs (snd (update user ed s)) = blogs s
  \/ exists blog p,
       editingBlog ed = Some blog
       /\ fst (update user ed s) = Normal tt
       /\ blogs (snd (update user ed s)) = map (apply_update p (b_id blog)) (blogs s)
       /\ p_content p = content ed
       /\ excerpt_rule (content ed) (p_excerpt p)
       /\ title_rule (title ed) (content ed) (p_title p).
Proof.
  unfold updateBlogMutation. destruct (editingBlog ed) as [blog|]; [|now left].
  destruct (trim (content ed)) as [|c t] eqn:Et; [now left|].
  unfold mbind. pose proof (upload_keeps_blogs user (newFiles ed) s) as Hb.
  destruct (upload user (newFiles ed) s) as [[uploaded|e] s1]; cbn [snd] in Hb; [|left; exact Hb].
  match goal with |- context [blogs_update ?p ?id s1] =>
    destruct (blogs_update_cases p id s1) as [(e & Hf & Hs)|(Hf & Hs)];
    destruct (blogs_update p id s1) as [r s2] eqn:Eu
  end; cbn [fst snd] in *; subst r; cbn.
  - left. congruence.
  - right. eexists blog, _. rewrite Hs, Hb.
    split; [reflexivity|]. split; [reflexivity|]. split; [reflexivity|]. cbn.
    split; [reflexivity|]. split; [apply excerpt_of_rule | apply title_of_rule].
Qed.

(** An updated row carries the payload's title and excerpt; a row with
    another identifier is left as it was. *)
Lemma apply_update_row (p : Payload) (id : jsstring) (row : BlogRow) :
  (str_eqb (row_id row) id = true ->
     row_title (apply_update p id row) = p_title p
     /\ row_excerpt (apply_update p id row) = Some (p_excerpt p))
  /\ (str_eqb (row_id row) id = false -> apply_update p id row = row).
Proof. unfold apply_update. destruct (str_eqb (row_id row) id); split; intros; try discriminate; auto. Qed.

Lemma all_ok_split (n : nat) :
  forall script : list (option JSError),
    Forall (eq None) (firstn (S n) script) ->
    Forall (eq None) (firstn n script) /\ hd None (skipn n script) = None.
Proof.
  induction n as [|n IH]; intros script H.
  - destruct script as [|o script]; cbn in *; split; try constructor; try reflexivity.
    now inversion H.
  - destruct script as [|o script]; [split; [constructor | reflexivity]|].
    change (firstn (S (S n)) (o :: script)) with (o :: firstn (S n) script) in H.
    inversion H as [|? ? Ho Hrest]; subst.
    destruct (IH script Hrest) as [Hf Hh].
    split; [cbn; constructor; trivial | exact Hh].
Qed.

(** With a signed-in user, a content that is not blank, and every call
    of the mutation succeeding, the create goes through and adds its
    row. *)
Lemma create_succeeds u (ed : Editor) (s : state) :
  trim (content ed) <> [] ->
  Forall (eq None) (firstn (S (List.length (newFiles ed))) (outcomes s)) ->
  fst (create (Some u) ed s) = Normal tt
  /\ exists row, blogs (snd (create (Some u) ed s)) = blogs s ++ [row].
Proof.
  intros Hc Hok. apply all_ok_split in Hok as [Hup Hins].
  unfold createBlogMutation. destruct (trim (content ed)) as [|c t]; [now destruct Hc|].
  unfold mbind. rewrite UploadFacts.uploadFiles_is_loop, UploadFacts.loop_all_ok by exact Hup.
  unfold blogs_insert, next_outcome. cbn [outcomes].
  destruct (skipn (List.length (newFiles ed)) (outcomes s)) as [|o rest]; cbn in *.
  - split; [reflexivity | eexists; reflexivity].
  - subst o. cbn. split; [reflexivity | eexists; reflexivity].
Qed.

Lemma str_eqb_true (a b : jsstring) : str_eqb a b = true <-> a = b.
Proof.
  revert b; induction a as [|x a IH]; intros [|y b]; cbn; split; intros H;
    try discriminate; try reflexivity.
  - apply andb_true_iff in H as [Hx Hr]. apply Z.eqb_eq in Hx. apply IH in Hr. congruence.
  - injection H as -> ->. rewrite Z.eqb_refl. now apply IH.
Qed.

(** The course of a create: it throws and the table is as it was, or it
    passed its guards, returns, and added one row built by the two
    payload expressions. *)
Lemma create_cases user (ed : Editor) (s : state) :
  (exists e, fst (create user ed s) = Throw e /\ blogs (snd (create user ed s)) = blogs s)
  \/ (exists row,
        trim (content ed) <> []
        /\ fst (create user ed s) = Normal tt
        /\ blogs (snd (create user ed s)) = blogs s ++ [row]
        /\ row_content row = content ed
        /\ row_excerpt row = Some (excerpt_of (content ed))
        /\ row_title row = title_of (title ed) (content ed)).
Proof.
  unfold createBlogMutation. destruct user as [u|]; [|left; eexists; now split].
  destruct (trim (content ed)) as [|c t] eqn:Et; [left; eexists; now split|].
  unfold mbind. pose proof (upload_keeps_blogs (Some u) (newFiles ed) s) as Hb.
  destruct (upload (Some u) (newFiles ed) s) as [[uploaded|e] s1]; cbn [snd] in Hb;
    [|left; exists e; now split].
  match goal with |- context [blogs_insert _ _ ?p s1] =>
    destruct (blogs_insert_cases p s1) as [(e & Hf & Hs)|(row & Hf & Hs & Ht & He & Hc & _)];
    destruct (blogs_insert new_blog_id new_created_at p s1) as [r s2]
  end; cbn [fst snd] in *; subst r; cbn.
  - left. exists e. split; [reflexivity | congruence].
  - right. exists row. rewrite Hs, Hb, Ht, Hc, He. cbn.
    split; [discriminate|]. repeat split.
Qed.

(** The course of an update, likewise. *)
Lemma update_cases user (ed : Editor) (s : state) :
  (exists e, fst (update user ed s) = Throw e /\ blogs (snd (update user ed s)) = blogs s)
  \/ (exists blog p,
        editingBlog ed = Some blog
        /\ trim (content ed) <> []
        /\ fst (update user ed s) = Normal tt
        /\ blogs (snd (update user ed s)) = map (apply_update p (b_id blog)) (blogs s)
        /\ p_content p = content ed
        /\ p_excerpt p = excerpt_of (content ed)
        /\ p_title p = title_of (title ed) (content ed)).
Proof.
  unfold updateBlogMutation. destruct (editingBlog ed) as [blog|]; [|left; eexists; now split].
  destruct (trim (content ed)) as [|c t] eqn:Et; [left; eexists; now split|].
  unfold mbind. pose proof (upload_keeps_blogs user (newFiles ed) s) as Hb.
  destruct (upload user (newFiles ed) s) as [[uploaded|e] s1]; cbn [snd] in Hb;
    [|left; exists e; now split].
  match goal with |- context [blogs_update ?p ?id s1] =>
    destruct (blogs_update_cases p id s1) as [(e & Hf & Hs)|(Hf & Hs)];
    destruct (blogs_update p id s1) as [r s2] eqn:Eu
  end; cbn [fst snd] in *; subst r; cbn.
  - left. exists e. split; [reflexivity | congruence].
  - right. eexists blog, _. rewrite Hs, Hb.
    split; [reflexivity|]. split; [discriminate|]. repeat split.
Qed.

(** With a blog selected, a content that is not blank, and every call
    of the mutation succeeding, the update goes through. *)
Lemma update_succeeds user (blog : Blog) (ed : Editor) (s : state) :
  editingBlog ed = Some blog ->
  trim (content ed) <> [] ->
  Forall (eq None) (firstn (S (List.length (newFiles ed))) (outcomes s)) ->
  fst (update user ed s) = Normal tt.
Proof.
  intros He Hc Hok. apply all_ok_split in Hok as [Hup Hins].
  unfold updateBlogMutation. rewrite He.
  destruct (trim (content ed)) as [|c t]; [now destruct Hc|].
  unfold mbind. rewrite UploadFacts.uploadFiles_is_loop, UploadFacts.loop_all_ok by exact Hup.
  unfold blogs_update, next_outcome. cbn [outcomes].
  destruct (skipn (List.length (newFiles ed)) (outcomes s)) as [|o rest]; cbn in *.
  - reflexivity.
  - subst o. reflexivity.
Qed.

Lemma content_has_a_head (text : jsstring) : trim text <> [] -> firstn 60 text <> [].
Proof. destruct text; [intros H; now destruct H | intros _; cbn [firstn]; discriminate]. Qed.

(** C9. On create and on update alike, what is stored follows one rule.
    The excerpt is the first 150 code units of the content followed by
    three dots when the content is longer than 150, and the content
    itself otherwise.  The title is the trimmed entered title when that
    is not empty, else the first 60 code units of the content, else the
    text Untitled.

    A create by a signed-in user, and an update of a selected blog,
    with a content that is not blank and all of whose calls succeed,
    return.  A create that returns has added exactly one row, which
    carries the content, that excerpt and that title.  An update that
    returns has kept the number of rows, has given every row with the
    identifier of the edited blog the content, that excerpt and that
    title, and has left every other row as it was.  A create or an
    update that throws leaves the table as it was.

    Since neither mutation writes for a blank content, the first 60
    code units of the content of a stored row are never empty: the
    last alternative of the title, Untitled, is not taken for any row
    that is stored. *)
Theorem stored_excerpt_and_title_follow_one_rule user (ed : Editor) (s : state) :
  (forall u, user = Some u ->
     trim (content ed) <> [] ->
     Forall (eq None) (firstn (S (List.length (newFiles ed))) (outcomes s)) ->
     fst (create user ed s) = Normal tt)
  /\ (forall blog, editingBlog ed = Some blog ->
        trim (content ed) <> [] ->
        Forall (eq None) (firstn (S (List.length (newFiles ed))) (outcomes s)) ->
        fst (update user ed s) = Normal tt)
  /\ (fst (create user ed s) = Normal tt ->
        exists row excerpt,
          blogs (snd (create user ed s)) = blogs s ++ [row]
          /\ row_content row = content ed
          /\ row_excerpt row = Some excerpt
          /\ excerpt_rule (content ed) excerpt
          /\ title_rule (title ed) (content ed) (row_title row)
          /\ firstn 60 (content ed) <> [])
  /\ (fst (update user ed s) = Normal tt ->
        exists blog excerpt stored_title,
          editingBlog ed = Some blog
          /\ excerpt_rule (content ed) excerpt
          /\ title_rule (title ed) (content ed) stored_title
          /\ firstn 60 (content ed) <> []
          /\ List.length (blogs (snd (update user ed s))) = List.length (blogs s)
          /\ forall i row,
               nth_error (blogs s) i = Some row ->
               exists row',
                 nth_error (blogs (snd (update user ed s))) i = Some row'
                 /\ (row_id row = b_id blog ->
                       row_id row' = row_id row
                       /\ row_content row' = content ed
                       /\ row_excerpt row' = Some excerpt
                       /\ row_title row' = stored_title)
                 /\ (row_id row <> b_id blog -> row' = row))
  /\ (forall e, fst (create user ed s) = Throw e -> blogs (snd (create user ed s)) = blogs s)
  /\ (forall e, fst (update user ed s) = Throw e -> blogs (snd (update user ed s)) = blogs s).
Proof.
  split; [|split; [|split; [|split; [|split]]]].
  - intros u -> Hc Hok. now apply create_succeeds.
  - intros blog He Hc Hok. now apply (update_succeeds user blog).
  - intros Hn.
    destruct (create_cases user ed s)
      as [(e & Hf & _)|(row & Hc & _ & Hs & Hrc & Hre & Hrt)]; [congruence|].
    exists row, (excerpt_of (content ed)). rewrite Hrt.
    split; [exact Hs|]. split; [exact Hrc|]. split; [exact Hre|].
    split; [apply excerpt_of_rule|]. split; [apply title_of_rule|].
    now apply content_has_a_head.
  - intros Hn.
    destruct (update_cases user ed s)
      as [(e & Hf & _)|(blog & p & He & Hc & _ & Hs & Hpc & Hpe & Hpt)]; [congruence|].
    exists blog, (excerpt_of (content ed)), (title_of (title ed) (content ed)).
    split; [exact He|]. split; [apply excerpt_of_rule|]. split; [apply title_of_rule|].
    split; [now apply content_has_a_head|]. rewrite Hs.
    split; [apply length_map|].
    intros i row Hi. exists (apply_update p (b_id blog) row).
    split; [now rewrite nth_error_map, Hi|].
    unfold apply_update. destruct (str_eqb (row_id row) (b_id blog)) eqn:E.
    + cbn. rewrite Hpc, Hpe, Hpt. split; [now repeat split|].
      intros Hne. apply str_eqb_true in E. contradiction.
    + split; [|reflexivity]. intros Hid. apply str_eqb_true in Hid. congruence.
  - intros e Ht.
    destruct (create_cases user ed s) as [(e' & _ & Hs)|(row & _ & Hf & _)]; [exact Hs|congruence].
  - intros e Ht.
    destruct (update_cases user ed s)
      as [(e' & _ & Hs)|(blog & p & _ & _ & Hf & _)]; [exact Hs|congruence].
Qed.

End Mutations.

(** A post with a long content and a blank title, created on an empty
    store, and the same form saved over post 1 of the table of three
    posts: both mutations return; the row added, and the row of post 1,
    hold the rule's excerpt and title, and posts 2 and 3 are as they
    were. *)
Lemma long_post_create_and_update_example :
  fst (createBlogMutation admin clock random36 public_url row_ident row_stamp
                          long_post (empty_store [])) = Normal tt
  /\ fst (updateBlogMutation admin clock random36 public_url Scenes.long_edit three_posts) = Normal tt
  /\ (exists row excerpt,
        blogs (snd (createBlogMutation admin clock random36 public_url row_ident row_stamp
                                       long_post (empty_store [])))
        = blogs (empty_store []) ++ [row]
        /\ row_content row = content long_post
        /\ row_excerpt row = Some excerpt
        /\ excerpt_rule (content long_post) excerpt
        /\ title_rule (title long_post) (content long_post) (row_title row)
        /\ firstn 60 (content long_post) <> [])
  /\ (exists blog excerpt stored_title,
        editingBlog Scenes.long_edit = Some blog
        /\ excerpt_rule (content Scenes.long_edit) excerpt
        /\ title_rule (title Scenes.long_edit) (content Scenes.long_edit) stored_title
        /\ firstn 60 (content Scenes.long_edit) <> []
        /\ List.length (blogs (snd (updateBlogMutation admin clock random36 public_url
                                                       Scenes.long_edit three_posts)))
           = List.length (blogs three_posts)
        /\ forall i row,
             nth_error (blogs three_posts) i = Some row ->
             exists row',
               nth_error (blogs (snd (updateBlogMutation admin clock random36 public_url
                                                         Scenes.long_edit three_posts))) i = Some row'
               /\ (row_id row = b_id blog ->
                     row_id row' = row_id row
                     /\ row_content row' = content Scenes.long_edit
                     /\ row_excerpt row' = Some excerpt
                     /\ row_title row' = stored_title)
               /\ (row_id row <> b_id blog -> row' = row)).
Proof.
  pose proof (stored_excerpt_and_title_follow_one_rule
                clock random36 public_url row_ident row_stamp
                admin long_post (empty_store [])) as (Hcreate & _ & Hrow & _).
  pose proof (stored_excerpt_and_title_follow_one_rule
                clock random36 public_url row_ident row_stamp
                admin Scenes.long_edit three_posts) as (_ & Hupdate & _ & Hrows & _).
  split; [|split; [|split]].
  - apply (Hcreate {| user_id := js "admin" |});
      [reflexivity | vm_compute; discriminate | vm_compute; constructor].
  - apply (Hupdate (Scenes.listed "1"));
      [reflexivity | vm_compute; discriminate | vm_compute; constructor].
  - apply Hrow. reflexivity.
  - apply Hrows. reflexivity.
Defined.

Example create_long_post_row :
  map (fun row => (row_title row, row_excerpt row))
      (blogs (snd (createBlogMutation admin clock random36 public_url row_ident row_stamp
                              long_post (empty_store []))))
  = [(repeat 97%Z 60, Some (repeat 97%Z 150 ++ js "..."))].
Proof. vm_compute. reflexivity. Qed.

(** The table of three posts once the long content is saved over post 1:
    its row holds the first 60 code units as its title and the first
    150 and three dots as its excerpt; the rows of posts 2 and 3 hold
    what they held. *)
Example update_long_post_rows :
  map (fun row => (row_id row, row_title row, row_excerpt row))
      (blogs (snd (updateBlogMutation admin clock random36 public_url Scenes.long_edit three_posts)))
  = [(js "1", repeat 97%Z 60, Some (repeat 97%Z 150 ++ js "..."));
     (js "2", js "Post 2", None);
     (js "3", js "Post 3", None)].
Proof. vm_compute. reflexivity. Qed.

End EditorFacts.

(* ================================================================== *)
(** * Properties: file selection                                        *)
(* ================================================================== *)

Module SelectionFacts.
Import BlogsManagement Sample.

Lemma count_app {A} (p : A -> bool) (l l' : list A) :
  count p (l ++ l') = count p l + count p l'.
Proof. unfold count. now rewrite filter_app, length_app. Qed.

Section Loop.

Variable cur : nat.

Lemma turn_image_room f allowed rejected :
  is_image_file f = true -> cur + count is_image_file allowed < 4 ->
  select_file cur (allowed, rejected) f = (allowed ++ [f], rejected).
Proof.
  intros Hf Hlt. unfold select_file. rewrite Hf.
  now destruct (Nat.ltb_spec (cur + count is_image_file allowed) 4); [|lia].
Qed.

Lemma turn_image_full f allowed rejected :
  is_image_file f = true -> 4 <= cur + count is_image_file allowed ->
  select_file cur (allowed, rejected) f = (allowed, S rejected).
Proof.
  intros Hf Hge. unfold select_file. rewrite Hf.
  now destruct (Nat.ltb_spec (cur + count is_image_file allowed) 4); [lia|].
Qed.

Lemma turn_other f allowed rejected :
  is_image_file f = false ->
  select_file cur (allowed, rejected) f = (allowed ++ [f], rejected).
Proof. intros Hf. unfold select_file. now rewrite Hf. Qed.

Lemma filter_snoc {A} (p : A -> bool) (l : list A) (x : A) :
  filter p (l ++ [x]) = filter p l ++ (if p x then [x] else []).
Proof. rewrite filter_app. reflexivity. Qed.

(** The loop, from any [allowedFiles] and [rejectedImages]: images are
    taken while there is room, the others always, in selection order. *)
Lemma select_loop (files : list File) :
  forall allowed rejected,
    let room := 4 - (cur + count is_image_file allowed) in
    let r := fold_left (select_file cur) files (allowed, rejected) in
    filter is_image_file (fst r)
    = filter is_image_file allowed ++ firstn room (filter is_image_file files)
    /\ filter other_file (fst r) = filter other_file allowed ++ filter other_file files
    /\ snd r = rejected + (count is_image_file files - room).
Proof.
  induction files as [|f files IH]; intros allowed rejected; cbn zeta.
  - cbn. rewrite firstn_nil, !app_nil_r. repeat split. unfold count. cbn. lia.
  - cbn [fold_left]. unfold count in *.
    destruct (is_image_file f) eqn:Ef.
    + assert (Eo : other_file f = false) by (unfold other_file; now rewrite Ef).
      destruct (Nat.lt_ge_cases (cur + List.length (filter is_image_file allowed)) 4)
        as [Hlt|Hge].
      * rewrite turn_image_room by assumption.
        destruct (IH (allowed ++ [f]) rejected) as (Hi & Ho & Hr). rewrite Hi, Ho, Hr.
        rewrite !filter_snoc, Ef, Eo, app_nil_r, length_app.
        cbn [filter]. rewrite Ef, Eo. cbn [List.length].
        destruct (4 - (cur + List.length (filter is_image_file allowed))) as [|room] eqn:Er;
          [lia|].
        replace (4 - (cur + (List.length (filter is_image_file allowed) + 1))) with room by lia.
        cbn [firstn]. rewrite <- app_assoc. cbn [app]. repeat split; try lia.
      * rewrite turn_image_full by assumption.
        destruct (IH allowed (S rejected)) as (Hi & Ho & Hr). rewrite Hi, Ho, Hr.
        replace (4 - (cur + List.length (filter is_image_file allowed))) with 0 by lia.
        cbn [filter]. rewrite Ef, Eo. cbn [firstn List.length].
        repeat split; try lia.
    + assert (Eo : other_file f = true) by (unfold other_file; now rewrite Ef).
      rewrite turn_other by assumption.
      destruct (IH (allowed ++ [f]) rejected) as (Hi & Ho & Hr). rewrite Hi, Ho, Hr.
      rewrite !filter_snoc, Ef, Eo, app_nil_r, <- app_assoc.
      cbn [filter]. rewrite Ef, Eo. cbn [List.length app].
      repeat split.
Qed.

Lemma select_files_spec (files : list File) :
  let room := 4 - cur in
  filter is_image_file (fst (select_files cur files)) = firstn room (filter is_image_file files)
  /\ filter other_file (fst (select_files cur files)) = filter other_file files
  /\ snd (select_files cur files) = count is_image_file files - room.
Proof.
  cbn zeta. destruct (select_loop files [] 0) as (Hi & Ho & Hr).
  cbn in Hi, Ho, Hr. rewrite Nat.add_0_r in Hi, Hr. unfold select_files. auto.
Qed.

End Loop.

(** C2, as amended.  A selection event takes the selected images in
    order while the post has room for them (four, less the saved media
    of type image and the staged image files), drops the others, and
    takes every file that is not an image.  So the event adds at most
    as many images as there is room for: a post with at most four
    images before the event has at most four after it.  The staged
    list grows by the accepted files only, the saved media are left as
    they are, and the event raises one notice when at least one image
    was dropped and none otherwise.  With three saved images and two
    selected images, one is accepted, one is dropped, and one notice is
    raised. *)
Theorem selection_takes_images_while_room :
  (forall (files : list File) (ed : Editor),
     let room := 4 - image_count ed in
     let images := filter is_image_file files in
     let ed' := fst (handleFileChange files ed) in
     let toasts := snd (handleFileChange files ed) in
     exists allowed,
       newFiles ed' = newFiles ed ++ allowed
       /\ existingMedia ed' = existingMedia ed
       /\ filter is_image_file allowed = firstn room images
       /\ filter other_file allowed = filter other_file files
       /\ snd (select_files (image_count ed) files) = List.length images - room
       /\ image_count ed' = image_count ed + Nat.min room (List.length images)
       /\ (image_count ed <= 4 -> image_count ed' <= 4)
       /\ toasts = (if Nat.ltb room (List.length images)
                    then [toast_error (js "Maximum 4 images allowed")] else []))
  /\ (newFiles (fst (handleFileChange [png "a.png"; png "b.png"] three_saved)) = [png "a.png"]
      /\ snd (select_files (image_count three_saved) [png "a.png"; png "b.png"]) = 1
      /\ snd (handleFileChange [png "a.png"; png "b.png"] three_saved)
         = [toast_error (js "Maximum 4 images allowed")]).
Proof.
  split; [|vm_compute; auto].
  intros files ed room images ed' toasts.
  destruct (select_files_spec (image_count ed) files) as (Hi & Ho & Hr).
  fold room images in Hi, Hr.
  assert (Hf : files = [] \/ files <> []) by (destruct files; [now left | now right]).
  destruct Hf as [->|Hne].
  - exists []. subst ed' toasts images. cbn. rewrite app_nil_r, firstn_nil, Nat.min_0_r.
    repeat split; try lia.
  - exists (fst (select_files (image_count ed) files)).
    assert (Hed : handleFileChange files ed
                  = ({| title := title ed; content := content ed; publish := publish ed;
                        editingBlog := editingBlog ed; existingMedia := existingMedia ed;
                        newFiles := newFiles ed ++ fst (select_files (image_count ed) files) |},
                     if Nat.ltb 0 (snd (select_files (image_count ed) files))
                     then [toast_error (js "Maximum 4 images allowed")] else [])).
    { unfold handleFileChange. destruct files as [|f files]; [now destruct Hne|].
      fold (image_count ed). now destruct (select_files (image_count ed) (f :: files)). }
    assert (Hcount : image_count ed'
                     = image_count ed + Nat.min room (List.length images)).
    { subst ed'. rewrite Hed. unfold image_count, count in *.
      cbn [fst existingMedia newFiles].
      rewrite filter_app, length_app, Hi, length_firstn. subst room images.
      unfold image_count, count. lia. }
    subst ed' toasts. rewrite Hed in *. cbn [fst snd newFiles existingMedia] in *.
    repeat split; trivial.
    + intros Hle. rewrite Hcount. subst room. lia.
    + rewrite Hr. unfold images, count.
      destruct (Nat.ltb_spec 0 (List.length (filter is_image_file files) - room));
        destruct (Nat.ltb_spec room (List.length (filter is_image_file files)));
        trivial; lia.
Qed.

(** C2, as the claim states it, fails on a post saved with five images:
    after an event that selects one video, the post has five images. *)
Lemma five_saved_images_stay_five :
  ~ (image_count (fst (handleFileChange [mp4 "clip.mp4"] five_saved)) <= 4).
Proof. vm_compute. lia. Qed.

(** How the editor itself saves a post with five images: four pictures
    and a file of unknown type are all accepted without a notice, the
    create classifies each of the five as an image, and the saved post,
    loaded back for editing, counts five images. *)
Example five_images_through_the_editor :
  let selected := handleFileChange four_pictures_and_notes draft in
  let saved := snd (createBlogMutation admin clock random36 public_url row_ident row_stamp
                               (fst selected) (empty_store [])) in
  let items := uploaded_items admin clock random36 public_url 0 four_pictures_and_notes in
  newFiles (fst selected) = four_pictures_and_notes
  /\ snd selected = []
  /\ map row_media (blogs saved) = [media_cell items]
  /\ map media_type items = [image; image; image; image; image]
  /\ forall row, image_count (handleEdit (as_Blog row items) draft) = 5.
Proof. vm_compute. repeat split. Qed.

End SelectionFacts.

(* ================================================================== *)
(** * Properties: the public listing                                    *)
(* ================================================================== *)

Module BlogPageFacts.
Import BlogPage Sample.

Lemma In_insert_desc (r x : BlogRow) (sorted : list BlogRow) :
  In x (insert_desc r sorted) <-> x = r \/ In x sorted.
Proof.
  induction sorted as [|r' rest IH]; simpl.
  - intuition.
  - destruct (str_leb (created_at r') (created_at r)); simpl; [intuition|].
    rewrite IH. intuition.
Qed.

Lemma In_order_desc (x : BlogRow) (rows : list BlogRow) :
  In x (order_created_at_desc rows) <-> In x rows.
Proof.
  induction rows as [|r rows IH]; simpl; [reflexivity|].
  rewrite In_insert_desc, IH. intuition.
Qed.

Lemma In_eq_is_published (x : BlogRow) (value : bool) (rows : list BlogRow) :
  In x (eq_is_published value rows) <-> In x rows /\ is_published x = value.
Proof.
  unfold eq_is_published. rewrite filter_In.
  destruct (is_published x), value; simpl; intuition discriminate.
Qed.

(** What the query resolves to: the scripted error, or the published
    rows of the table, newest first. *)
Lemma queryFn_cases (s : state) :
  (exists e rest, outcomes s = Some e :: rest /\ fst (queryFn s) = Throw e)
  \/ (hd None (outcomes s) = None
      /\ fst (queryFn s) = Normal (order_created_at_desc (eq_is_published true (blogs s)))).
Proof.
  destruct s as [bk bl [|[e|] oc] rd]; cbn.
  - right. now split.
  - left. now exists e, oc.
  - right. now split.
Qed.

Section Render.

Variable JSON_parse : jsstring -> completion JSValue.

Lemma cards_blogs (data : list BlogRow) :
  forall shown, cards JSON_parse data = Normal shown -> map fst shown = data.
Proof.
  induction data as [|blog data IH]; simpl; intros shown H.
  - now injection H as <-.
  - destruct (card_media JSON_parse (row_media blog)) as [media|e]; simpl in H; [|discriminate].
    destruct (cards JSON_parse data) as [more|e]; simpl in H; [|discriminate].
    injection H as <-. simpl. now rewrite (IH more).
Qed.

(** C8. The listing query asks the table for the rows whose
    [is_published] equals true, and orders them afterwards.  So what it
    resolves to holds exactly the published rows of the table: every
    blog fetched, and every blog a card is rendered for, is published,
    and no draft is among them.  The query resolves to those rows
    whenever the call succeeds, and throws the store's error
    otherwise. *)
Theorem listing_shows_published_only (s : state) :
  (forall data, fst (queryFn s) = Normal data ->
     data = order_created_at_desc (eq_is_published true (blogs s))
     /\ (forall blog, In blog data <-> In blog (blogs s) /\ is_published blog = true)
     /\ (forall shown, cards JSON_parse data = Normal shown ->
           map fst shown = data
           /\ forall card, In card shown -> is_published (fst card) = true))
  /\ (hd None (outcomes s) = None -> exists data, fst (queryFn s) = Normal data)
  /\ (forall e rest, outcomes s = Some e :: rest -> fst (queryFn s) = Throw e).
Proof.
  destruct (queryFn_cases s) as [(e & rest & Ho & Hq)|[Ho Hq]].
  - split; [intros data H; congruence|]. split.
    + rewrite Ho. discriminate.
    + intros e' rest' Ho'. rewrite Ho in Ho'. injection Ho' as <- _. exact Hq.
  - split; [|split].
    + intros data H. rewrite Hq in H. injection H as <-.
      assert (Hin : forall blog,
                 In blog (order_created_at_desc (eq_is_published true (blogs s)))
                 <-> In blog (blogs s) /\ is_published blog = true).
      { intros blog. now rewrite In_order_desc, In_eq_is_published. }
      split; [reflexivity|]. split; [exact Hin|].
      intros shown Hs. pose proof (cards_blogs _ _ Hs) as Hm. split; [exact Hm|].
      intros card Hc. apply (Hin (fst card)). rewrite <- Hm. now apply in_map.
    + intros _. eexists. exact Hq.
    + intros e rest Ho'. rewrite Ho' in Ho. discriminate.
Qed.

End Render.

(** On a table with two published posts around a draft, the page
    fetches the two published posts, newest first. *)
Lemma listing_of_three_posts :
  [post "3" "2025-01-03" true JSNull; post "1" "2025-01-01" true (JSArray [])]
  = order_created_at_desc (eq_is_published true (blogs three_posts)).
Proof.
  apply (proj1 (listing_shows_published_only JsonText.decode three_posts)).
  vm_compute. reflexivity.
Defined.

End BlogPageFacts.

(* ================================================================== *)
(** * Properties: numbers                                               *)
(* ================================================================== *)

Module NumFacts.
Import Num.

Lemma Prim2SF_zero : Prim2SF 0 = S754_zero false.
Proof. reflexivity. Qed.

Lemma SFcompare_refl_finite s m e :
  SFcompare (S754_finite s m e) (S754_finite s m e) = Some Eq.
Proof.
  unfold SFcompare. rewrite Z.compare_refl, Pos.compare_cont_refl.
  now destruct s.
Qed.

Lemma is_zero_inv (x : float) :
  PrimFloat.is_zero x = true -> exists s, Prim2SF x = S754_zero s.
Proof.
  unfold PrimFloat.is_zero. rewrite eqb_spec.
  change (Prim2SF PrimFloat.zero) with (S754_zero false).
  destruct (Prim2SF x) as [s|s| |s m e]; unfold SFeqb; cbn; try discriminate.
  - eauto.
  - destruct s; discriminate.
  - destruct s; discriminate.
Qed.

Lemma is_nan_inv (x : float) :
  PrimFloat.is_nan x = true -> Prim2SF x = S754_nan.
Proof.
  unfold PrimFloat.is_nan. rewrite eqb_spec.
  destruct (Prim2SF x) as [s|s| |s m e]; unfold SFeqb; trivial.
  - destruct s; discriminate.
  - destruct s; discriminate.
  - rewrite SFcompare_refl_finite. discriminate.
Qed.

(** [x || 0] is [x] itself for every number but [NaN] and [-0]. *)
Lemma or_num_ordinary (x : float) : ordinary x = true -> or_num x 0 = x.
Proof.
  unfold ordinary, or_num, falsy. intros Ho.
  destruct (PrimFloat.is_zero x) eqn:Ez; cbn [orb].
  - apply is_zero_inv in Ez as [s Es]. rewrite Es in Ho. destruct s; [discriminate|].
    symmetry. apply Prim2SF_inj. now rewrite Es.
  - destruct (PrimFloat.is_nan x) eqn:En; [|reflexivity].
    apply is_nan_inv in En. now rewrite En in Ho.
Qed.

(** Zero times a finite number is a zero. *)
Lemma zero_mul_finite (q : float) :
  finiteb q = true -> exists s, Prim2SF (0 * q) = S754_zero s.
Proof.
  unfold finiteb. intros H. rewrite mul_spec, Prim2SF_zero.
  destruct (Prim2SF q) as [s|s| |s m e]; try discriminate; cbn; eauto.
Qed.

Lemma same_number_refl (x : float) : same_number x x.
Proof. reflexivity. Qed.

Lemma same_number_trans (x y z : float) :
  same_number x y -> same_number y z -> same_number x z.
Proof. unfold same_number. congruence. Qed.

(** Adding a zero leaves a number as it is. *)
Lemma add_zero_same (x z : float) (s : bool) :
  Prim2SF z = S754_zero s -> same_number (x + z) x.
Proof.
  intros Hz. unfold same_number. rewrite add_spec, Hz.
  destruct (Prim2SF x) as [sx|sx| |sx m e]; cbn; trivial.
  now destruct sx, s.
Qed.

(** Addition respects equality up to the sign of zero. *)
Lemma add_same_l (x y a : float) : same_number x y -> same_number (x + a) (y + a).
Proof.
  unfold same_number. rewrite !add_spec. intros H.
  destruct (Prim2SF x) as [sx|sx| |sx mx ex]; destruct (Prim2SF y) as [sy|sy| |sy my ey];
    cbn [canon] in H; try discriminate; try (inversion H; subst; reflexivity).
  destruct (Prim2SF a) as [sa|sa| |sa ma ea]; cbn; trivial.
  now destruct sx, sy, sa.
Qed.

End NumFacts.

(* ================================================================== *)
(** * Properties: the checkout writes                                   *)
(* ================================================================== *)

Module CheckoutFacts.
Import Num NumFacts Checkout Sample.
Local Open Scope float_scope.

(** ** The total *)

Lemma total_from (cartItems : list CartItem) : total cartItems = fold_left add_line cartItems 0.
Proof. reflexivity. Qed.

Lemma priced_fold (cartItems : list CartItem) :
  forall lines acc,
    priced_lines cartItems = Some lines ->
    fold_left add_line cartItems acc
    = fold_left (fun a l => a + fst l * snd l) lines acc.
Proof.
  induction cartItems as [|item rest IH]; intros lines acc H; cbn in H.
  - now injection H as <-.
  - destruct (products item) as [p|] eqn:Ep; [|discriminate].
    destruct (priced_lines rest) as [more|]; [|discriminate].
    destruct (ordinary (price p)) eqn:Eo; [|discriminate].
    injection H as <-. cbn [fold_left fst snd].
    rewrite <- (IH more _ eq_refl). f_equal.
    unfold add_line, unit_price. now rewrite Ep, or_num_ordinary.
Qed.

Lemma fold_same (cartItems : list CartItem) :
  forall a b, same_number a b ->
    same_number (fold_left add_line cartItems a) (fold_left add_line cartItems b).
Proof.
  induction cartItems as [|item rest IH]; intros a b H; [exact H|].
  cbn [fold_left]. apply IH. unfold add_line. now apply add_same_l.
Qed.

(** A line without its product adds a zero: the total is the number it
    is without the line. *)
Lemma orphan_line_adds_nothing (item : CartItem) (pre post : list CartItem) :
  products item = None -> finiteb (quantity item) = true ->
  same_number (total (pre ++ item :: post)) (total (pre ++ post)).
Proof.
  intros Hp Hq. rewrite !total_from, !fold_left_app. cbn [fold_left].
  apply fold_same. unfold add_line at 1, unit_price. rewrite Hp.
  destruct (zero_mul_finite _ Hq) as [s Hs]. now apply add_zero_same with (s := s).
Qed.

(** ** The three writes *)

Section Writes.

Variable new_order_id : Shop -> jsstring.

Local Abbreviation run := (mutationFn new_order_id).

Local Abbreviation created_order := (Checkout.created_order new_order_id).

Lemma run_order_fails u items os ois cs e rest log :
  run (Some u) (Some items)
      {| orders := os; order_items := ois; cart_items := cs;
         scripted := Some e :: rest; calls := log |}
  = (Throw e, {| orders := os; order_items := ois; cart_items := cs;
                 scripted := rest; calls := log ++ [insert_order] |}).
Proof. reflexivity. Qed.

Lemma run_items_fail u items os ois cs e rest log :
  let s := {| orders := os; order_items := ois; cart_items := cs;
              scripted := None :: Some e :: rest; calls := log |} in
  run (Some u) (Some items) s
  = (Throw e, {| orders := os ++ [created_order u items s]; order_items := ois;
                 cart_items := cs; scripted := rest;
                 calls := (log ++ [insert_order]) ++ [insert_order_items] |}).
Proof. reflexivity. Qed.

Lemma run_clear_fails u items os ois cs e rest log :
  let s := {| orders := os; order_items := ois; cart_items := cs;
              scripted := None :: None :: Some e :: rest; calls := log |} in
  run (Some u) (Some items) s
  = (Throw e, {| orders := os ++ [created_order u items s];
                 order_items := ois ++ orderItems (created_order u items s) items;
                 cart_items := cs; scripted := rest;
                 calls := ((log ++ [insert_order]) ++ [insert_order_items])
                          ++ [delete_cart_items] |}).
Proof. reflexivity. Qed.

Lemma run_all_ok u items (s : Shop) :
  Forall (eq None) (firstn 3 (scripted s)) ->
  run (Some u) (Some items) s
  = (Normal (total items),
     {| orders := orders s ++ [created_order u items s];
        order_items := order_items s ++ orderItems (created_order u items s) items;
        cart_items := cleared u (cart_items s);
        scripted := skipn 3 (scripted s);
        calls := ((calls s ++ [insert_order]) ++ [insert_order_items])
                 ++ [delete_cart_items] |}).
Proof.
  destruct s as [os ois cs script log]. cbn [scripted]. intros H.
  destruct script as [|o1 [|o2 [|o3 script]]]; cbn in H;
    repeat match goal with
           | H : Forall _ (_ :: _) |- _ => inversion H; clear H; subst
           end; reflexivity.
Qed.

(** C5. The checkout writes are three separate calls, made in the order
    order creation, line-item creation, cart clearing, and nothing
    undoes a call that went through.  If creating the order fails,
    nothing was written.  If creating the line items fails, the order
    row stays created, no line item is written and the cart is not
    cleared.  If clearing the cart fails, the order and its line items
    stay written and the cart stays as it was.  In each case the
    mutation throws the error of the failed call, and the store has
    received only the calls up to the failed one: no compensating
    call follows.  When all three succeed the mutation returns the
    total. *)
Theorem checkout_writes_are_three_separate_calls
        (u : User) (items : list CartItem) (s : Shop) :
  (forall e rest, scripted s = Some e :: rest ->
     fst (run (Some u) (Some items) s) = Throw e
     /\ orders (snd (run (Some u) (Some items) s)) = orders s
     /\ order_items (snd (run (Some u) (Some items) s)) = order_items s
     /\ cart_items (snd (run (Some u) (Some items) s)) = cart_items s
     /\ calls (snd (run (Some u) (Some items) s)) = calls s ++ [insert_order])
  /\ (forall e rest, scripted s = None :: Some e :: rest ->
        fst (run (Some u) (Some items) s) = Throw e
        /\ orders (snd (run (Some u) (Some items) s)) = orders s ++ [created_order u items s]
        /\ order_items (snd (run (Some u) (Some items) s)) = order_items s
        /\ cart_items (snd (run (Some u) (Some items) s)) = cart_items s
        /\ calls (snd (run (Some u) (Some items) s))
           = calls s ++ [insert_order; insert_order_items])
  /\ (forall e rest, scripted s = None :: None :: Some e :: rest ->
        fst (run (Some u) (Some items) s) = Throw e
        /\ orders (snd (run (Some u) (Some items) s)) = orders s ++ [created_order u items s]
        /\ order_items (snd (run (Some u) (Some items) s))
           = order_items s ++ orderItems (created_order u items s) items
        /\ cart_items (snd (run (Some u) (Some items) s)) = cart_items s
        /\ calls (snd (run (Some u) (Some items) s))
           = calls s ++ [insert_order; insert_order_items; delete_cart_items])
  /\ (Forall (eq None) (firstn 3 (scripted s)) ->
        fst (run (Some u) (Some items) s) = Normal (total items)
        /\ orders (snd (run (Some u) (Some items) s)) = orders s ++ [created_order u items s]
        /\ order_items (snd (run (Some u) (Some items) s))
           = order_items s ++ orderItems (created_order u items s) items
        /\ cart_items (snd (run (Some u) (Some items) s)) = cleared u (cart_items s)
        /\ calls (snd (run (Some u) (Some items) s))
           = calls s ++ [insert_order; insert_order_items; delete_cart_items]).
Proof.
  split; [|split; [|split]].
  - intros e rest Hs. destruct s as [os ois cs script log]. cbn in Hs. subst script.
    rewrite run_order_fails. cbn. auto.
  - intros e rest Hs. destruct s as [os ois cs script log]. cbn in Hs. subst script.
    rewrite run_items_fail. cbn [fst snd orders order_items cart_items calls].
    rewrite <- app_assoc. auto.
  - intros e rest Hs. destruct s as [os ois cs script log]. cbn in Hs. subst script.
    rewrite run_clear_fails. cbn [fst snd orders order_items cart_items calls].
    rewrite <- !app_assoc. auto.
  - intros Hok. rewrite (run_all_ok u items s Hok).
    cbn [fst snd orders order_items cart_items calls]. rewrite <- !app_assoc. auto.
Qed.

(** C10. A cart line whose joined product is missing is priced at
    zero and named by the empty text; its order item is still among
    the rows written, with price zero and that name; with a finite
    quantity the line adds a zero to the sum, so the total is the
    number it would be without the line; and the mutation goes through
    on such a cart whenever its three calls succeed. *)
Theorem missing_product_counts_as_zero (item : CartItem) :
  products item = None ->
  unit_price item = 0
  /\ order_item_name item = []
  /\ (forall order pre post,
        nth_error (orderItems order (pre ++ item :: post)) (List.length pre)
        = Some {| oi_order_id := order_id order; oi_product_id := product_id item;
                  oi_product_name := []; oi_quantity := quantity item; oi_price := 0 |})
  /\ (finiteb (quantity item) = true ->
        (exists s, Prim2SF (unit_price item * quantity item) = S754_zero s)
        /\ forall pre post,
             same_number (total (pre ++ item :: post)) (total (pre ++ post)))
  /\ (forall u pre post s,
        Forall (eq None) (firstn 3 (scripted s)) ->
        fst (run (Some u) (Some (pre ++ item :: post)) s)
        = Normal (total (pre ++ item :: post))
        /\ In {| oi_order_id := order_id (created_order u (pre ++ item :: post) s);
                 oi_product_id := product_id item; oi_product_name := [];
                 oi_quantity := quantity item; oi_price := 0 |}
              (order_items (snd (run (Some u) (Some (pre ++ item :: post)) s)))).
Proof.
  intros Hp.
  assert (Hu : unit_price item = 0) by (unfold unit_price; now rewrite Hp).
  assert (Hn : order_item_name item = []) by (unfold order_item_name; now rewrite Hp).
  assert (Hrow : forall order pre post,
             nth_error (orderItems order (pre ++ item :: post)) (List.length pre)
             = Some {| oi_order_id := order_id order; oi_product_id := product_id item;
                       oi_product_name := []; oi_quantity := quantity item; oi_price := 0 |}).
  { intros order pre post. unfold orderItems.
    rewrite map_app, nth_error_app2 by (rewrite length_map; lia).
    rewrite length_map, Nat.sub_diag. cbn. now rewrite Hu, Hn. }
  split; [exact Hu|]. split; [exact Hn|]. split; [exact Hrow|]. split.
  - intros Hq. split.
    + rewrite Hu. now apply zero_mul_finite.
    + intros pre post. now apply orphan_line_adds_nothing.
  - intros u pre post s Hok. rewrite (run_all_ok u _ s Hok). cbn [fst snd order_items].
    split; [reflexivity|]. apply in_or_app. right.
    eapply nth_error_In. apply Hrow.
Qed.

End Writes.

(** C3. The checkout total is the sum, in cart order, of unit price
    times quantity over the lines of the cart, whenever each line has
    its product, priced by a number other than [NaN] and [-0]; it is
    a function of the cart alone, and what the mutation returns does
    not depend on the store it ran against.  For the cart of a line of
    2 at 10 and a line of 1 at 5 the total is 25, shown as 25.00. *)
Theorem total_is_sum_of_price_times_quantity :
  (forall cartItems lines,
     priced_lines cartItems = Some lines -> total cartItems = sum_of_lines lines)
  /\ (forall new_order_id u items s s',
        Forall (eq None) (firstn 3 (scripted s)) ->
        Forall (eq None) (firstn 3 (scripted s')) ->
        fst (mutationFn new_order_id (Some u) (Some items) s) = Normal (total items)
        /\ fst (mutationFn new_order_id (Some u) (Some items) s')
           = fst (mutationFn new_order_id (Some u) (Some items) s))
  /\ priced_lines two_line_cart = Some [(10, 2); (5, 1)]
  /\ total two_line_cart = 25
  /\ forall Number_toString, toFixed2 Number_toString (total two_line_cart) = js "25.00".
Proof.
  split; [|split; [|split; [|split]]].
  - intros cartItems lines H. rewrite total_from. unfold sum_of_lines.
    now apply priced_fold.
  - intros new_order_id u items s s' Hs Hs'.
    now rewrite (run_all_ok new_order_id u items s Hs), (run_all_ok new_order_id u items s' Hs').
  - reflexivity.
  - reflexivity.
  - intros Number_toString. vm_compute. reflexivity.
Qed.

(** The total of the sample cart, as the sum of its two lines. *)
Lemma total_of_two_lines : total two_line_cart = sum_of_lines [(10, 2); (5, 1)].
Proof.
  apply (proj1 total_is_sum_of_price_times_quantity two_line_cart [(10, 2); (5, 1)]).
  reflexivity.
Defined.

(** A line of three whose product is gone, between the two priced
    lines: it is written with price zero, and the total stays 25. *)
Lemma orphan_line_example :
  unit_price (orphan 3) = 0
  /\ order_item_name (orphan 3) = []
  /\ (forall order pre post,
        nth_error (orderItems order (pre ++ orphan 3 :: post)) (List.length pre)
        = Some {| oi_order_id := order_id order; oi_product_id := product_id (orphan 3);
                  oi_product_name := []; oi_quantity := quantity (orphan 3); oi_price := 0 |})
  /\ (finiteb (quantity (orphan 3)) = true ->
        (exists s, Prim2SF (unit_price (orphan 3) * quantity (orphan 3)) = S754_zero s)
        /\ forall pre post,
             same_number (total (pre ++ orphan 3 :: post)) (total (pre ++ post)))
  /\ (forall u pre post s,
        Forall (eq None) (firstn 3 (scripted s)) ->
        fst (mutationFn order_ident (Some u) (Some (pre ++ orphan 3 :: post)) s)
        = Normal (total (pre ++ orphan 3 :: post))
        /\ In {| oi_order_id :=
                   order_id (Checkout.created_order order_ident u (pre ++ orphan 3 :: post) s);
                 oi_product_id := product_id (orphan 3); oi_product_name := [];
                 oi_quantity := quantity (orphan 3); oi_price := 0 |}
              (order_items (snd (mutationFn order_ident (Some u)
                                            (Some (pre ++ orphan 3 :: post)) s)))).
Proof. exact (missing_product_counts_as_zero order_ident (orphan 3) eq_refl). Defined.

Example orphan_line_total :
  total [line "Oil" 10 2; orphan 3; line "Tea" 5 1] = 25
  /\ map oi_price (orderItems (Checkout.created_order order_ident buyer [] (shop [] []))
                              [line "Oil" 10 2; orphan 3; line "Tea" 5 1]) = [10; 0; 5].
Proof. split; reflexivity. Qed.

(** The line items cannot be written: the order stays, the cart stays
    full. *)
Lemma items_insert_fails_example :
  fst (mutationFn order_ident (Some buyer) (Some two_line_cart)
                  (shop two_line_cart [None; Some store_failure])) = Throw store_failure
  /\ orders (snd (mutationFn order_ident (Some buyer) (Some two_line_cart)
                             (shop two_line_cart [None; Some store_failure])))
     = orders (shop two_line_cart [None; Some store_failure])
       ++ [Checkout.created_order order_ident buyer two_line_cart
                         (shop two_line_cart [None; Some store_failure])]
  /\ order_items (snd (mutationFn order_ident (Some buyer) (Some two_line_cart)
                                  (shop two_line_cart [None; Some store_failure])))
     = order_items (shop two_line_cart [None; Some store_failure])
  /\ cart_items (snd (mutationFn order_ident (Some buyer) (Some two_line_cart)
                                 (shop two_line_cart [None; Some store_failure])))
     = cart_items (shop two_line_cart [None; Some store_failure])
  /\ calls (snd (mutationFn order_ident (Some buyer) (Some two_line_cart)
                            (shop two_line_cart [None; Some store_failure])))
     = calls (shop two_line_cart [None; Some store_failure])
       ++ [insert_order; insert_order_items].
Proof.
  apply (proj1 (proj2 (checkout_writes_are_three_separate_calls
                         order_ident buyer two_line_cart
                         (shop two_line_cart [None; Some store_failure])))
               store_failure []).
  reflexivity.
Defined.

End CheckoutFacts.

(* ================================================================== *)
(** * Properties: percent-encoding                                      *)
(* ================================================================== *)

Module URIFacts.
Import URI.
Local Open Scope Z_scope.

Ltac Zify.zify_post_hook ::= Z.to_euclidean_division_equations.

Lemma between_true lo hi c : lo <= c <= hi -> between lo hi c = true.
Proof. unfold between. intros H. apply andb_true_intro. split; apply Z.leb_le; lia. Qed.

Lemma between_false lo hi c : c < lo \/ hi < c -> between lo hi c = false.
Proof.
  unfold between. intros [H|H].
  - apply andb_false_intro1, Z.leb_gt, H.
  - apply andb_false_intro2, Z.leb_gt, H.
Qed.

Lemma between_spec lo hi c : between lo hi c = true <-> lo <= c <= hi.
Proof. unfold between. rewrite andb_true_iff, !Z.leb_le. tauto. Qed.

Lemma between_cases lo hi c :
  (between lo hi c = true /\ lo <= c <= hi) \/ (between lo hi c = false /\ (c < lo \/ hi < c)).
Proof.
  destruct (Z_le_dec lo c); [destruct (Z_le_dec c hi)|].
  - left. split; [apply between_true|]; lia.
  - right. split; [apply between_false|]; lia.
  - right. split; [apply between_false|]; lia.
Qed.

(** ** Hexadecimal digits and escapes *)

Lemma hex_value_digit n : 0 <= n < 16 -> hex_value (hex_digit n) = Some n.
Proof.
  intros H. unfold hex_digit, hex_value.
  destruct (Z.ltb_spec n 10).
  - rewrite between_true by lia. f_equal. lia.
  - rewrite (between_false 48 57), (between_true 65 70) by lia. f_equal. lia.
Qed.

Lemma octets_of_escape b rest :
  0 <= b < 256 ->
  octets_of (escape b ++ rest) = option_map (cons b) (octets_of rest).
Proof.
  intros H. unfold escape. cbn [app octets_of]. rewrite Z.eqb_refl.
  rewrite !hex_value_digit by lia.
  replace (16 * (b / 16) + b mod 16) with b by lia.
  now destruct (octets_of rest).
Qed.

Lemma octets_of_escape_all bs rest :
  Forall (fun b => 0 <= b < 256) bs ->
  octets_of (escape_all bs ++ rest) = option_map (app bs) (octets_of rest).
Proof.
  induction 1 as [|b bs Hb _ IH]; cbn [escape_all flat_map app].
  - now destruct (octets_of rest).
  - fold (escape_all bs). rewrite <- app_assoc, octets_of_escape, IH by exact Hb.
    now destruct (octets_of rest).
Qed.

Lemma unescaped_ascii c : unescaped c = true -> 0 <= c <= 127 /\ c <> 37.
Proof.
  unfold unescaped. rewrite !orb_true_iff, !between_spec, !Z.eqb_eq. lia.
Qed.

Lemma unescaped_not_surrogate c : unescaped c = true -> is_lead c = false /\ is_trail c = false.
Proof.
  intros H. apply unescaped_ascii in H. unfold is_lead, is_trail.
  split; apply between_false; lia.
Qed.

Lemma octets_of_unescaped c rest :
  unescaped c = true -> octets_of (c :: rest) = option_map (cons c) (octets_of rest).
Proof.
  intros H. apply unescaped_ascii in H as [Hr Hp]. cbn [octets_of].
  destruct (Z.eqb_spec c 37); [contradiction|].
  rewrite between_true by lia. now destruct (octets_of rest).
Qed.

Lemma utf8_octets cp : 0 <= cp <= 1114111 -> Forall (fun b => 0 <= b < 256) (utf8 cp).
Proof.
  intros H. unfold utf8.
  destruct (Z.ltb_spec cp 128); [|destruct (Z.ltb_spec cp 2048); [|destruct (Z.ltb_spec cp 65536)]];
    repeat constructor; lia.
Qed.

Lemma escape_chars b : 0 <= b < 256 -> forallb component_char (escape b) = true.
Proof.
  intros H. unfold escape, component_char. cbn [forallb].
  assert (Hd : forall n, 0 <= n < 16 ->
                 (unescaped (hex_digit n) || (hex_digit n =? 37) || between 48 57 (hex_digit n)
                  || between 65 70 (hex_digit n)) = true).
  { intros n Hn. unfold hex_digit. destruct (Z.ltb_spec n 10).
    - rewrite (between_true 48 57) by lia. rewrite orb_true_r. reflexivity.
    - rewrite (between_true 65 70) by lia. apply orb_true_r. }
  rewrite !Hd by lia. reflexivity.
Qed.

Lemma escape_all_chars bs :
  Forall (fun b => 0 <= b < 256) bs -> forallb component_char (escape_all bs) = true.
Proof.
  induction 1 as [|b bs Hb _ IH]; [reflexivity|].
  cbn [escape_all flat_map]. fold (escape_all bs).
  now rewrite forallb_app, escape_chars, IH.
Qed.

(** ** UTF-8 and back *)

Lemma utf16_pair c d :
  is_lead c = true -> is_trail d = true -> utf16 (code_point c d) = [c; d].
Proof.
  unfold is_lead, is_trail. rewrite !between_spec. intros Hc Hd.
  unfold utf16, code_point.
  destruct (Z.ltb_spec ((c - 55296) * 1024 + (d - 56320) + 65536) 65536); [lia|].
  f_equal; [|f_equal]; lia.
Qed.

Lemma code_point_range c d :
  is_lead c = true -> is_trail d = true -> 65536 <= code_point c d <= 1114111.
Proof.
  unfold is_lead, is_trail, code_point. rewrite !between_spec. lia.
Qed.

(** The octets of a code point that is no surrogate read back as its
    code units. *)
Lemma text_of_utf8 cp rest :
  0 <= cp <= 1114111 -> between 55296 57343 cp = false ->
  text_of (utf8 cp ++ rest) = option_map (app (utf16 cp)) (text_of rest).
Proof.
  intros Hr Hs.
  assert (Hns : cp < 55296 \/ 57343 < cp).
  { destruct (between_cases 55296 57343 cp) as [[E _]|[_ H]]; [congruence | exact H]. }
  unfold utf8.
  destruct (Z.ltb_spec cp 128) as [H1|H1];
    [|destruct (Z.ltb_spec cp 2048) as [H2|H2]; [|destruct (Z.ltb_spec cp 65536) as [H3|H3]]];
    cbn [app text_of].
  - rewrite between_true by lia. unfold utf16.
    now destruct (Z.ltb_spec cp 65536); [|lia].
  - rewrite (between_false 0 127), (between_true 194 223) by lia.
    unfold continuation. rewrite between_true by lia.
    now replace ((192 + cp / 64 - 192) * 64 + (128 + cp mod 64 - 128)) with cp by lia.
  - rewrite (between_false 0 127), (between_false 194 223), (between_true 224 239) by lia.
    unfold continuation. rewrite !between_true by lia. cbn [andb].
    replace ((224 + cp / 4096 - 224) * 4096 + (128 + (cp / 64) mod 64 - 128) * 64
             + (128 + cp mod 64 - 128)) with cp by lia.
    rewrite Hs. destruct (Z.leb_spec 2048 cp); [reflexivity | lia].
  - rewrite (between_false 0 127), (between_false 194 223), (between_false 224 239),
      (between_true 240 244) by lia.
    unfold continuation. rewrite !between_true by lia. cbn [andb].
    replace ((240 + cp / 262144 - 240) * 262144 + (128 + (cp / 4096) mod 64 - 128) * 4096
             + (128 + (cp / 64) mod 64 - 128) * 64 + (128 + cp mod 64 - 128)) with cp by lia.
    destruct (Z.leb_spec 65536 cp); [|lia]. destruct (Z.leb_spec cp 1114111); [reflexivity | lia].
Qed.

(** ** Encoding a well-formed text *)

Lemma well_formed_cons c rest :
  well_formed (c :: rest) = true ->
  (is_lead c = false /\ is_trail c = false /\ 0 <= c <= 65535 /\ well_formed rest = true)
  \/ (is_lead c = true /\ is_trail c = false
      /\ exists d rest', rest = d :: rest' /\ is_trail d = true /\ well_formed rest' = true).
Proof.
  cbn [well_formed]. destruct (is_trail c); [discriminate|].
  destruct (is_lead c).
  - destruct rest as [|d rest']; [discriminate|]. intros H. apply andb_prop in H as [Hd Hw].
    right. repeat split. now exists d, rest'.
  - intros H. apply andb_prop in H as [Hc Hw]. apply between_spec in Hc. left. auto.
Qed.

Lemma not_surrogate c : is_lead c = false -> is_trail c = false -> between 55296 57343 c = false.
Proof.
  unfold is_lead, is_trail. intros Hl Ht.
  destruct (between_cases 55296 56319 c) as [[E _]|[_ H1]]; [congruence|].
  destruct (between_cases 56320 57343 c) as [[E _]|[_ H2]]; [congruence|].
  apply between_false. lia.
Qed.

Lemma encode_well_formed (n : nat) :
  forall s, (List.length s <= n)%nat -> well_formed s = true ->
    exists encoded,
      encodeURIComponent s = Normal encoded
      /\ octets_of encoded = Some (utf8_text s)
      /\ forallb component_char encoded = true.
Proof.
  induction n as [|n IH]; intros s Hn Hw.
  - destruct s; [|cbn in Hn; lia]. exists []. repeat split.
  - destruct s as [|c rest]; [exists []; repeat split|].
    cbn [List.length] in Hn.
    destruct (well_formed_cons _ _ Hw) as [(Hl & Ht & Hr & Hrest)|(Hl & Ht & d & rest' & -> & Hd & Hrest)].
    + destruct (IH rest ltac:(lia) Hrest) as (enc & He & Ho & Hc).
      cbn [encodeURIComponent utf8_text]. rewrite Hl, Ht, He.
      destruct (unescaped c) eqn:Eu.
      * exists (c :: enc). cbn [prepend bind app]. split; [reflexivity|].
        rewrite (octets_of_unescaped _ _ Eu), Ho. cbn [option_map].
        pose proof (unescaped_ascii _ Eu) as [Hascii _]. unfold utf8.
        destruct (Z.ltb_spec c 128); [|lia]. split; [reflexivity|].
        cbn [forallb]. rewrite Hc. unfold component_char. now rewrite Eu.
      * exists (escape_all (utf8 c) ++ enc). cbn [prepend bind]. split; [reflexivity|].
        assert (Hb : Forall (fun b => 0 <= b < 256) (utf8 c)) by (apply utf8_octets; lia).
        rewrite octets_of_escape_all, Ho by exact Hb. split; [reflexivity|].
        now rewrite forallb_app, escape_all_chars, Hc.
    + cbn [List.length] in Hn.
      destruct (IH rest' ltac:(lia) Hrest) as (enc & He & Ho & Hc).
      cbn [encodeURIComponent utf8_text]. rewrite Hl, Ht, Hd, He.
      destruct (unescaped c) eqn:Eu.
      { apply unescaped_not_surrogate in Eu as [E _]. congruence. }
      exists (escape_all (utf8 (code_point c d)) ++ enc). cbn [prepend bind].
      split; [reflexivity|].
      assert (Hb : Forall (fun b => 0 <= b < 256) (utf8 (code_point c d))).
      { apply utf8_octets. pose proof (code_point_range c d Hl Hd). lia. }
      rewrite octets_of_escape_all, Ho by exact Hb. split; [reflexivity|].
      now rewrite forallb_app, escape_all_chars, Hc.
Qed.

Lemma decode_utf8_text (n : nat) :
  forall s, (List.length s <= n)%nat -> well_formed s = true ->
    text_of (utf8_text s) = Some s.
Proof.
  induction n as [|n IH]; intros s Hn Hw.
  - destruct s; [reflexivity | cbn in Hn; lia].
  - destruct s as [|c rest]; [reflexivity|]. cbn [List.length] in Hn.
    destruct (well_formed_cons _ _ Hw) as [(Hl & Ht & Hr & Hrest)|(Hl & Ht & d & rest' & -> & Hd & Hrest)].
    + cbn [utf8_text]. rewrite Hl.
      rewrite text_of_utf8, (IH rest) by (lia || assumption || now apply not_surrogate).
      cbn [option_map]. unfold utf16. now destruct (Z.ltb_spec c 65536); [|lia].
    + cbn [List.length] in Hn. cbn [utf8_text]. rewrite Hl.
      pose proof (code_point_range c d Hl Hd) as Hcp.
      rewrite text_of_utf8, (IH rest'), utf16_pair
        by (lia || assumption || (apply between_false; lia)).
      reflexivity.
Qed.

(** [encodeURIComponent] on a well-formed text: it returns, what it
    returns is made of unescaped characters and escapes only, and it
    reads back as the text. *)
Lemma encodeURIComponent_round_trip (s : jsstring) :
  well_formed s = true ->
  exists encoded,
    encodeURIComponent s = Normal encoded
    /\ forallb component_char encoded = true
    /\ octets_of encoded = Some (utf8_text s)
    /\ decoded encoded = Some s.
Proof.
  intros Hw.
  destruct (encode_well_formed (List.length s) s (Nat.le_refl _) Hw) as (enc & He & Ho & Hc).
  exists enc. repeat split; trivial.
  unfold decoded. rewrite Ho. now apply decode_utf8_text with (n := List.length s).
Qed.

(** An unpaired surrogate makes it throw. *)
Lemma encodeURIComponent_lone_surrogate (c : code_unit) :
  is_lead c = true \/ is_trail c = true -> encodeURIComponent [c] = Throw URIError.
Proof.
  intros H. cbn [encodeURIComponent].
  destruct (unescaped c) eqn:Eu.
  { apply unescaped_not_surrogate in Eu as [E1 E2]. destruct H; congruence. }
  destruct (is_trail c); [reflexivity|]. destruct H as [->|H]; [reflexivity | discriminate].
Qed.

(** ** Well-formed texts *)

Lemma plain_app (a b : jsstring) : plain (a ++ b) = plain a && plain b.
Proof. apply forallb_app. Qed.

Lemma plain_js (s : string) : plain (js s) = true.
Proof.
  unfold plain, js. induction s as [|a s IH]; [reflexivity|].
  cbn [list_ascii_of_string map forallb]. rewrite IH, andb_true_r.
  apply between_true. pose proof (N_ascii_bounded a). lia.
Qed.

Lemma plain_well_formed (s : jsstring) : plain s = true -> well_formed s = true.
Proof.
  unfold plain. induction s as [|c s IH]; [reflexivity|].
  cbn [forallb well_formed]. intros H. apply andb_prop in H as [Hc Hs].
  apply between_spec in Hc.
  unfold is_trail, is_lead. rewrite !between_false by lia.
  rewrite between_true by lia. now apply IH.
Qed.

Lemma well_formed_app_n (n : nat) :
  forall a b, (List.length a <= n)%nat ->
    well_formed a = true -> well_formed b = true -> well_formed (a ++ b) = true.
Proof.
  induction n as [|n IH]; intros a b Hn Ha Hb.
  - destruct a; [exact Hb | cbn in Hn; lia].
  - destruct a as [|c rest]; [exact Hb|]. cbn [List.length] in Hn.
    destruct (well_formed_cons _ _ Ha) as [(Hl & Ht & Hr & Hrest)|(Hl & Ht & d & rest' & -> & Hd & Hrest)].
    + cbn [app well_formed]. rewrite Hl, Ht, between_true by lia.
      apply IH; trivial; lia.
    + cbn [List.length] in Hn. cbn [app well_formed]. rewrite Hl, Ht, Hd.
      apply IH; trivial; lia.
Qed.

Lemma well_formed_app (a b : jsstring) :
  well_formed a = true -> well_formed b = true -> well_formed (a ++ b) = true.
Proof. apply well_formed_app_n with (n := List.length a). lia. Qed.

End URIFacts.

(* ================================================================== *)
(** * Properties: the order message and its link                       *)
(* ================================================================== *)

Module MessageFacts.
Import Num URI URIFacts Checkout Sample.

Lemma includes_refl (s : jsstring) : includes s s.
Proof. exists [], []. now rewrite app_nil_r. Qed.

Lemma includes_trans (s t u : jsstring) : includes s t -> includes t u -> includes s u.
Proof.
  intros (p & q & ->) (p' & q' & ->). exists (p ++ p'), (q' ++ q).
  now rewrite <- !app_assoc.
Qed.

Lemma includes_join (sep : jsstring) (parts : list jsstring) (p : jsstring) :
  In p parts -> includes (join sep parts) p.
Proof.
  induction parts as [|q parts IH]; [contradiction|].
  intros [->|H].
  - destruct parts; cbn [join]; [apply includes_refl | apply includes_app_l, includes_refl].
  - specialize (IH H). destruct parts as [|r parts]; [contradiction|].
    cbn [join]. now apply includes_app_r, includes_app_r.
Qed.

Lemma well_formed_join (sep : jsstring) (parts : list jsstring) :
  well_formed sep = true -> forallb well_formed parts = true ->
  well_formed (join sep parts) = true.
Proof.
  intros Hs. induction parts as [|p parts IH]; [reflexivity|].
  cbn [forallb]. intros H. apply andb_prop in H as [Hp Hps].
  destruct parts as [|q parts]; [exact Hp|].
  change (join sep (p :: q :: parts)) with (p ++ sep ++ join sep (q :: parts)).
  auto using well_formed_app.
Qed.

Lemma plain_firstn (n : nat) (s : jsstring) : plain s = true -> plain (firstn n s) = true.
Proof.
  unfold plain. revert n; induction s as [|c s IH]; intros [|n] H; trivial.
  cbn in *. apply andb_prop in H as [Hc Hs]. now rewrite Hc, IH.
Qed.

Lemma plain_skipn (n : nat) (s : jsstring) : plain s = true -> plain (skipn n s) = true.
Proof.
  unfold plain. revert n; induction s as [|c s IH]; intros [|n] H; trivial.
  cbn in *. apply andb_prop in H as [Hc Hs]. now apply IH.
Qed.

Lemma plain_repeat (c : code_unit) (n : nat) :
  between 0 55295 c = true -> plain (repeat c n) = true.
Proof. intros H. unfold plain. induction n; cbn; [reflexivity | now rewrite H]. Qed.

Lemma plain_string_of_Z (z : Z) : plain (string_of_Z z) = true.
Proof.
  destruct z; unfold string_of_Z; rewrite ?plain_app, ?plain_js; reflexivity.
Qed.

Lemma plain_fixed2 (n : Z) : plain (fixed2 n) = true.
Proof.
  unfold fixed2.
  assert (H : plain (repeat 48%Z (3 - List.length (string_of_Z n)) ++ string_of_Z n) = true).
  { now rewrite plain_app, plain_repeat, plain_string_of_Z. }
  now rewrite !plain_app, plain_firstn, plain_skipn, plain_js.
Qed.

Lemma wf_js (s : string) : well_formed (js s) = true.
Proof. apply plain_well_formed, plain_js. Qed.

Section Composition.

Variable Number_toString : float -> jsstring.

Local Abbreviation item_line := (Checkout.item_line Number_toString).
Local Abbreviation message := (Checkout.message Number_toString).

(** What a line shows of its item: the product name, or Item when the
    product or its name is missing; the quantity, or 1 when the
    quantity is zero or no number. *)
Lemma item_line_shows (item : CartItem) :
  (forall p, products item = Some p -> includes (item_line item) (product_name p))
  /\ (falsy (quantity item) = false ->
        includes (item_line item) (js "(x" ++ Number_toString (quantity item) ++ js ")"))
  /\ (falsy (quantity item) = true ->
        includes (item_line item) (js "(x" ++ Number_toString 1 ++ js ")")).
Proof.
  unfold Checkout.item_line, or_num. split; [|split].
  - intros p Hp. unfold line_name. rewrite Hp.
    destruct (product_name p) as [|c name] eqn:En.
    + exists [], (js "- " ++ js "Item" ++ js " (x"
                   ++ Number_toString (if falsy (quantity item) then 1%float else quantity item)
                   ++ js ")"). reflexivity.
    + cbn [or_str]. apply includes_here.
  - intros ->. exists (js "- " ++ line_name item ++ js " "), [].
    rewrite <- !app_assoc. reflexivity.
  - intros ->. exists (js "- " ++ line_name item ++ js " "), [].
    rewrite <- !app_assoc. reflexivity.
Qed.

Lemma or_NA_shows (field : option jsstring) (text : jsstring) :
  field = Some text -> includes (or_NA field) text.
Proof.
  intros ->. destruct text; cbn; [exists [], (js "N/A"); reflexivity | apply includes_refl].
Qed.

Section WellFormed.

Hypothesis Number_toString_well_formed : forall x, well_formed (Number_toString x) = true.

Lemma toFixed2_well_formed (x : float) : well_formed (toFixed2 Number_toString x) = true.
Proof.
  unfold toFixed2.
  destruct (Prim2SF x) as [s|s| |s m e]; auto using wf_js.
  assert (Hsign : well_formed (if s then js "-" else []) = true) by now destruct s.
  destruct (at_least_1e21 m e); apply well_formed_app; auto.
  apply plain_well_formed, plain_fixed2.
Qed.

Lemma item_lines_well_formed (cartItems : list CartItem) :
  forallb well_formed (map line_name cartItems) = true ->
  forallb well_formed (map item_line cartItems) = true.
Proof.
  induction cartItems as [|item rest IH]; [reflexivity|].
  cbn [map forallb]. intros H. apply andb_prop in H as [Hn Hr].
  rewrite (IH Hr), andb_true_r. unfold Checkout.item_line.
  auto 10 using well_formed_app, wf_js.
Qed.

Lemma message_well_formed profile cartItems total :
  texts_well_formed profile cartItems = true ->
  well_formed (message profile cartItems total) = true.
Proof.
  unfold texts_well_formed, message_texts. cbn [forallb].
  intros H. apply andb_prop in H as [Hname H]. apply andb_prop in H as [Hphone H].
  apply andb_prop in H as [Haddress Hlines].
  assert (Hnl : well_formed nl = true) by reflexivity.
  assert (Hsign : well_formed cart_sign = true) by reflexivity.
  pose proof (toFixed2_well_formed total) as Htotal.
  pose proof (well_formed_join nl _ Hnl (item_lines_well_formed _ Hlines)) as Hjoin.
  unfold Checkout.message.
  repeat (apply well_formed_app; [|]); auto 10 using well_formed_app, wf_js.
Qed.

End WellFormed.

(** C4, as amended.  The text composed on success shows the profile's
    name, phone and address (N/A for one that is missing or empty), one
    line per cart item in cart order, each with the product name (Item
    when missing or empty) and the quantity, a zero or non-numeric
    quantity being shown as 1, and the total with two decimals after
    a dollar sign.  When the texts that go into it are well-formed the
    window is sent to the chat address followed by the percent-encoding
    of that text: a sequence of unescaped characters and escapes that
    reads back as the text. *)
Theorem order_message_and_link
        (profile : option Profile) (cartItems : list CartItem) (total : float) :
  let text := message profile cartItems total in
  (includes text (js "Name: " ++ or_NA (profile_field profile profile_name) ++ nl)
   /\ includes text (js "Phone: " ++ or_NA (profile_field profile phone) ++ nl)
   /\ includes text (js "Address: " ++ or_NA (profile_field profile address) ++ nl))
  /\ (forall p, profile = Some p ->
        (forall name, profile_name p = Some name -> includes text name)
        /\ (forall number, phone p = Some number -> includes text number)
        /\ (forall place, address p = Some place -> includes text place))
  /\ (exists head tail,
        text = head ++ join nl (map item_line cartItems) ++ tail
        /\ List.length (map item_line cartItems) = List.length cartItems)
  /\ (forall item, In item cartItems ->
        includes text (item_line item)
        /\ (forall p, products item = Some p -> includes text (product_name p))
        /\ (falsy (quantity item) = false ->
              includes text (js "(x" ++ Number_toString (quantity item) ++ js ")"))
        /\ (falsy (quantity item) = true ->
              includes text (js "(x" ++ Number_toString 1 ++ js ")")))
  /\ includes text (js "*Total Amount:* $" ++ toFixed2 Number_toString total)
  /\ ((forall x, well_formed (Number_toString x) = true) ->
      texts_well_formed profile cartItems = true ->
      exists encoded,
        snd (onSuccess Number_toString profile cartItems total)
        = Normal (link_prefix ++ encoded)
        /\ encodeURIComponent text = Normal encoded
        /\ forallb component_char encoded = true
        /\ decoded encoded = Some text).
Proof.
  intros text.
  set (name := or_NA (profile_field profile profile_name)).
  set (number := or_NA (profile_field profile phone)).
  set (place := or_NA (profile_field profile address)).
  set (lines := join nl (map item_line cartItems)).
  set (amount := toFixed2 Number_toString total).
  set (head := cart_sign ++ js " *New Order Received*" ++ nl ++ nl ++ js "*Customer Details*" ++ nl).
  set (foot := nl ++ nl ++ js "Please confirm the order.").
  assert (Hname : includes text (js "Name: " ++ name ++ nl)).
  { exists head, (js "Phone: " ++ number ++ nl ++ js "Address: " ++ place ++ nl ++ nl
                  ++ js "*Order Items*" ++ nl ++ lines ++ nl ++ nl
                  ++ js "*Total Amount:* $" ++ amount ++ foot).
    unfold text, Checkout.message, head, foot. now rewrite <- !app_assoc. }
  assert (Hphone : includes text (js "Phone: " ++ number ++ nl)).
  { exists (head ++ js "Name: " ++ name ++ nl),
           (js "Address: " ++ place ++ nl ++ nl
            ++ js "*Order Items*" ++ nl ++ lines ++ nl ++ nl
            ++ js "*Total Amount:* $" ++ amount ++ foot).
    unfold text, Checkout.message, head, foot. now rewrite <- !app_assoc. }
  assert (Haddress : includes text (js "Address: " ++ place ++ nl)).
  { exists (head ++ js "Name: " ++ name ++ nl ++ js "Phone: " ++ number ++ nl),
           (nl ++ js "*Order Items*" ++ nl ++ lines ++ nl ++ nl
            ++ js "*Total Amount:* $" ++ amount ++ foot).
    unfold text, Checkout.message, head, foot. now rewrite <- !app_assoc. }
  assert (Hlines : text = (head ++ js "Name: " ++ name ++ nl ++ js "Phone: " ++ number ++ nl
                           ++ js "Address: " ++ place ++ nl ++ nl ++ js "*Order Items*" ++ nl)
                          ++ lines
                          ++ (nl ++ nl ++ js "*Total Amount:* $" ++ amount ++ foot)).
  { unfold text, Checkout.message, head, foot. now rewrite <- !app_assoc. }
  assert (Hamount : includes text (js "*Total Amount:* $" ++ amount)).
  { exists (head ++ js "Name: " ++ name ++ nl ++ js "Phone: " ++ number ++ nl
            ++ js "Address: " ++ place ++ nl ++ nl ++ js "*Order Items*" ++ nl
            ++ lines ++ nl ++ nl), foot.
    unfold text, Checkout.message, head, foot. now rewrite <- !app_assoc. }
  assert (Hline : forall item, In item cartItems -> includes text (item_line item)).
  { intros item Hi. rewrite Hlines. apply includes_app_r, includes_app_l.
    apply includes_join. now apply in_map. }
  split; [auto|]. split; [|split; [|split; [|split]]].
  - intros p ->. cbn [profile_field] in *. repeat split.
    + intros x Hx. eapply includes_trans; [exact Hname|].
      apply includes_app_r, includes_app_l. subst name. now apply or_NA_shows.
    + intros x Hx. eapply includes_trans; [exact Hphone|].
      apply includes_app_r, includes_app_l. subst number. now apply or_NA_shows.
    + intros x Hx. eapply includes_trans; [exact Haddress|].
      apply includes_app_r, includes_app_l. subst place. now apply or_NA_shows.
  - eexists _, _. split; [exact Hlines | apply length_map].
  - intros item Hi. pose proof (Hline item Hi) as Hl.
    destruct (item_line_shows item) as (Hp & Hq & Hz).
    split; [exact Hl|]. split; [|split].
    + intros p Hprod. eapply includes_trans; [exact Hl | now apply Hp].
    + intros Hf. eapply includes_trans; [exact Hl | now apply Hq].
    + intros Hf. eapply includes_trans; [exact Hl | now apply Hz].
  - exact Hamount.
  - intros Hts Hwf.
    destruct (encodeURIComponent_round_trip text (message_well_formed Hts _ _ _ Hwf))
      as (encoded & He & Hc & _ & Hd).
    exists encoded. unfold onSuccess. cbn [snd]. fold text. rewrite He. auto.
Qed.

End Composition.

Lemma Number_toString_integral_well_formed (x : float) :
  well_formed (Number_toString_integral x) = true.
Proof.
  apply plain_well_formed. unfold Number_toString_integral.
  destruct (Prim2SF x) as [s|s| |s m e]; try reflexivity.
  - now destruct s.
  - destruct (at_least_1e21 m e); [reflexivity|].
    destruct (0 <=? e)%Z; [|destruct (Z.pos m mod 2 ^ (- e) =? 0)%Z]; try reflexivity;
      rewrite plain_app, plain_string_of_Z; now destruct s.
Qed.

(** The profile A, B, C and one line of two X: the window is sent to
    the chat address followed by an encoding that reads back as the
    composed text. *)
Lemma order_link_for_ABC_X2 :
  exists encoded,
    snd (onSuccess Number_toString_integral (Some profile_ABC) cart_X2 (total cart_X2))
    = Normal (link_prefix ++ encoded)
    /\ encodeURIComponent
         (message Number_toString_integral (Some profile_ABC) cart_X2 (total cart_X2))
       = Normal encoded
    /\ forallb component_char encoded = true
    /\ decoded encoded
       = Some (message Number_toString_integral (Some profile_ABC) cart_X2 (total cart_X2)).
Proof.
  apply (proj2 (proj2 (proj2 (proj2 (proj2
           (order_message_and_link Number_toString_integral
                                   (Some profile_ABC) cart_X2 (total cart_X2))))))).
  - exact Number_toString_integral_well_formed.
  - vm_compute. reflexivity.
Defined.

(** The same order, computed: the text holds the three profile values,
    the line of X with its quantity, and the total of 15 with two
    decimals; the link is the chat address followed by the encoding of
    the text, which starts with the escaped cart sign. *)
Example message_for_ABC_X2 :
  let text := message Number_toString_integral (Some profile_ABC) cart_X2 (total cart_X2) in
  includesb text (js "Name: A") = true
  /\ includesb text (js "Phone: B") = true
  /\ includesb text (js "Address: C") = true
  /\ includesb text (js "- X (x2)") = true
  /\ includesb text (js "*Total Amount:* $15.00") = true
  /\ match snd (onSuccess Number_toString_integral (Some profile_ABC) cart_X2 (total cart_X2)) with
     | Normal url =>
         startsWith url (js "https://wa.me/94741167143?text=%F0%9F%9B%92%20*New%20Order") = true
         /\ decoded (skipn (List.length link_prefix) url) = Some text
     | Throw _ => False
     end.
Proof.
  vm_compute. repeat split.
Qed.

(** C4, as the claim states it, fails on a cart line whose quantity is
    zero: its line shows a quantity of 1, and the digit of its quantity
    appears nowhere in the text. *)
Lemma zero_quantity_is_not_shown :
  ~ includes (message Number_toString_integral (Some profile_ABC) cart_with_zero_quantity
                      (total cart_with_zero_quantity))
             (Number_toString_integral (quantity (line "X" 1.25 0))).
Proof.
  intros H. apply includes_iff in H. vm_compute in H. discriminate.
Qed.

Example zero_quantity_line :
  item_line Number_toString_integral (line "X" 1.25 0) = js "- X (x1)"
  /\ Number_toString_integral (quantity (line "X" 1.25 0)) = js "0".
Proof. split; vm_compute; reflexivity. Qed.

End MessageFacts.

(* ================================================================== *)
(** * Properties: the order of the listings                             *)
(* ================================================================== *)

Module ListingFacts.
Import Listing.

Lemma str_leb_total (a b : jsstring) : str_leb a b = false -> str_leb b a = true.
Proof.
  revert b; induction a as [|x a IH]; intros [|y b]; cbn; try discriminate; trivial.
  intros H. apply orb_false_elim in H as [Hlt H].
  apply Z.ltb_ge in Hlt.
  destruct (Z.eqb_spec x y) as [->|Hne]; cbn in H.
  - rewrite Z.ltb_irrefl, Z.eqb_refl. cbn. now apply IH.
  - replace (y <? x)%Z with true; [reflexivity|]. symmetry. apply Z.ltb_lt. lia.
Qed.

Lemma insert_desc_perm (r : BlogRow) (rows : list BlogRow) :
  Permutation (insert_desc r rows) (r :: rows).
Proof.
  induction rows as [|r' rows IH]; cbn; [reflexivity|].
  destruct (str_leb (created_at r') (created_at r)); [reflexivity|].
  rewrite IH. apply perm_swap.
Qed.

Lemma order_desc_perm (rows : list BlogRow) :
  Permutation (order_created_at_desc rows) rows.
Proof.
  induction rows as [|r rows IH]; cbn; [reflexivity|].
  rewrite insert_desc_perm. now constructor.
Qed.

Lemma insert_desc_hd (r x : BlogRow) (rows : list BlogRow) :
  newer_first x r -> HdRel newer_first x rows -> HdRel newer_first x (insert_desc r rows).
Proof.
  intros Hx Hh. destruct rows as [|r' rows]; cbn; [now constructor|].
  destruct (str_leb (created_at r') (created_at r)); constructor; trivial.
  now inversion Hh.
Qed.

Lemma insert_desc_sorted (r : BlogRow) (rows : list BlogRow) :
  Sorted newer_first rows -> Sorted newer_first (insert_desc r rows).
Proof.
  induction 1 as [|r' rows Hs IH Hh]; cbn; [repeat constructor|].
  destruct (str_leb (created_at r') (created_at r)) eqn:E.
  - constructor; [now constructor | now constructor].
  - constructor; [exact IH|]. apply insert_desc_hd; [|exact Hh].
    unfold newer_first. now apply str_leb_total.
Qed.

Lemma order_desc_sorted (rows : list BlogRow) :
  Sorted newer_first (order_created_at_desc rows).
Proof.
  induction rows as [|r rows IH]; cbn; [constructor | now apply insert_desc_sorted].
Qed.

Lemma parse_rows_inv (JSON_parse : jsstring -> completion JSValue) (data : list BlogRow) :
  forall parsed,
    BlogsManagement.parse_rows JSON_parse data = Normal parsed ->
    map fst parsed = data
    /\ forall b media, In (b, media) parsed ->
         parseMedia JSON_parse (row_media b) = Normal media.
Proof.
  induction data as [|b data IH]; cbn; intros parsed H.
  - injection H as <-. split; [reflexivity | contradiction].
  - destruct (parseMedia JSON_parse (row_media b)) as [media|e] eqn:Em; cbn in H; [|discriminate].
    destruct (BlogsManagement.parse_rows JSON_parse data) as [more|e]; cbn in H; [|discriminate].
    injection H as <-. destruct (IH more eq_refl) as [Hm Hall].
    split; [cbn; now rewrite Hm|].
    intros b' media' [[= <- <-]|Hin]; [exact Em | now apply Hall].
Qed.

Lemma admin_query_ok (JSON_parse : jsstring -> completion JSValue) (s : state) :
  hd None (outcomes s) = None ->
  exists parsed,
    fst (BlogsManagement.queryFn JSON_parse s) = Normal parsed
    /\ BlogsManagement.parse_rows JSON_parse (order_created_at_desc (blogs s)) = Normal parsed.
Proof.
  intros Ho.
  destruct (MediaParserFacts.parse_rows_never_throws JSON_parse (order_created_at_desc (blogs s)))
    as (parsed & Hp & _).
  exists parsed. split; [|exact Hp].
  destruct s as [bk bl [|[e|] oc] rd]; cbn in Ho; try discriminate;
    unfold BlogsManagement.queryFn, mbind, blogs_select;
    cbn -[order_created_at_desc BlogsManagement.parse_rows]; cbn [blogs] in Hp; now rewrite Hp.
Qed.

(** X1. Both listings come back ordered by creation time, newest
    first, and hold each row they should exactly once: the admin
    listing every row of the table, the public listing every published
    row. *)
Theorem listings_are_newest_first
        (JSON_parse : jsstring -> completion JSValue) (s : state) :
  (forall parsed,
     fst (BlogsManagement.queryFn JSON_parse s) = Normal parsed ->
     Permutation (map fst parsed) (blogs s) /\ Sorted newer_first (map fst parsed))
  /\ (forall data,
        fst (BlogPage.queryFn s) = Normal data ->
        Permutation data (published (blogs s)) /\ Sorted newer_first data).
Proof.
  split.
  - intros parsed H.
    destruct (MediaParserFacts.admin_query_cases JSON_parse s)
      as [(e & rest & _ & Ht)|(parsed' & Hn & Hm)]; [congruence|].
    rewrite Hn in H. injection H as <-. rewrite Hm.
    split; [apply order_desc_perm | apply order_desc_sorted].
  - intros data H.
    destruct (BlogPageFacts.queryFn_cases s) as [(e & rest & _ & Ht)|[_ Hn]]; [congruence|].
    rewrite Hn in H. injection H as <-.
    split; [|apply order_desc_sorted].
    rewrite order_desc_perm. unfold BlogPage.eq_is_published, published.
    erewrite filter_ext; [reflexivity|]. intros r. now destruct (is_published r).
Qed.

(** The three sample posts, listed for the admin: all three, the
    newest first. *)
Lemma admin_listing_of_three_posts :
  Permutation
    (map fst [(Sample.post "3" "2025-01-03" true JSNull, JSArray []);
              (Sample.post "2" "2025-01-02" false (JSArray []), JSArray []);
              (Sample.post "1" "2025-01-01" true (JSArray []), JSArray [])])
    (blogs Sample.three_posts)
  /\ Sorted newer_first
       (map fst [(Sample.post "3" "2025-01-03" true JSNull, JSArray []);
                 (Sample.post "2" "2025-01-02" false (JSArray []), JSArray []);
                 (Sample.post "1" "2025-01-01" true (JSArray []), JSArray [])]).
Proof.
  apply (proj1 (listings_are_newest_first JsonText.decode Sample.three_posts)).
  vm_compute. reflexivity.
Defined.

(** X2. A media cell that does not parse never makes the admin listing
    fail or lose a row.  Whenever the store answers, the listing
    returns as many rows as the table holds, each with what the parser
    made of its cell, whatever the decoder does; the only error the
    listing throws is the store's own. *)
Theorem admin_listing_survives_any_cell
        (JSON_parse : jsstring -> completion JSValue) (s : state) :
  (hd None (outcomes s) = None ->
     exists parsed,
       fst (BlogsManagement.queryFn JSON_parse s) = Normal parsed
       /\ List.length parsed = List.length (blogs s)
       /\ map fst parsed = order_created_at_desc (blogs s)
       /\ forall b media, In (b, media) parsed ->
            parseMedia JSON_parse (row_media b) = Normal media)
  /\ (forall e, fst (BlogsManagement.queryFn JSON_parse s) = Throw e ->
        exists rest, outcomes s = Some e :: rest).
Proof.
  destruct (MediaParserFacts.admin_query_cases JSON_parse s)
    as [(e & rest & Ho & Ht)|(parsed & Hn & Hm)].
  - split; [rewrite Ho; discriminate|].
    intros e' H. rewrite Ht in H. injection H as <-. now exists rest.
  - split; [|intros e H; congruence].
    intros _. exists parsed. split; [exact Hn|].
    split; [|split; [exact Hm|]].
    + rewrite <- (length_map fst), Hm. apply Permutation_length, order_desc_perm.
    + destruct s as [bk bl [|[e|] oc] rd]; cbn in Hn; try discriminate;
        now apply (parse_rows_inv JSON_parse (order_created_at_desc bl)).
Qed.

(** A decoder that rejects every text: the three sample posts are
    still all listed. *)
Lemma admin_listing_with_failing_decoder :
  exists parsed,
    fst (BlogsManagement.queryFn (fun _ => Throw SyntaxError) Sample.three_posts) = Normal parsed
    /\ List.length parsed = List.length (blogs Sample.three_posts)
    /\ map fst parsed = order_created_at_desc (blogs Sample.three_posts)
    /\ forall b media, In (b, media) parsed ->
         parseMedia (fun _ => Throw SyntaxError) (row_media b) = Normal media.
Proof.
  apply (proj1 (admin_listing_survives_any_cell (fun _ => Throw SyntaxError) Sample.three_posts)).
  reflexivity.
Defined.

End ListingFacts.

(* ================================================================== *)
(** * Properties: what the editor's mutations leave behind              *)
(* ================================================================== *)

Module MutationFacts.
Import BlogsManagement EditorActions Scenes Sample.

Lemma str_eqb_refl (a : jsstring) : str_eqb a a = true.
Proof. induction a as [|x a IH]; cbn; [reflexivity | now rewrite Z.eqb_refl]. Qed.

Lemma str_eqb_eq (a b : jsstring) : str_eqb a b = true <-> a = b.
Proof.
  split; [|intros ->; apply str_eqb_refl].
  revert b; induction a as [|x a IH]; intros [|y b]; cbn; try discriminate; trivial.
  intros H. apply andb_prop in H as [Hx Ha]. apply Z.eqb_eq in Hx. now rewrite Hx, (IH b Ha).
Qed.

Lemma trimStart_spaces (text : jsstring) : forallb is_space text = true -> trimStart text = [].
Proof.
  induction text as [|c text IH]; cbn; [reflexivity|].
  intros H. apply andb_prop in H as [Hc Ht]. now rewrite Hc, IH.
Qed.

Lemma trim_spaces (text : jsstring) : forallb is_space text = true -> trim text = [].
Proof. intros H. unfold trim, trimEnd. now rewrite (trimStart_spaces text H). Qed.

Lemma skipn_tl {A} (n : nat) (l : list A) : tl (skipn n l) = skipn (S n) l.
Proof.
  revert l; induction n as [|n IH]; intros [|x l]; cbn; trivial.
Qed.

Lemma firstn_all_ok (k : nat) (rest : list (option JSError)) :
  Forall (eq (@None JSError)) (firstn k (repeat None k ++ rest)).
Proof. induction k; cbn; constructor; trivial. Qed.

Lemma skipn_all_ok (k : nat) (rest : list (option JSError)) :
  skipn k (repeat None k ++ rest) = rest.
Proof. induction k; cbn; trivial. Qed.

Section Runs.

Variable Date_now : nat -> Z.
Variable Math_random_toString36 : nat -> jsstring.
Variable getPublicUrl : jsstring -> jsstring.
Variable new_blog_id : state -> jsstring.
Variable new_created_at : state -> jsstring.

Local Abbreviation create user :=
  (createBlogMutation user Date_now Math_random_toString36 getPublicUrl new_blog_id new_created_at).
Local Abbreviation update user :=
  (updateBlogMutation user Date_now Math_random_toString36 getPublicUrl).
Local Abbreviation after user := (after_uploads user Date_now Math_random_toString36).
Local Abbreviation the_row user :=
  (created_row user Date_now Math_random_toString36 getPublicUrl new_blog_id new_created_at).
Local Abbreviation payload user :=
  (update_payload user Date_now Math_random_toString36 getPublicUrl).
Local Abbreviation objects user := (stored_objects user Date_now Math_random_toString36).

(** The course of a create all of whose calls succeed. *)
Lemma create_run_ok (u : User) (ed : Editor) (s : state) :
  trim (content ed) <> [] ->
  Forall (eq None) (firstn (S (List.length (newFiles ed))) (outcomes s)) ->
  create (Some u) ed s
  = (Normal tt,
     {| bucket := bucket (after (Some u) ed s);
        blogs := blogs s ++ [the_row (Some u) u ed s];
        outcomes := outcomes (after (Some u) ed s);
        readings := readings (after (Some u) ed s) |}).
Proof.
  intros Hc Hok. apply EditorFacts.all_ok_split in Hok as [Hup Hins].
  unfold createBlogMutation. destruct (trim (content ed)) as [|c t]; [now destruct Hc|].
  unfold mbind. rewrite UploadFacts.uploadFiles_is_loop, UploadFacts.loop_all_ok by exact Hup.
  unfold blogs_insert, next_outcome, created_row, uploaded, after_uploads.
  cbn [outcomes app bucket blogs readings]. rewrite <- !skipn_tl.
  destruct (skipn (List.length (newFiles ed)) (outcomes s)) as [|o rest]; cbn in Hins |- *.
  - reflexivity.
  - subst o. reflexivity.
Qed.

(** The course of an update all of whose calls succeed. *)
Lemma update_run_ok user (blog : Blog) (ed : Editor) (s : state) :
  editingBlog ed = Some blog ->
  trim (content ed) <> [] ->
  Forall (eq None) (firstn (S (List.length (newFiles ed))) (outcomes s)) ->
  update user ed s
  = (Normal tt,
     {| bucket := bucket (after user ed s);
        blogs := map (apply_update (payload user ed s) (b_id blog)) (blogs s);
        outcomes := outcomes (after user ed s);
        readings := readings (after user ed s) |}).
Proof.
  intros He Hc Hok. apply EditorFacts.all_ok_split in Hok as [Hup Hins].
  unfold updateBlogMutation. rewrite He.
  destruct (trim (content ed)) as [|c t]; [now destruct Hc|].
  unfold mbind. rewrite UploadFacts.uploadFiles_is_loop, UploadFacts.loop_all_ok by exact Hup.
  unfold blogs_update, next_outcome, update_payload, uploaded, after_uploads.
  cbn [outcomes app bucket blogs readings]. rewrite <- !skipn_tl.
  destruct (skipn (List.length (newFiles ed)) (outcomes s)) as [|o rest]; cbn in Hins |- *.
  - reflexivity.
  - subst o. reflexivity.
Qed.

(** X3. A post that was created shows up in the next listing.  After a
    create by a signed-in user with a content that is not blank, all of
    whose calls succeed, the table holds one more row; the admin
    listing fetched next holds that row with the uploaded media, parsed
    back as the very list that was saved; and the public listing
    fetched next holds it exactly when the post was published. *)
Theorem created_post_is_listed
        (JSON_parse : jsstring -> completion JSValue) (u : User) (ed : Editor) (s : state) :
  trim (content ed) <> [] ->
  Forall (eq None) (firstn (S (S (List.length (newFiles ed)))) (outcomes s)) ->
  fst (create (Some u) ed s) = Normal tt
  /\ blogs (snd (create (Some u) ed s)) = blogs s ++ [the_row (Some u) u ed s]
  /\ (exists parsed,
        fst (BlogsManagement.queryFn JSON_parse (snd (create (Some u) ed s))) = Normal parsed
        /\ In (the_row (Some u) u ed s,
               media_cell (uploaded (Some u) Date_now Math_random_toString36 getPublicUrl ed s))
              parsed)
  /\ (exists data,
        fst (BlogPage.queryFn (snd (create (Some u) ed s))) = Normal data
        /\ (In (the_row (Some u) u ed s) data <-> publish ed = true)).
Proof.
  intros Hc Hok. apply EditorFacts.all_ok_split in Hok as [Hok Hnext].
  rewrite (create_run_ok u ed s Hc Hok). cbn [fst snd].
  set (row := the_row (Some u) u ed s).
  set (s1 := {| bucket := bucket (after (Some u) ed s); blogs := blogs s ++ [row];
                outcomes := outcomes (after (Some u) ed s);
                readings := readings (after (Some u) ed s) |}).
  assert (Hin : In row (blogs s1)) by (cbn; apply in_or_app; right; now left).
  assert (Hhd : hd None (outcomes s1) = None) by exact Hnext.
  split; [reflexivity|]. split; [reflexivity|]. split.
  - destruct (ListingFacts.admin_query_ok JSON_parse s1 Hhd) as (parsed & Hq & Hp).
    exists parsed. split; [exact Hq|].
    destruct (ListingFacts.parse_rows_inv JSON_parse _ _ Hp) as [Hm Hall].
    assert (Hrow : In row (map fst parsed)).
    { rewrite Hm. now apply BlogPageFacts.In_order_desc. }
    apply in_map_iff in Hrow as ([b media] & Hb & Hbm). cbn in Hb. subst b.
    pose proof (Hall row media Hbm) as Hparse. cbn in Hparse.
    injection Hparse as <-. exact Hbm.
  - destruct (BlogPageFacts.queryFn_cases s1) as [(e & rest & Ho & _)|[_ Hq]].
    { rewrite Ho in Hhd. discriminate. }
    eexists. split; [exact Hq|].
    rewrite BlogPageFacts.In_order_desc, BlogPageFacts.In_eq_is_published. cbn. tauto.
Qed.

(** X4. Neither mutation reaches the store when its guard fails.  A
    create without a signed-in user throws Not authenticated; an update
    with no blog selected throws No blog selected; and a create or an
    update whose content is white space only throws Content is
    required.  In each case the store is left exactly as it was: no
    file is uploaded, no row is written, no call is made. *)
Theorem guarded_mutations_make_no_call (user : option User) (ed : Editor) (s : state) :
  create None ed s = (Throw (Error (js "Not authenticated")), s)
  /\ (editingBlog ed = None ->
        update user ed s = (Throw (Error (js "No blog selected")), s))
  /\ (forallb is_space (content ed) = true ->
        (forall u, create (Some u) ed s = (Throw (Error (js "Content is required")), s))
        /\ (forall blog, editingBlog ed = Some blog ->
              update user ed s = (Throw (Error (js "Content is required")), s))).
Proof.
  split; [reflexivity|]. split.
  - intros He. unfold updateBlogMutation. now rewrite He.
  - intros Hb. pose proof (trim_spaces _ Hb) as Ht. split.
    + intros u. unfold createBlogMutation. now rewrite Ht.
    + intros blog He. unfold updateBlogMutation. now rewrite He, Ht.
Qed.

(** The course of a create whose call at position [k] fails, the
    uploads being counted first and the write last. *)
Lemma create_fails_at (u : User) (ed : Editor) (s : state) k e rest :
  trim (content ed) <> [] ->
  outcomes s = repeat None k ++ Some e :: rest ->
  k <= List.length (newFiles ed) ->
  create (Some u) ed s
  = (Throw e,
     {| bucket := bucket s ++ objects (Some u) (readings s) (firstn k (newFiles ed));
        blogs := blogs s; outcomes := rest;
        readings := readings s + (if Nat.ltb k (List.length (newFiles ed)) then S k else k) |}).
Proof.
  intros Hc Ho Hk. unfold createBlogMutation.
  destruct (trim (content ed)) as [|c t]; [now destruct Hc|].
  unfold mbind. rewrite UploadFacts.uploadFiles_is_loop.
  destruct (Nat.ltb_spec k (List.length (newFiles ed))) as [Hlt|Hge].
  - now rewrite (UploadFacts.loop_fails_at _ _ _ _ _ k [] s e rest Ho Hlt).
  - assert (k = List.length (newFiles ed)) by lia. subst k.
    rewrite UploadFacts.loop_all_ok by (rewrite Ho; apply firstn_all_ok).
    unfold blogs_insert, next_outcome. cbn [outcomes].
    rewrite Ho, skipn_all_ok, firstn_all. reflexivity.
Qed.

Lemma update_fails_at user (blog : Blog) (ed : Editor) (s : state) k e rest :
  editingBlog ed = Some blog ->
  trim (content ed) <> [] ->
  outcomes s = repeat None k ++ Some e :: rest ->
  k <= List.length (newFiles ed) ->
  update user ed s
  = (Throw e,
     {| bucket := bucket s ++ objects user (readings s) (firstn k (newFiles ed));
        blogs := blogs s; outcomes := rest;
        readings := readings s + (if Nat.ltb k (List.length (newFiles ed)) then S k else k) |}).
Proof.
  intros He Hc Ho Hk. unfold updateBlogMutation. rewrite He.
  destruct (trim (content ed)) as [|c t]; [now destruct Hc|].
  unfold mbind. rewrite UploadFacts.uploadFiles_is_loop.
  destruct (Nat.ltb_spec k (List.length (newFiles ed))) as [Hlt|Hge].
  - now rewrite (UploadFacts.loop_fails_at _ _ _ _ _ k [] s e rest Ho Hlt).
  - assert (k = List.length (newFiles ed)) by lia. subst k.
    rewrite UploadFacts.loop_all_ok by (rewrite Ho; apply firstn_all_ok).
    unfold blogs_update, next_outcome. cbn [outcomes].
    rewrite Ho, skipn_all_ok, firstn_all. reflexivity.
Qed.

(** X5. A mutation that fails half-way leaves its uploads behind.  When
    the call at position [k] of a create or of an update fails (the
    uploads come first, the write last), the mutation throws that
    call's error and no row is written or changed, but the [k] files
    uploaded before it stay in the bucket: nothing removes them. *)
Theorem failed_mutation_keeps_its_uploads
        (user : option User) (ed : Editor) (s : state) k e rest :
  trim (content ed) <> [] ->
  outcomes s = repeat None k ++ Some e :: rest ->
  k <= List.length (newFiles ed) ->
  (forall u, user = Some u ->
     fst (create user ed s) = Throw e
     /\ blogs (snd (create user ed s)) = blogs s
     /\ bucket (snd (create user ed s))
        = bucket s ++ objects user (readings s) (firstn k (newFiles ed))
     /\ map snd (objects user (readings s) (firstn k (newFiles ed))) = firstn k (newFiles ed))
  /\ (forall blog, editingBlog ed = Some blog ->
        fst (update user ed s) = Throw e
        /\ blogs (snd (update user ed s)) = blogs s
        /\ bucket (snd (update user ed s))
           = bucket s ++ objects user (readings s) (firstn k (newFiles ed))).
Proof.
  intros Hc Ho Hk. split.
  - intros u ->. rewrite (create_fails_at u ed s k e rest Hc Ho Hk). cbn.
    repeat split. apply UploadFacts.objects_files.
  - intros blog He. rewrite (update_fails_at user blog ed s k e rest He Hc Ho Hk). cbn.
    repeat split.
Qed.

(** A create or an update that returned passed its guards. *)
Lemma create_normal_guard user (ed : Editor) (s : state) :
  fst (create user ed s) = Normal tt -> (exists u, user = Some u) /\ trim (content ed) <> [].
Proof.
  unfold createBlogMutation. destruct user as [u|]; [|discriminate].
  destruct (trim (content ed)); [discriminate|]. intros _. split; [now exists u | discriminate].
Qed.

Lemma update_normal_guard user (ed : Editor) (s : state) :
  fst (update user ed s) = Normal tt -> trim (content ed) <> [].
Proof.
  unfold updateBlogMutation. destruct (editingBlog ed); [|discriminate].
  destruct (trim (content ed)); [discriminate|]. intros _. discriminate.
Qed.

Lemma trim_nil_content (text : jsstring) : trim text <> [] -> firstn 60 text <> [].
Proof. destruct text; [intros H; now destruct H | intros _; cbn [firstn]; discriminate]. Qed.

Lemma title_of_not_blank (title content : jsstring) :
  trim content <> [] ->
  title_of title content = or_str (trim title) (firstn 60 content)
  /\ title_of title content <> [].
Proof.
  intros Hc. apply trim_nil_content in Hc. unfold title_of, slice0.
  generalize dependent (firstn 60 content). intros first Hc.
  destruct (trim title); cbn [or_str]; [|split; [reflexivity|discriminate]].
  destruct first; [now destruct Hc|]. split; [reflexivity|discriminate].
Qed.

Lemma excerpt_of_not_blank (content : jsstring) : content <> [] -> excerpt_of content <> [].
Proof.
  unfold excerpt_of, slice0. intros Hc.
  destruct (Nat.ltb 150 (List.length content)); [|exact Hc].
  destruct content; [now destruct Hc | discriminate].
Qed.

(** X6. A saved post always has a title, and it is never the word
    Untitled by default.  Whenever a create returns, the row it added
    has a title that is not empty and is the trimmed title of the form
    or, that being empty, the first 60 characters of the content; its
    content is not blank, and its excerpt is not empty and at most 153
    characters long.  An update that returns writes a payload of which
    the same holds.  So the third alternative of the title, Untitled,
    is never reached. *)
Theorem saved_title_is_never_the_fallback (user : option User) (ed : Editor) (s : state) :
  (fst (create user ed s) = Normal tt ->
     exists row excerpt,
       blogs (snd (create user ed s)) = blogs s ++ [row]
       /\ row_title row = or_str (trim (title ed)) (firstn 60 (content ed))
       /\ row_title row <> []
       /\ trim (row_content row) <> []
       /\ row_excerpt row = Some excerpt
       /\ excerpt <> [] /\ List.length excerpt <= 153)
  /\ (fst (update user ed s) = Normal tt ->
        exists blog p,
          editingBlog ed = Some blog
          /\ blogs (snd (update user ed s)) = map (apply_update p (b_id blog)) (blogs s)
          /\ p_title p = or_str (trim (title ed)) (firstn 60 (content ed))
          /\ p_title p <> []
          /\ trim (p_content p) <> []
          /\ p_excerpt p <> [] /\ List.length (p_excerpt p) <= 153).
Proof.
  split; intros Hn.
  - destruct (create_normal_guard user ed s Hn) as [_ Hc].
    pose proof (title_of_not_blank (title ed) (content ed) Hc) as [Ht Hne].
    revert Hn. unfold createBlogMutation. destruct user as [u|]; [|discriminate].
    destruct (trim (content ed)) as [|c t] eqn:Et; [discriminate|].
    unfold mbind. pose proof (EditorFacts.upload_keeps_blogs Date_now
                                Math_random_toString36 getPublicUrl (Some u) (newFiles ed) s) as Hb.
    destruct (uploadFiles (Some u) Date_now Math_random_toString36 getPublicUrl (newFiles ed) s)
      as [[up|e] s1]; cbn [snd] in Hb; [|discriminate].
    unfold blogs_insert. destruct (next_outcome s1) as [[e|] s2] eqn:En; cbn [fst snd]; [discriminate|].
    intros _. eexists _, _. cbn [fst snd blogs row_title row_content row_excerpt].
    assert (blogs s2 = blogs s1) as ->.
    { unfold next_outcome in En. destruct s1 as [bk bl [|o oc] rd]; cbn in En; now inversion En. }
    rewrite Hb. split; [reflexivity|]. split; [exact Ht|]. split; [exact Hne|].
    split; [cbn [row_content p_content]; rewrite Et; discriminate|]. split; [reflexivity|].
    split; [|apply EditorFacts.excerpt_of_length].
    apply excerpt_of_not_blank. intros E. rewrite E in Et. discriminate.
  - pose proof (update_normal_guard user ed s Hn) as Hc.
    pose proof (title_of_not_blank (title ed) (content ed) Hc) as [Ht Hne].
    revert Hn. unfold updateBlogMutation. destruct (editingBlog ed) as [blog|]; [|discriminate].
    destruct (trim (content ed)) as [|c t] eqn:Et; [discriminate|].
    unfold mbind. pose proof (EditorFacts.upload_keeps_blogs Date_now
                                Math_random_toString36 getPublicUrl user (newFiles ed) s) as Hb.
    destruct (uploadFiles user Date_now Math_random_toString36 getPublicUrl (newFiles ed) s)
      as [[up|e] s1]; cbn [snd] in Hb; [|discriminate].
    unfold blogs_update. destruct (next_outcome s1) as [[e|] s2] eqn:En; cbn [fst snd]; [discriminate|].
    intros _. eexists blog, _. cbn [fst snd blogs p_title p_content p_excerpt].
    assert (blogs s2 = blogs s1) as ->.
    { unfold next_outcome in En. destruct s1 as [bk bl [|o oc] rd]; cbn in En; now inversion En. }
    rewrite Hb. split; [reflexivity|]. split; [reflexivity|]. split; [exact Ht|].
    split; [exact Hne|]. split; [cbn [row_content p_content]; rewrite Et; discriminate|].
    split; [|apply EditorFacts.excerpt_of_length].
    apply excerpt_of_not_blank. intros E. rewrite E in Et. discriminate.
Qed.

Lemma map_apply_update_fields (p : Payload) (id : jsstring) (rows : list BlogRow) :
  map row_id (map (apply_update p id) rows) = map row_id rows
  /\ map created_at (map (apply_update p id) rows) = map created_at rows
  /\ map author_id (map (apply_update p id) rows) = map author_id rows.
Proof.
  rewrite !map_map. repeat split; apply map_ext; intros row; unfold apply_update;
    now destruct (str_eqb (row_id row) id).
Qed.

(** X9. What an update changes and what it keeps.  An update of a
    selected post with a content that is not blank, all of whose calls
    succeed, keeps the number of rows and every row's identifier,
    creation time and author; leaves the rows with another identifier
    as they were; and gives each row with the post's identifier the
    content and the publication flag of the form and, as media, the
    saved media still in the form followed by the newly uploaded
    media, in that order.  The bucket keeps all it had and gains the
    new files: removing a saved media item from the form deletes no
    object. *)
Theorem update_changes_the_selected_post_only
        (user : option User) (blog : Blog) (ed : Editor) (s : state) :
  editingBlog ed = Some blog ->
  trim (content ed) <> [] ->
  Forall (eq None) (firstn (S (List.length (newFiles ed))) (outcomes s)) ->
  fst (update user ed s) = Normal tt
  /\ List.length (blogs (snd (update user ed s))) = List.length (blogs s)
  /\ map row_id (blogs (snd (update user ed s))) = map row_id (blogs s)
  /\ map created_at (blogs (snd (update user ed s))) = map created_at (blogs s)
  /\ map author_id (blogs (snd (update user ed s))) = map author_id (blogs s)
  /\ (forall row, In row (blogs s) -> row_id row <> b_id blog ->
        In row (blogs (snd (update user ed s))))
  /\ (forall row, In row (blogs (snd (update user ed s))) -> row_id row = b_id blog ->
        row_content row = content ed
        /\ is_published row = publish ed
        /\ row_media row
           = media_cell (existingMedia ed
                         ++ uploaded user Date_now Math_random_toString36 getPublicUrl ed s))
  /\ bucket (snd (update user ed s))
     = bucket s ++ objects user (readings s) (newFiles ed)
  /\ map snd (objects user (readings s) (newFiles ed)) = newFiles ed.
Proof.
  intros He Hc Hok. rewrite (update_run_ok user blog ed s He Hc Hok). cbn [fst snd blogs bucket].
  destruct (map_apply_update_fields (payload user ed s) (b_id blog) (blogs s)) as (Hi & Ht & Ha).
  split; [reflexivity|]. split; [apply length_map|]. split; [exact Hi|]. split; [exact Ht|].
  split; [exact Ha|]. split; [|split; [|split; [reflexivity | apply UploadFacts.objects_files]]].
  - intros row Hin Hid. apply in_map_iff. exists row. split; [|exact Hin].
    unfold apply_update. destruct (str_eqb (row_id row) (b_id blog)) eqn:E; [|reflexivity].
    apply str_eqb_eq in E. contradiction.
  - intros row Hin Hid. apply in_map_iff in Hin as (old & <- & Hin).
    unfold apply_update in *. destruct (str_eqb (row_id old) (b_id blog)) eqn:E.
    + cbn. repeat split.
    + cbn in Hid. apply str_eqb_eq in Hid. congruence.
Qed.

Lemma In_deleted (id : jsstring) (rows : list BlogRow) (row : BlogRow) :
  In row (filter (fun row => negb (str_eqb (row_id row) id)) rows)
  <-> In row rows /\ row_id row <> id.
Proof.
  rewrite filter_In. split; intros [Hin H]; (split; [exact Hin|]).
  - intros E. apply str_eqb_eq in E. rewrite E in H. discriminate.
  - destruct (str_eqb (row_id row) id) eqn:E; [|reflexivity].
    apply str_eqb_eq in E. contradiction.
Qed.

(** The uploads only add to the bucket. *)
Lemma loop_bucket_grows user (files : list File) :
  forall uploaded s,
    exists more,
      bucket (snd (upload_loop user Date_now Math_random_toString36 getPublicUrl
                               files uploaded s)) = bucket s ++ more.
Proof.
  induction files as [|file files IH]; intros uploaded [bk bl oc rd].
  - exists []. cbn. now rewrite app_nil_r.
  - destruct oc as [|[e|] oc].
    + rewrite UploadFacts.loop_turn_ok by reflexivity.
      destruct (IH (uploaded ++ uploaded_items user Date_now Math_random_toString36
                                               getPublicUrl rd [file])
                  {| bucket := bk ++ objects user rd [file]; blogs := bl;
                     outcomes := tl []; readings := S rd |}) as (more & Hm).
      eexists. rewrite Hm. cbn [bucket]. now rewrite <- app_assoc.
    + rewrite UploadFacts.loop_turn_fail. exists []. cbn. now rewrite app_nil_r.
    + rewrite UploadFacts.loop_turn_ok by reflexivity.
      destruct (IH (uploaded ++ uploaded_items user Date_now Math_random_toString36
                                               getPublicUrl rd [file])
                  {| bucket := bk ++ objects user rd [file]; blogs := bl;
                     outcomes := tl (None :: oc); readings := S rd |}) as (more & Hm).
      eexists. rewrite Hm. cbn [bucket]. now rewrite <- app_assoc.
Qed.

(** X11. What a submit leaves behind.  The form either is reset, with
    one notice of success, or is kept as it was, with one notice of
    failure whose text is never empty; a failed submit changes no row.
    A submit while a post is being edited never adds or removes a row,
    and a submit of a new post changes no row there was.  No submit
    removes an object from the bucket. *)
Theorem submit_resets_or_keeps_the_form
        (user : option User) (builtin_message : JSError -> jsstring) (ed : Editor) (s : state) :
  let run := handleSubmit user Date_now Math_random_toString36 getPublicUrl
                          new_blog_id new_created_at builtin_message ed s in
  ((fst (fst run) = resetForm ed
    /\ (snd (fst run) = [toast_success (js "Blog created successfully")]
        \/ snd (fst run) = [toast_success (js "Blog updated successfully")]))
   \/ (fst (fst run) = ed
       /\ (exists text, snd (fst run) = [toast_error text] /\ text <> [])
       /\ blogs (snd run) = blogs s))
  /\ (editingBlog ed <> None -> map row_id (blogs (snd run)) = map row_id (blogs s))
  /\ (editingBlog ed = None ->
        exists more, blogs (snd run) = blogs s ++ more /\ List.length more <= 1)
  /\ (exists more, bucket (snd run) = bucket s ++ more).
Proof.
  assert (Hor : forall a b, b <> [] -> or_str a b <> []).
  { intros a b Hb. destruct a; [exact Hb | discriminate]. }
  assert (Hbucket : forall usr files s0,
             exists more,
               bucket (snd (uploadFiles usr Date_now Math_random_toString36 getPublicUrl
                                        files s0)) = bucket s0 ++ more).
  { intros usr files s0. rewrite UploadFacts.uploadFiles_is_loop.
    apply loop_bucket_grows. }
  assert (Hnext : forall s1 o s2, next_outcome s1 = (o, s2) ->
                                  blogs s2 = blogs s1 /\ bucket s2 = bucket s1).
  { intros [bk bl [|o' oc] rd] o s2 E; cbn in E; inversion E; now split. }
  cbv zeta. unfold handleSubmit. destruct (editingBlog ed) as [blog|] eqn:He.
  - unfold mutate_update, updateBlogMutation. rewrite He.
    destruct (trim (content ed)) as [|c t].
    { cbn. split; [right; split; [reflexivity|split; [|reflexivity]]; eexists; split;
                   [reflexivity|discriminate]|].
      split; [reflexivity|]. split; [discriminate|]. exists []. now rewrite app_nil_r. }
    unfold mbind.
    pose proof (EditorFacts.upload_keeps_blogs Date_now Math_random_toString36 getPublicUrl
                  user (newFiles ed) s) as Hb.
    destruct (Hbucket user (newFiles ed) s) as (more & Hm).
    destruct (uploadFiles user Date_now Math_random_toString36 getPublicUrl (newFiles ed) s)
      as [[up|e] s1]; cbn [fst snd] in *.
    + unfold blogs_update. destruct (next_outcome s1) as [[e|] s2] eqn:En;
        destruct (Hnext _ _ _ En) as [Hn1 Hn2]; unfold throw, ret; cbn [fst snd blogs bucket].
      * split; [right; split; [reflexivity|split; [|congruence]]; eexists; split;
                [reflexivity|apply Hor; discriminate]|].
        split; [intros _; congruence|]. split; [discriminate|]. exists more. congruence.
      * split; [left; split; [reflexivity|now right]|].
        split; [intros _; rewrite Hn1, Hb;
                apply (map_apply_update_fields _ (b_id blog) (blogs s))|].
        split; [discriminate|]. exists more. congruence.
    + split; [right; split; [reflexivity|split; [|exact Hb]]; eexists; split;
              [reflexivity|apply Hor; discriminate]|].
      split; [intros _; congruence|]. split; [discriminate|]. exists more. exact Hm.
  - unfold mutate_create, createBlogMutation. destruct user as [u|].
    2:{ cbn. split; [right; split; [reflexivity|split; [|reflexivity]]; eexists; split;
                     [reflexivity|discriminate]|].
        split; [intros H; now destruct H|]. split; [|exists []; now rewrite app_nil_r].
        intros _. exists []. rewrite app_nil_r. split; [reflexivity|cbn; lia]. }
    destruct (trim (content ed)) as [|c t].
    { cbn. split; [right; split; [reflexivity|split; [|reflexivity]]; eexists; split;
                   [reflexivity|discriminate]|].
      split; [intros H; now destruct H|]. split; [|exists []; now rewrite app_nil_r].
      intros _. exists []. rewrite app_nil_r. split; [reflexivity|cbn; lia]. }
    unfold mbind.
    pose proof (EditorFacts.upload_keeps_blogs Date_now Math_random_toString36 getPublicUrl
                  (Some u) (newFiles ed) s) as Hb.
    destruct (Hbucket (Some u) (newFiles ed) s) as (more & Hm).
    destruct (uploadFiles (Some u) Date_now Math_random_toString36 getPublicUrl (newFiles ed) s)
      as [[up|e] s1]; cbn [fst snd] in *.
    + unfold blogs_insert. destruct (next_outcome s1) as [[e|] s2] eqn:En;
        destruct (Hnext _ _ _ En) as [Hn1 Hn2]; unfold throw, ret; cbn [fst snd blogs bucket].
      * split; [right; split; [reflexivity|split; [|congruence]]; eexists; split;
                [reflexivity|apply Hor; discriminate]|].
        split; [intros H; now destruct H|]. split; [|exists more; congruence].
        intros _. exists []. rewrite app_nil_r. split; [congruence|cbn; lia].
      * split; [left; split; [reflexivity|now left]|].
        split; [intros H; now destruct H|]. split; [|exists more; congruence].
        intros _. eexists [_]. rewrite Hn1, Hb. split; [reflexivity|cbn; lia].
    + split; [right; split; [reflexivity|split; [|exact Hb]]; eexists; split;
              [reflexivity|apply Hor; discriminate]|].
      split; [intros H; now destruct H|]. split; [|exists more; exact Hm].
      intros _. exists []. rewrite app_nil_r. split; [exact Hb|cbn; lia].
Qed.

(** X12. A retry after a failed write uploads the files again.  When
    every upload of a create succeeds and the write of the row fails,
    the notice raised is the store's message and the form is kept; a
    second submit of the kept form, all of whose calls succeed, stores
    one row only, but the bucket then holds every file of the form
    twice, under different paths. *)
Theorem retry_uploads_the_files_again
        (u : User) (builtin_message : JSError -> jsstring) (ed : Editor) (s : state)
        (e : JSError) (tail : list (option JSError)) :
  editingBlog ed = None ->
  trim (content ed) <> [] ->
  outcomes s = repeat None (List.length (newFiles ed)) ++ Some e
               :: repeat None (S (List.length (newFiles ed))) ++ tail ->
  let submit := handleSubmit (Some u) Date_now Math_random_toString36 getPublicUrl
                             new_blog_id new_created_at builtin_message in
  let first := submit ed s in
  let second := submit (fst (fst first)) (snd first) in
  fst (fst first) = ed
  /\ snd (fst first)
     = [toast_error (or_str (message_of builtin_message e) (js "Failed to create blog"))]
  /\ blogs (snd first) = blogs s
  /\ fst (fst second) = resetForm ed
  /\ (exists row, blogs (snd second) = blogs s ++ [row])
  /\ map snd (bucket (snd second)) = map snd (bucket s) ++ newFiles ed ++ newFiles ed.
Proof.
  intros He Hc Ho.
  pose proof (create_fails_at u ed s _ e _ Hc Ho (Nat.le_refl _)) as H1.
  rewrite Nat.ltb_irrefl, firstn_all in H1.
  match type of H1 with _ = (_, ?s1) =>
    assert (H2 : Forall (eq None) (firstn (S (List.length (newFiles ed))) (outcomes s1)))
      by apply (firstn_all_ok (S (List.length (newFiles ed))));
    pose proof (create_run_ok u ed s1 Hc H2) as H3
  end.
  cbv zeta. unfold handleSubmit. rewrite He. unfold mutate_create. rewrite H1. cbn [fst snd].
  rewrite He. unfold mutate_create. rewrite H3. cbn [fst snd blogs bucket after_uploads].
  split; [reflexivity|]. split; [reflexivity|]. split; [reflexivity|]. split; [reflexivity|].
  split; [eexists; reflexivity|].
  rewrite !map_app, !UploadFacts.objects_files. now rewrite <- app_assoc.
Qed.

(** X22. Opening a post in the editor and saving it unchanged leaves
    the table as it was.  For a row as the editor writes it (a title
    that is trimmed and not empty, a content that is not blank, the
    editor's excerpt, a media list) whose identifier no other row
    has, [handleEdit] on the listed row followed by an update that
    the store accepts gives back the same rows, and uploads nothing. *)
Theorem edit_and_save_unchanged_is_identity
        (user : option User) (row : BlogRow) (items : list MediaItem) (ed0 : Editor)
        (s : state) :
  In row (blogs s) ->
  (forall other, In other (blogs s) -> row_id other = row_id row -> other = row) ->
  row_media row = media_cell items ->
  trim (row_content row) <> [] ->
  trim (row_title row) = row_title row ->
  row_title row <> [] ->
  row_excerpt row = Some (excerpt_of (row_content row)) ->
  hd None (outcomes s) = None ->
  fst (update user (handleEdit (as_Blog row items) ed0) s) = Normal tt
  /\ blogs (snd (update user (handleEdit (as_Blog row items) ed0) s)) = blogs s
  /\ bucket (snd (update user (handleEdit (as_Blog row items) ed0) s)) = bucket s.
Proof.
  intros Hin Huniq Hmedia Hcontent Htrim Htitle Hexcerpt Hok.
  set (ed := handleEdit (as_Blog row items) ed0).
  assert (Hc : content ed = row_content row).
  { cbn. destruct (row_content row); [now destruct Hcontent | reflexivity]. }
  assert (Ht : title ed = row_title row).
  { cbn. now destruct (row_title row). }
  assert (Hrun := update_run_ok user (as_Blog row items) ed s eq_refl).
  rewrite Hc in Hrun. specialize (Hrun Hcontent).
  assert (Hall : Forall (eq None) (firstn (S (List.length (newFiles ed))) (outcomes s))).
  { cbn. destruct (outcomes s) as [|o rest]; constructor; [now cbn in Hok | constructor]. }
  rewrite (Hrun Hall). cbn [fst snd blogs bucket after_uploads newFiles ed handleEdit
                            stored_objects]. rewrite app_nil_r.
  split; [reflexivity|]. split; [|reflexivity].
  rewrite <- (map_id (blogs s)) at 2. apply map_ext_in. intros other Hother.
  unfold apply_update. cbn [b_id as_Blog].
  destruct (str_eqb (row_id other) (row_id row)) eqn:E; [|reflexivity].
  apply str_eqb_eq in E. rewrite (Huniq other Hother E).
  unfold update_payload, uploaded.
  cbn [p_title p_content p_excerpt p_media p_is_published existingMedia newFiles publish
       handleEdit as_Blog b_media b_is_published or_media uploaded_items ed].
  fold ed. rewrite Hc, Ht, app_nil_r, <- Hmedia, <- Hexcerpt.
  assert (Htt : title_of (row_title row) (row_content row) = row_title row).
  { unfold title_of. rewrite Htrim. destruct (row_title row); [now destruct Htitle | reflexivity]. }
  rewrite Htt. now destruct row.
Qed.

End Runs.

(** The staged sample post, created on an empty store. *)
Lemma staged_post_is_listed :
  fst (createBlogMutation admin clock random36 public_url row_ident row_stamp
                          staged_post (empty_store [])) = Normal tt
  /\ blogs (snd (createBlogMutation admin clock random36 public_url row_ident row_stamp
                                    staged_post (empty_store [])))
     = blogs (empty_store [])
       ++ [created_row admin clock random36 public_url row_ident row_stamp
                       {| user_id := js "admin" |} staged_post (empty_store [])]
  /\ (exists parsed,
        fst (BlogsManagement.queryFn JsonText.decode
               (snd (createBlogMutation admin clock random36 public_url row_ident row_stamp
                                        staged_post (empty_store [])))) = Normal parsed
        /\ In (created_row admin clock random36 public_url row_ident row_stamp
                           {| user_id := js "admin" |} staged_post (empty_store []),
               media_cell (uploaded admin clock random36 public_url staged_post (empty_store [])))
              parsed)
  /\ (exists data,
        fst (BlogPage.queryFn
               (snd (createBlogMutation admin clock random36 public_url row_ident row_stamp
                                        staged_post (empty_store [])))) = Normal data
        /\ (In (created_row admin clock random36 public_url row_ident row_stamp
                            {| user_id := js "admin" |} staged_post (empty_store [])) data
            <-> publish staged_post = true)).
Proof.
  apply (created_post_is_listed clock random36 public_url row_ident row_stamp
                                JsonText.decode {| user_id := js "admin" |}
                                staged_post (empty_store [])).
  - vm_compute. discriminate.
  - vm_compute. constructor.
Defined.

(** A form whose content is spaces, a line feed, a tab and a no-break
    space, with a picture staged: the create throws and the picture is
    not uploaded. *)
Lemma blank_post_is_refused :
  (forall u,
     createBlogMutation (Some u) clock random36 public_url row_ident row_stamp
                        blank_post (empty_store [])
     = (Throw (Error (js "Content is required")), empty_store []))
  /\ (forall blog, editingBlog blank_post = Some blog ->
        updateBlogMutation admin clock random36 public_url blank_post (empty_store [])
        = (Throw (Error (js "Content is required")), empty_store [])).
Proof.
  apply (proj2 (proj2 (guarded_mutations_make_no_call
                         clock random36 public_url row_ident row_stamp
                         admin blank_post (empty_store [])))).
  reflexivity.
Defined.

(** The staged sample post, its three uploads going through and the
    write failing: no row, three objects left in the bucket. *)
Lemma staged_post_write_fails :
  (forall u, admin = Some u ->
     fst (createBlogMutation admin clock random36 public_url row_ident row_stamp staged_post
                             (empty_store [None; None; None; Some store_failure]))
     = Throw store_failure
     /\ blogs (snd (createBlogMutation admin clock random36 public_url row_ident row_stamp
                                       staged_post
                                       (empty_store [None; None; None; Some store_failure])))
        = blogs (empty_store [None; None; None; Some store_failure])
     /\ bucket (snd (createBlogMutation admin clock random36 public_url row_ident row_stamp
                                        staged_post
                                        (empty_store [None; None; None; Some store_failure])))
        = bucket (empty_store [None; None; None; Some store_failure])
          ++ stored_objects admin clock random36
               (readings (empty_store [None; None; None; Some store_failure]))
               (firstn 3 (newFiles staged_post))
     /\ map snd (stored_objects admin clock random36
                    (readings (empty_store [None; None; None; Some store_failure]))
                    (firstn 3 (newFiles staged_post)))
        = firstn 3 (newFiles staged_post))
  /\ (forall blog, editingBlog staged_post = Some blog ->
        fst (updateBlogMutation admin clock random36 public_url staged_post
                                (empty_store [None; None; None; Some store_failure]))
        = Throw store_failure
        /\ blogs (snd (updateBlogMutation admin clock random36 public_url staged_post
                                          (empty_store [None; None; None; Some store_failure])))
           = blogs (empty_store [None; None; None; Some store_failure])
        /\ bucket (snd (updateBlogMutation admin clock random36 public_url staged_post
                                           (empty_store [None; None; None; Some store_failure])))
           = bucket (empty_store [None; None; None; Some store_failure])
             ++ stored_objects admin clock random36
                  (readings (empty_store [None; None; None; Some store_failure]))
                  (firstn 3 (newFiles staged_post))).
Proof.
  apply (failed_mutation_keeps_its_uploads clock random36 public_url row_ident row_stamp
           admin staged_post (empty_store [None; None; None; Some store_failure])
           3 store_failure []).
  - vm_compute. discriminate.
  - reflexivity.
  - vm_compute. lia.
Defined.

(** The staged sample post, created on an empty store. *)
Lemma staged_post_title :
  exists row excerpt,
    blogs (snd (createBlogMutation admin clock random36 public_url row_ident row_stamp
                                   staged_post (empty_store [])))
    = blogs (empty_store []) ++ [row]
    /\ row_title row = or_str (trim (title staged_post)) (firstn 60 (content staged_post))
    /\ row_title row <> []
    /\ trim (row_content row) <> []
    /\ row_excerpt row = Some excerpt
    /\ excerpt <> [] /\ List.length excerpt <= 153.
Proof.
  apply (proj1 (saved_title_is_never_the_fallback clock random36 public_url row_ident row_stamp
                  admin staged_post (empty_store []))).
  reflexivity.
Defined.

(** Post 1 of the table of three posts edited: one saved picture kept,
    one clip added; posts 2 and 3 are in the table too. *)
Lemma edited_post_is_updated :
  fst (updateBlogMutation admin clock random36 public_url edited_post three_posts)
  = Normal tt
  /\ List.length (blogs (snd (updateBlogMutation admin clock random36 public_url edited_post
                                                  three_posts)))
     = List.length (blogs three_posts)
  /\ map row_id (blogs (snd (updateBlogMutation admin clock random36 public_url edited_post
                                                 three_posts)))
     = map row_id (blogs three_posts)
  /\ map created_at (blogs (snd (updateBlogMutation admin clock random36 public_url edited_post
                                                     three_posts)))
     = map created_at (blogs three_posts)
  /\ map author_id (blogs (snd (updateBlogMutation admin clock random36 public_url edited_post
                                                    three_posts)))
     = map author_id (blogs three_posts)
  /\ (forall row, In row (blogs three_posts) -> row_id row <> b_id (listed "1") ->
        In row (blogs (snd (updateBlogMutation admin clock random36 public_url edited_post
                                               three_posts))))
  /\ (forall row,
        In row (blogs (snd (updateBlogMutation admin clock random36 public_url edited_post
                                               three_posts))) ->
        row_id row = b_id (listed "1") ->
        row_content row = content edited_post
        /\ is_published row = publish edited_post
        /\ row_media row
           = media_cell (existingMedia edited_post
                         ++ uploaded admin clock random36 public_url edited_post
                                     three_posts))
  /\ bucket (snd (updateBlogMutation admin clock random36 public_url edited_post
                                     three_posts))
     = bucket three_posts
       ++ stored_objects admin clock random36 (readings three_posts)
                         (newFiles edited_post)
  /\ map snd (stored_objects admin clock random36 (readings three_posts)
                             (newFiles edited_post))
     = newFiles edited_post.
Proof.
  apply (update_changes_the_selected_post_only clock random36 public_url
           admin (listed "1") edited_post three_posts).
  - reflexivity.
  - vm_compute. discriminate.
  - vm_compute. constructor.
Defined.

(** The table it leaves: post 1 with the new content, unpublished, with
    the kept picture and the uploaded clip as its media; posts 2 and 3
    as they were. *)
Example edited_post_rows :
  map (fun row => (row_id row, row_content row, is_published row))
      (blogs (snd (updateBlogMutation admin clock random36 public_url edited_post three_posts)))
  = [(js "1", js "New body", false); (js "2", js "Body", false); (js "3", js "Body", true)]
  /\ map row_media
         (blogs (snd (updateBlogMutation admin clock random36 public_url edited_post
                                         three_posts)))
     = [media_cell [image_at "old";
                    {| media_type := video;
                       media_url := public_url (storage_path admin clock random36 0
                                                             (mp4 "c.mp4")) |}];
        JSArray []; JSNull].
Proof. split; vm_compute; reflexivity. Qed.

(** The staged sample post: three uploads, a failed write, and a second
    submit that goes through. *)
Lemma staged_post_retried :
  let s := empty_store [None; None; None; Some store_failure; None; None; None; None] in
  let submit := handleSubmit admin clock random36 public_url row_ident row_stamp
                             engine_message in
  let first := submit staged_post s in
  let second := submit (fst (fst first)) (snd first) in
  fst (fst first) = staged_post
  /\ snd (fst first)
     = [toast_error (or_str (message_of engine_message store_failure)
                            (js "Failed to create blog"))]
  /\ blogs (snd first) = blogs s
  /\ fst (fst second) = resetForm staged_post
  /\ (exists row, blogs (snd second) = blogs s ++ [row])
  /\ map snd (bucket (snd second))
     = map snd (bucket s) ++ newFiles staged_post ++ newFiles staged_post.
Proof.
  apply (retry_uploads_the_files_again clock random36 public_url row_ident row_stamp
           {| user_id := js "admin" |} engine_message staged_post
           (empty_store [None; None; None; Some store_failure; None; None; None; None])
           store_failure []).
  - reflexivity.
  - vm_compute. discriminate.
  - reflexivity.
Defined.

(** X10. A delete removes the rows with the given identifier and
    nothing else.  When the store answers the call, the table keeps
    exactly the rows with another identifier, the bucket is left as it
    was (the media files of the deleted post are not removed), one
    notice of success is raised, and deleting the same identifier
    again changes nothing.  When the store fails the call, the table
    is unchanged and the notice is the fixed text Failed to delete
    blog, whatever the store's message. *)
Theorem delete_removes_that_post_only (id : jsstring) (s : state) :
  (hd None (outcomes s) = None ->
     fst (deleteBlogMutation id s) = Normal tt
     /\ (forall row, In row (blogs (snd (deleteBlogMutation id s)))
                     <-> In row (blogs s) /\ row_id row <> id)
     /\ bucket (snd (deleteBlogMutation id s)) = bucket s
     /\ fst (mutate_delete id s) = [toast_success (js "Blog deleted successfully")]
     /\ (hd None (outcomes (snd (deleteBlogMutation id s))) = None ->
           blogs (snd (deleteBlogMutation id (snd (deleteBlogMutation id s))))
           = blogs (snd (deleteBlogMutation id s))))
  /\ (forall e rest, outcomes s = Some e :: rest ->
        fst (deleteBlogMutation id s) = Throw e
        /\ blogs (snd (deleteBlogMutation id s)) = blogs s
        /\ bucket (snd (deleteBlogMutation id s)) = bucket s
        /\ fst (mutate_delete id s) = [toast_error (js "Failed to delete blog")]).
Proof.
  assert (Hrun : forall s0, hd None (outcomes s0) = None ->
            deleteBlogMutation id s0
            = (Normal tt,
               {| bucket := bucket s0;
                  blogs := filter (fun row => negb (str_eqb (row_id row) id)) (blogs s0);
                  outcomes := tl (outcomes s0); readings := readings s0 |})).
  { intros [bk bl [|o oc] rd] H; cbn in H; [|subst o]; reflexivity. }
  split.
  - intros Ho. unfold mutate_delete. rewrite (Hrun s Ho). cbn [fst snd blogs bucket outcomes].
    split; [reflexivity|]. split; [intros row; apply In_deleted|].
    split; [reflexivity|]. split; [reflexivity|].
    intros Ho'. rewrite Hrun by exact Ho'. cbn [snd blogs].
    apply forallb_filter_id. apply forallb_forall. intros row Hin.
    apply filter_In in Hin. tauto.
  - intros e rest Ho. unfold mutate_delete. destruct s as [bk bl oc rd]. cbn in Ho. subst oc.
    cbn. repeat split.
Qed.

Lemma delete_post_2 :
  fst (deleteBlogMutation (js "2") three_posts) = Normal tt
  /\ (forall row, In row (blogs (snd (deleteBlogMutation (js "2") three_posts)))
                  <-> In row (blogs three_posts) /\ row_id row <> js "2")
  /\ bucket (snd (deleteBlogMutation (js "2") three_posts)) = bucket three_posts
  /\ fst (mutate_delete (js "2") three_posts) = [toast_success (js "Blog deleted successfully")]
  /\ (hd None (outcomes (snd (deleteBlogMutation (js "2") three_posts))) = None ->
        blogs (snd (deleteBlogMutation (js "2") (snd (deleteBlogMutation (js "2") three_posts))))
        = blogs (snd (deleteBlogMutation (js "2") three_posts))).
Proof.
  apply (proj1 (delete_removes_that_post_only (js "2") three_posts)). reflexivity.
Defined.

(** The row the staged sample post is stored as, opened and saved. *)
Lemma saved_row_reopened :
  let row := created_row admin clock random36 public_url row_ident row_stamp
                         {| user_id := js "admin" |} staged_post (empty_store []) in
  let items := uploaded admin clock random36 public_url staged_post (empty_store []) in
  let s := {| bucket := []; blogs := [post "0" "2024-12-31" true JSNull; row];
              outcomes := []; readings := 3 |} in
  fst (updateBlogMutation admin clock random36 public_url
                          (handleEdit (as_Blog row items) empty_form) s) = Normal tt
  /\ blogs (snd (updateBlogMutation admin clock random36 public_url
                                    (handleEdit (as_Blog row items) empty_form) s)) = blogs s
  /\ bucket (snd (updateBlogMutation admin clock random36 public_url
                                     (handleEdit (as_Blog row items) empty_form) s)) = bucket s.
Proof.
  apply (edit_and_save_unchanged_is_identity clock random36 public_url admin
           (created_row admin clock random36 public_url row_ident row_stamp
                        {| user_id := js "admin" |} staged_post (empty_store []))
           (uploaded admin clock random36 public_url staged_post (empty_store []))
           empty_form
           {| bucket := [];
              blogs := [post "0" "2024-12-31" true JSNull;
                        created_row admin clock random36 public_url row_ident row_stamp
                                    {| user_id := js "admin" |} staged_post (empty_store [])];
              outcomes := []; readings := 3 |}).
  - right. left. reflexivity.
  - intros other [<- | [<- | []]]; [vm_compute; discriminate | reflexivity].
  - reflexivity.
  - vm_compute. discriminate.
  - vm_compute. reflexivity.
  - vm_compute. discriminate.
  - reflexivity.
  - reflexivity.
Defined.

(** Post 1 edited and submitted on the table of three posts. *)
Lemma edited_post_submitted :
  map row_id (blogs (snd (handleSubmit admin clock random36 public_url row_ident row_stamp
                                       engine_message edited_post three_posts)))
  = map row_id (blogs three_posts).
Proof.
  apply (proj1 (proj2 (submit_resets_or_keeps_the_form
                         clock random36 public_url row_ident row_stamp
                         admin engine_message edited_post three_posts))).
  discriminate.
Defined.

End MutationFacts.

(* ================================================================== *)
(** * Properties: storage paths                                         *)
(* ================================================================== *)

Module PathFacts.
Import BlogsManagement.

Lemma split_on_not_nil (sep : code_unit) (s : jsstring) :
  forall cur, split_on sep s cur <> [].
Proof.
  induction s as [|c s IH]; intros cur; cbn; [discriminate|].
  destruct (c =? sep)%Z; [discriminate | apply IH].
Qed.

Lemma last_cons_not_nil {A} (x d : A) (l : list A) : l <> [] -> last (x :: l) d = last l d.
Proof. destruct l; [intros H; now destruct H | reflexivity]. Qed.

Lemma split_on_last (sep : code_unit) (d : jsstring) (s : jsstring) :
  forall cur,
    ~ In sep cur ->
    let ext := last (split_on sep s cur) d in
    ~ In sep ext
    /\ ((~ In sep s /\ ext = rev cur ++ s)
        \/ exists pre, rev cur ++ s = pre ++ [sep] ++ ext).
Proof.
  induction s as [|c s IH]; intros cur Hcur; cbn [split_on last].
  - split; [now rewrite <- in_rev|]. left. split; [intros []|]. now rewrite app_nil_r.
  - destruct (Z.eqb_spec c sep) as [->|Hne].
    + rewrite last_cons_not_nil by apply split_on_not_nil.
      destruct (IH [] (fun H => H)) as [Hext Hcase]. split; [exact Hext|]. right.
      remember (last (split_on sep s []) d) as ext eqn:Eext. clear Eext.
      destruct Hcase as [[_ He]|(pre & He)]; cbn in He.
      * exists (rev cur). now rewrite He.
      * exists (rev cur ++ [sep] ++ pre). rewrite He. rewrite <- app_assoc. reflexivity.
    + assert (Hcur' : ~ In sep (c :: cur)).
      { intros [E|E]; [now apply Hne | now apply Hcur]. }
      destruct (IH (c :: cur) Hcur') as [Hext Hcase]. split; [exact Hext|].
      cbn [rev] in Hcase. rewrite <- app_assoc in Hcase. cbn [app] in Hcase.
      destruct Hcase as [[Hs He]|(pre & He)].
      * left. split; [|exact He]. intros [E|E]; [now apply Hne | now apply Hs].
      * right. now exists pre.
Qed.

(** [parts.join(".")] of the parts of a split gives the text back. *)
Lemma join_split_on (sep : code_unit) (s : jsstring) :
  forall cur, join [sep] (split_on sep s cur) = rev cur ++ s.
Proof.
  induction s as [|c s IH]; intros cur; cbn [split_on].
  - cbn. now rewrite app_nil_r.
  - destruct (c =? sep)%Z eqn:E.
    + apply Z.eqb_eq in E. subst c. pose proof (split_on_not_nil sep s []) as Hn.
      specialize (IH []). destruct (split_on sep s []) as [|p ps]; [now destruct Hn|].
      change (join [sep] (rev cur :: p :: ps))
        with (rev cur ++ [sep] ++ join [sep] (p :: ps)).
      rewrite IH. reflexivity.
    + rewrite IH. cbn [rev]. now rewrite <- app_assoc.
Qed.

(** X7. The extension a storage path ends with.  The text taken from a
    file name by [name.split(".").pop()] never holds a dot; it is the
    whole name when the name has no dot, and otherwise what follows
    the last dot of the name, which may be empty.  Joining the parts
    of the split with dots gives the name back.  So the path of a blog
    upload and the path of a product image both end with a dot and that
    text, and a blog upload without a signed-in user goes under the
    folder named undefined. *)
Theorem extension_is_text_after_last_dot (file : File) :
  let name := file_name file in
  let ext := pop_text (split_dot name) in
  ~ In 46%Z ext
  /\ ((~ In 46%Z name /\ ext = name) \/ exists pre, name = pre ++ js "." ++ ext)
  /\ join (js ".") (split_dot name) = name
  /\ (forall user Date_now Math_random_toString36 n,
        exists stem,
          storage_path (Some user) Date_now Math_random_toString36 n file
          = user_id user ++ js "/" ++ stem ++ js "." ++ ext
          /\ storage_path None Date_now Math_random_toString36 n file
             = js "undefined/" ++ stem ++ js "." ++ ext)
  /\ (forall now,
        ProductsManagement.filePath now file
        = js "products/" ++ string_of_Z now ++ js "." ++ ext).
Proof.
  cbv zeta. unfold pop_text, split_dot.
  destruct (split_on_last 46%Z (js "undefined") (file_name file) [] (fun H => H))
    as [Hext Hcase].
  split; [exact Hext|]. split; [exact Hcase|].
  split; [apply (join_split_on 46%Z (file_name file) [])|]. split.
  - intros user Date_now Math_random_toString36 n.
    exists (string_of_Z (Date_now n) ++ js "-" ++ sliceFrom 2 (Math_random_toString36 n)).
    unfold storage_path, pop_text, split_dot, user_id_text.
    split; now rewrite <- !app_assoc.
  - intros now. reflexivity.
Qed.

End PathFacts.

(* ================================================================== *)
(** * Properties: removing media from the form                          *)
(* ================================================================== *)

Module RemovalFacts.
Import BlogsManagement EditorActions Scenes Sample.

Lemma filter_index_from {A} (index : nat) (l : list A) :
  forall k,
    filter_index (fun _ i => negb (Nat.eqb i index)) k l
    = if Nat.leb k index then firstn (index - k) l ++ skipn (S (index - k)) l else l.
Proof.
  induction l as [|x l IH]; intros k; cbn [filter_index].
  - destruct (Nat.leb k index); [|reflexivity]. now rewrite firstn_nil, skipn_nil.
  - rewrite IH. destruct (Nat.eqb_spec k index) as [->|Hne].
    + cbn [negb]. rewrite Nat.leb_refl, Nat.sub_diag.
      destruct (Nat.leb_spec (S index) index); [lia | reflexivity].
    + cbn [negb]. destruct (Nat.leb_spec k index) as [Hle|Hgt].
      * destruct (Nat.leb_spec (S k) index); [|lia].
        replace (index - k) with (S (index - S k)) by lia. reflexivity.
      * destruct (Nat.leb_spec (S k) index); [lia | reflexivity].
Qed.

Lemma without_index_spec {A} (index : nat) (l : list A) :
  without_index index l = firstn index l ++ skipn (S index) l.
Proof. unfold without_index. rewrite filter_index_from. cbn. now rewrite Nat.sub_0_r. Qed.

Lemma count_cons {A} (p : A -> bool) (x : A) (l : list A) :
  count p (x :: l) = (if p x then 1 else 0) + count p l.
Proof. unfold count. cbn [filter]. now destruct (p x). Qed.

Lemma count_nth {A} (p : A -> bool) (l : list A) (index : nat) (x : A) :
  nth_error l index = Some x -> p x = true -> 1 <= count p l.
Proof.
  intros E Hp. apply nth_error_In in E. unfold count.
  assert (Hin : In x (filter p l)) by (apply filter_In; now split).
  destruct (filter p l); [destruct Hin | cbn; lia].
Qed.

Lemma count_without {A} (p : A -> bool) (l : list A) :
  forall index,
    count p (without_index index l)
    = count p l - match nth_error l index with
                  | Some x => if p x then 1 else 0
                  | None => 0
                  end.
Proof.
  intros index. rewrite without_index_spec. revert index.
  induction l as [|x l IH]; intros [|index].
  - reflexivity.
  - reflexivity.
  - change (firstn 0 (x :: l) ++ skipn 1 (x :: l)) with l.
    rewrite count_cons. cbn [nth_error]. destruct (p x); lia.
  - change (firstn (S index) (x :: l) ++ skipn (S (S index)) (x :: l))
      with (x :: (firstn index l ++ skipn (S index) l)).
    rewrite !count_cons, IH. cbn [nth_error].
    destruct (nth_error l index) as [y|] eqn:E; [|lia].
    destruct (p y) eqn:Ey; [|lia].
    pose proof (count_nth p l index y E Ey). lia.
Qed.

Lemma image_count_removed (index : nat) (ed : Editor) :
  image_count (handleRemoveExistingMedia index ed)
  = image_count ed - match nth_error (existingMedia ed) index with
                     | Some m => if is_image_item m then 1 else 0
                     | None => 0
                     end
  /\ image_count (handleRemoveNewFile index ed)
     = image_count ed - match nth_error (newFiles ed) index with
                        | Some f => if is_image_file f then 1 else 0
                        | None => 0
                        end.
Proof.
  unfold image_count. cbn [existingMedia newFiles handleRemoveExistingMedia handleRemoveNewFile].
  rewrite !count_without. split.
  - destruct (nth_error (existingMedia ed) index) as [m|] eqn:E; [|lia].
    destruct (is_image_item m) eqn:Em; [|lia].
    pose proof (count_nth is_image_item _ index m E Em). lia.
  - destruct (nth_error (newFiles ed) index) as [f|] eqn:E; [|lia].
    destruct (is_image_file f) eqn:Ef; [|lia].
    pose proof (count_nth is_image_file _ index f E Ef). lia.
Qed.

(** X8. Removing a media item from the form.  Removing index [i] of
    the saved media (or of the staged files) drops the item at that
    position and keeps the others in order; an index past the end
    changes nothing; the other fields of the form are untouched.  The
    number of images of the form never grows, and drops by one
    exactly when the removed item is an image. *)
Theorem removal_drops_one_position (index : nat) (ed : Editor) :
  existingMedia (handleRemoveExistingMedia index ed)
  = firstn index (existingMedia ed) ++ skipn (S index) (existingMedia ed)
  /\ newFiles (handleRemoveNewFile index ed)
     = firstn index (newFiles ed) ++ skipn (S index) (newFiles ed)
  /\ newFiles (handleRemoveExistingMedia index ed) = newFiles ed
  /\ existingMedia (handleRemoveNewFile index ed) = existingMedia ed
  /\ image_count (handleRemoveExistingMedia index ed)
     = image_count ed - match nth_error (existingMedia ed) index with
                        | Some m => if is_image_item m then 1 else 0
                        | None => 0
                        end
  /\ image_count (handleRemoveNewFile index ed)
     = image_count ed - match nth_error (newFiles ed) index with
                        | Some f => if is_image_file f then 1 else 0
                        | None => 0
                        end
  /\ (nth_error (existingMedia ed) index = None ->
        handleRemoveExistingMedia index ed = ed)
  /\ (nth_error (newFiles ed) index = None -> handleRemoveNewFile index ed = ed).
Proof.
  assert (Hpast : forall A (l : list A), nth_error l index = None -> without_index index l = l).
  { intros A l H. apply nth_error_None in H. rewrite without_index_spec.
    rewrite firstn_all2, skipn_all2 by lia. apply app_nil_r. }
  split; [apply without_index_spec|]. split; [apply without_index_spec|].
  split; [reflexivity|]. split; [reflexivity|].
  destruct (image_count_removed index ed) as [Hm Hf].
  split; [exact Hm|]. split; [exact Hf|]. split.
  - intros H. unfold handleRemoveExistingMedia. rewrite (Hpast _ _ H). now destruct ed.
  - intros H. unfold handleRemoveNewFile. rewrite (Hpast _ _ H). now destruct ed.
Qed.

(** An index past the end of the sample forms. *)
Lemma removal_past_the_end :
  handleRemoveExistingMedia 7 three_saved = three_saved.
Proof.
  apply (proj1 (proj2 (proj2 (proj2 (proj2 (proj2 (proj2
           (removal_drops_one_position 7 three_saved)))))))).
  reflexivity.
Defined.

(** X13. Removing an image makes room for another.  On a form that
    holds four images, selecting one more image file raises the notice
    and stages nothing; once an image has been removed from the saved
    media or from the staged files, the same selection stages the file
    and raises no notice. *)
Theorem removed_image_makes_room (index : nat) (file : File) (ed : Editor) :
  image_count ed = 4 ->
  is_image_file file = true ->
  handleFileChange [file] ed = (ed, [toast_error (js "Maximum 4 images allowed")])
  /\ (forall m, nth_error (existingMedia ed) index = Some m -> is_image_item m = true ->
        let ed' := handleRemoveExistingMedia index ed in
        snd (handleFileChange [file] ed') = []
        /\ newFiles (fst (handleFileChange [file] ed')) = newFiles ed ++ [file]
        /\ image_count (fst (handleFileChange [file] ed')) = 4)
  /\ (forall f, nth_error (newFiles ed) index = Some f -> is_image_file f = true ->
        let ed' := handleRemoveNewFile index ed in
        snd (handleFileChange [file] ed') = []
        /\ newFiles (fst (handleFileChange [file] ed')) = newFiles ed' ++ [file]
        /\ image_count (fst (handleFileChange [file] ed')) = 4).
Proof.
  intros Hfull Hfile.
  assert (Hone : forall ed0 : Editor,
            handleFileChange [file] ed0
            = if Nat.ltb (image_count ed0) 4
              then ({| title := title ed0; content := content ed0; publish := publish ed0;
                       editingBlog := editingBlog ed0; existingMedia := existingMedia ed0;
                       newFiles := newFiles ed0 ++ [file] |}, [])
              else ({| title := title ed0; content := content ed0; publish := publish ed0;
                       editingBlog := editingBlog ed0; existingMedia := existingMedia ed0;
                       newFiles := newFiles ed0 ++ [] |},
                    [toast_error (js "Maximum 4 images allowed")])).
  { intros ed0. unfold handleFileChange, select_files, image_count. cbn [fold_left select_file].
    rewrite Hfile. unfold count at 3. cbn [filter List.length]. rewrite Nat.add_0_r.
    now destruct (Nat.ltb _ 4). }
  destruct (image_count_removed index ed) as [Hm Hf].
  split; [|split].
  - rewrite Hone, Hfull. cbn. rewrite app_nil_r. now destruct ed.
  - intros m Hnth Him ed'. subst ed'. rewrite Hnth, Him, Hfull in Hm.
    rewrite Hone, Hm. cbn [Nat.ltb Nat.leb Nat.sub fst snd newFiles].
    split; [reflexivity|]. split; [reflexivity|].
    unfold image_count in *. cbn [existingMedia newFiles handleRemoveExistingMedia] in *.
    rewrite SelectionFacts.count_app. unfold count at 3. cbn [filter]. rewrite Hfile.
    cbn [List.length]. lia.
  - intros f Hnth Hif ed'. subst ed'. rewrite Hnth, Hif, Hfull in Hf.
    rewrite Hone, Hf. cbn [Nat.ltb Nat.leb Nat.sub fst snd newFiles].
    split; [reflexivity|]. split; [reflexivity|].
    unfold image_count in *. cbn [existingMedia newFiles handleRemoveNewFile] in *.
    rewrite SelectionFacts.count_app. unfold count at 3. cbn [filter]. rewrite Hfile.
    cbn [List.length]. lia.
Qed.

(** The form with one saved picture and three staged ones. *)
Lemma full_post_makes_room :
  handleFileChange [png "e.png"] full_post
  = (full_post, [toast_error (js "Maximum 4 images allowed")])
  /\ (forall m, nth_error (existingMedia full_post) 0 = Some m -> is_image_item m = true ->
        let ed' := handleRemoveExistingMedia 0 full_post in
        snd (handleFileChange [png "e.png"] ed') = []
        /\ newFiles (fst (handleFileChange [png "e.png"] ed'))
           = newFiles full_post ++ [png "e.png"]
        /\ image_count (fst (handleFileChange [png "e.png"] ed')) = 4)
  /\ (forall f, nth_error (newFiles full_post) 0 = Some f -> is_image_file f = true ->
        let ed' := handleRemoveNewFile 0 full_post in
        snd (handleFileChange [png "e.png"] ed') = []
        /\ newFiles (fst (handleFileChange [png "e.png"] ed'))
           = newFiles ed' ++ [png "e.png"]
        /\ image_count (fst (handleFileChange [png "e.png"] ed')) = 4).
Proof.
  apply (removed_image_makes_room 0 (png "e.png") full_post); reflexivity.
Defined.

End RemovalFacts.

(* ================================================================== *)
(** * Properties: what a card shows                                     *)
(* ================================================================== *)

Module BlogCardFacts.
Import BlogsManagement EditorActions BlogPage BlogCard Scenes Sample.

Lemma has_type_media_value (t : MediaType) (m : MediaItem) :
  has_type (type_name t) (media_value m) = of_type t m.
Proof. destruct m as [[] url], t; reflexivity. Qed.

Lemma filter_media_values (t : MediaType) (items : list MediaItem) :
  filter (has_type (type_name t)) (map media_value items)
  = map media_value (filter (of_type t) items).
Proof.
  induction items as [|m items IH]; [reflexivity|]. cbn [map filter].
  rewrite has_type_media_value, IH. now destruct (of_type t m).
Qed.

Lemma hd_error_map {A B} (f : A -> B) (l : list A) :
  hd_error (map f l) = option_map f (hd_error l).
Proof. now destruct l. Qed.

(** X14. The public card and the admin feed show the same media of a
    post saved by the editor.  For a cell that holds a list of media
    items as the editor writes it, the card never throws, whatever the
    JSON reader does, and shows what the admin feed shows of that
    list: the first four items of type image, in the order saved, the
    first item of type video if there is one and the first item of
    type audio if there is one.  Further images, videos and audios of
    the post are shown by neither. *)
Theorem card_and_feed_show_the_same_media
        (JSON_parse : jsstring -> completion JSValue) (items : list MediaItem) :
  feed_shown (Some items)
  = (firstn 4 (filter (of_type image) items),
     hd_error (filter (of_type video) items),
     hd_error (filter (of_type audio) items))
  /\ card_shown JSON_parse (media_cell items)
     = Normal (map media_value (fst (fst (feed_shown (Some items)))),
               option_map media_value (snd (fst (feed_shown (Some items)))),
               option_map media_value (snd (feed_shown (Some items))))
  /\ List.length (fst (fst (feed_shown (Some items)))) <= 4.
Proof.
  split; [reflexivity|]. split.
  - unfold card_shown, card_media, media_cell, feed_shown.
    cbn [parseMedia try_media Array_isArray bind Array_filter or_media fst snd].
    change (js "image") with (type_name image). change (js "video") with (type_name video).
    change (js "audio") with (type_name audio).
    rewrite !filter_media_values, !hd_error_map, firstn_map. reflexivity.
  - unfold feed_shown. cbn [fst snd]. apply firstn_le_length.
Qed.

(** X15. The excerpt a card shows.  A row written by the editor (its
    excerpt is the editor's excerpt of its content, which is not empty)
    shows that excerpt: the content itself up to 150 characters, its
    first 150 characters and three dots beyond.  A row without an
    excerpt, or with an empty one, shows the first 150 characters of
    its content followed by three dots even when the content is
    shorter than that, which is never what the editor would have
    stored for that content. *)
Theorem card_excerpt_of_a_row (blog : BlogRow) :
  (row_content blog <> [] ->
   row_excerpt blog = Some (excerpt_of (row_content blog)) ->
   card_excerpt blog = excerpt_of (row_content blog)
   /\ (List.length (row_content blog) <= 150 -> card_excerpt blog = row_content blog))
  /\ (row_excerpt blog = None \/ row_excerpt blog = Some [] ->
      card_excerpt blog = firstn 150 (row_content blog) ++ js "..."
      /\ (List.length (row_content blog) <= 150 ->
          card_excerpt blog = row_content blog ++ js "..."
          /\ card_excerpt blog <> excerpt_of (row_content blog))).
Proof.
  split.
  - intros Hc He. unfold card_excerpt. rewrite He.
    pose proof (MutationFacts.excerpt_of_not_blank _ Hc) as Hne.
    destruct (excerpt_of (row_content blog)) as [|c t] eqn:E; [now destruct Hne|].
    split; [reflexivity|]. intros Hlen. rewrite <- E. unfold excerpt_of.
    destruct (Nat.ltb_spec 150 (List.length (row_content blog))); [lia | reflexivity].
  - intros He.
    assert (Hshow : card_excerpt blog = firstn 150 (row_content blog) ++ js "...").
    { unfold card_excerpt. destruct He as [-> | ->]; reflexivity. }
    rewrite Hshow. split; [reflexivity|]. intros Hlen.
    rewrite firstn_all2 by exact Hlen. split; [reflexivity|].
    unfold excerpt_of. destruct (Nat.ltb_spec 150 (List.length (row_content blog))); [lia|].
    intros E. apply (f_equal (@List.length _)) in E. rewrite length_app in E. cbn in E. lia.
Qed.

(** The sample post with no excerpt. *)
Lemma card_excerpt_of_post_1 :
  card_excerpt (post "1" "2025-01-01" true (JSArray []))
  = firstn 150 (row_content (post "1" "2025-01-01" true (JSArray []))) ++ js "..."
  /\ (List.length (row_content (post "1" "2025-01-01" true (JSArray []))) <= 150 ->
      card_excerpt (post "1" "2025-01-01" true (JSArray []))
      = row_content (post "1" "2025-01-01" true (JSArray [])) ++ js "..."
      /\ card_excerpt (post "1" "2025-01-01" true (JSArray []))
         <> excerpt_of (row_content (post "1" "2025-01-01" true (JSArray [])))).
Proof.
  apply (proj2 (card_excerpt_of_a_row (post "1" "2025-01-01" true (JSArray [])))).
  left. reflexivity.
Defined.

(** X23. The cover of a card.  For a media list saved by the editor
    whose first image has an address, the cover of the card is that
    address, whatever the row's own image column holds, and the same
    image is also the first of the grid below: it is shown twice.
    With no image in the list, the cover is the row's image column
    when that is truthy, and there is no cover otherwise. *)
Theorem cover_is_the_first_image
        (JSON_parse : jsstring -> completion JSValue) (items : list MediaItem)
        (image_url : JSValue) :
  exists images videos audios,
    card_media JSON_parse (media_cell items) = Normal (images, videos, audios)
    /\ (forall m rest,
          filter (of_type image) items = m :: rest -> media_url m <> [] ->
          coverImage images image_url = JSString (media_url m)
          /\ hd_error (firstn 4 images) = Some (media_value m))
    /\ (filter (of_type image) items = [] ->
          coverImage images image_url = or_value image_url JSNull
          /\ (truthy image_url = false -> truthy (coverImage images image_url) = false)).
Proof.
  unfold card_media, media_cell. cbn [parseMedia try_media Array_isArray bind Array_filter].
  eexists _, _, _. split; [reflexivity|].
  change (js "image") with (type_name image). rewrite filter_media_values. split.
  - intros m rest Hf Hurl. rewrite Hf. cbn [map hd firstn hd_error]. split; [|reflexivity].
    unfold coverImage. destruct m as [t url]. cbn in Hurl |- *.
    destruct t; cbn; destruct url; try (now destruct Hurl); reflexivity.
  - intros Hf. rewrite Hf. cbn [map].
    change (coverImage [] image_url) with (or_value image_url JSNull).
    split; [reflexivity|]. intros Ht. unfold or_value. now rewrite Ht.
Qed.

(** A list with a clip before its two pictures. *)
Lemma cover_of_a_clip_and_two_pictures :
  exists images videos audios,
    card_media JsonText.decode
               (media_cell [{| media_type := video; media_url := js "c" |};
                            image_at "a"; image_at "b"]) = Normal (images, videos, audios)
    /\ coverImage images JSNull = JSString (media_url (image_at "a"))
    /\ hd_error (firstn 4 images) = Some (media_value (image_at "a")).
Proof.
  destruct (cover_is_the_first_image
              JsonText.decode
              [{| media_type := video; media_url := js "c" |}; image_at "a"; image_at "b"]
              JSNull) as (images & videos & audios & Hc & Hfirst & _).
  exists images, videos, audios. split; [exact Hc|].
  apply (Hfirst (image_at "a") [image_at "b"]); [reflexivity | discriminate].
Defined.

End BlogCardFacts.

(* ================================================================== *)
(** * Properties: the order a checkout writes                           *)
(* ================================================================== *)

Module OrderFacts.
Import Num Checkout CheckoutPage Sample.
Local Open Scope float_scope.

Lemma lines_fold (order : Order) (items : list CartItem) :
  forall acc,
    fold_left (fun acc line => acc + fst line * snd line)
              (map (fun oi => (oi_price oi, oi_quantity oi)) (orderItems order items)) acc
    = fold_left (fun sum item => sum + unit_price item * quantity item) items acc.
Proof.
  induction items as [|item items IH]; intros acc; [reflexivity|]. cbn [map orderItems fold_left].
  apply IH.
Qed.

Lemma In_cleared (u : User) (rows : list CartItem) (row : CartItem) :
  In row (cleared u rows) <-> In row rows /\ cart_user_id row <> user_id u.
Proof.
  unfold cleared. rewrite filter_In. split; intros [Hin H]; (split; [exact Hin|]).
  - intros E. apply MutationFacts.str_eqb_eq in E. rewrite E in H. discriminate.
  - destruct (str_eqb (cart_user_id row) (user_id u)) eqn:E; [|reflexivity].
    apply MutationFacts.str_eqb_eq in E. contradiction.
Qed.

Section Orders.

Variable new_order_id : Shop -> jsstring.

Local Abbreviation run := (mutationFn new_order_id).

(** X16. The order a checkout writes agrees with its line items.  When
    the three calls of a checkout succeed, one order row is added for
    the user, and one line item per cart line, in cart order, each
    carrying the identifier of that order and the product, the
    quantity and the name (empty when the product is missing) of its
    cart line.  The amount stored on the order, which is the value the
    mutation returns, is exactly the sum of price times quantity over
    the line items written. *)
Theorem order_total_is_the_sum_of_its_lines (u : User) (items : list CartItem) (s : Shop) :
  Forall (eq None) (firstn 3 (scripted s)) ->
  exists order written,
    orders (snd (run (Some u) (Some items) s)) = orders s ++ [order]
    /\ order_items (snd (run (Some u) (Some items) s)) = order_items s ++ written
    /\ fst (run (Some u) (Some items) s) = Normal (total_amount order)
    /\ order_user_id order = user_id u
    /\ total_amount order
       = sum_of_lines (map (fun oi => (oi_price oi, oi_quantity oi)) written)
    /\ map oi_order_id written = repeat (order_id order) (List.length items)
    /\ map oi_product_id written = map product_id items
    /\ map oi_quantity written = map quantity items
    /\ map oi_product_name written = map order_item_name items.
Proof.
  intros Hok. rewrite (CheckoutFacts.run_all_ok new_order_id u items s Hok). cbn [fst snd orders order_items].
  eexists _, _. split; [reflexivity|]. split; [reflexivity|].
  cbn [total_amount order_user_id order_id created_order].
  split; [reflexivity|]. split; [reflexivity|].
  split; [unfold sum_of_lines; rewrite lines_fold; reflexivity|].
  unfold orderItems. rewrite !map_map. cbn [oi_order_id oi_product_id oi_quantity oi_product_name].
  split; [apply map_const|]. repeat split.
Qed.

(** X17. A checkout clears the cart by user, not by what it ordered.
    When the three calls succeed, the line items written come from the
    cart lines the page had fetched, while the store loses every cart
    row of that user, fetched or not, and keeps every row of the other
    users.  The user's cart query then gives the empty list, and the
    cart query of any other user gives what it gave before. *)
Theorem checkout_clears_the_whole_cart_of_the_user
        (u : User) (items : list CartItem) (s : Shop) :
  Forall (eq None) (firstn 3 (scripted s)) ->
  let s' := snd (run (Some u) (Some items) s) in
  (forall row, In row (cart_items s')
               <-> In row (cart_items s) /\ cart_user_id row <> user_id u)
  /\ cart_queryFn (Some u) None s' = Normal []
  /\ (forall v, user_id v <> user_id u ->
        cart_queryFn (Some v) None s' = cart_queryFn (Some v) None s)
  /\ map oi_product_id (skipn (List.length (order_items s)) (order_items s'))
     = map product_id items.
Proof.
  intros Hok. cbv zeta. rewrite (CheckoutFacts.run_all_ok new_order_id u items s Hok).
  cbn [snd cart_items order_items]. split; [intros row; apply In_cleared|]. split; [|split].
  - unfold cart_queryFn. cbn [cart_items]. f_equal.
    induction (cart_items s) as [|row rows IH]; [reflexivity|]. unfold cleared in *. cbn [filter].
    destruct (str_eqb (cart_user_id row) (user_id u)) eqn:E; cbn [negb filter]; [exact IH|].
    now rewrite E.
  - intros v Hv. unfold cart_queryFn. cbn [cart_items]. f_equal. unfold cleared.
    induction (cart_items s) as [|row rows IH]; [reflexivity|]. cbn [filter].
    destruct (str_eqb (cart_user_id row) (user_id u)) eqn:E; cbn [negb filter].
    + apply MutationFacts.str_eqb_eq in E.
      destruct (str_eqb (cart_user_id row) (user_id v)) eqn:Ev; [|exact IH].
      apply MutationFacts.str_eqb_eq in Ev. congruence.
    + destruct (str_eqb (cart_user_id row) (user_id v)); [now rewrite IH | exact IH].
  - rewrite skipn_app, skipn_all, Nat.sub_diag. cbn [app skipn].
    unfold orderItems. now rewrite map_map.
Qed.

(** X18. What a checkout needs, and what it does not.  Without a user,
    or before the cart is fetched, the mutation throws Invalid state
    and no call reaches the store; the notice is Failed to place
    order.  An empty cart is not refused: when the calls succeed, an
    order of amount zero is written for the user, with no line item,
    through the same three calls. *)
Theorem checkout_guard_and_empty_cart
        (Number_toString : float -> jsstring) (user : option User)
        (cartItems : option (list CartItem)) (profile : option Profile) (s : Shop) :
  (user = None \/ cartItems = None ->
     run user cartItems s = (Throw (Error (js "Invalid state")), s)
     /\ mutate new_order_id Number_toString user cartItems profile s
        = (([toast_error (js "Failed to place order")], None), s))
  /\ (forall u, Forall (eq None) (firstn 3 (scripted s)) ->
        fst (run (Some u) (Some []) s) = Normal 0
        /\ (exists order,
              orders (snd (run (Some u) (Some []) s)) = orders s ++ [order]
              /\ order_user_id order = user_id u
              /\ Prim2SF (total_amount order) = S754_zero false)
        /\ order_items (snd (run (Some u) (Some []) s)) = order_items s
        /\ calls (snd (run (Some u) (Some []) s))
           = calls s ++ [insert_order; insert_order_items; delete_cart_items]).
Proof.
  split.
  - intros H. assert (E : run user cartItems s = (Throw (Error (js "Invalid state")), s)).
    { destruct H as [-> | ->]; [reflexivity|]. now destruct user. }
    split; [exact E|]. unfold mutate. now rewrite E.
  - intros u Hok. rewrite (CheckoutFacts.run_all_ok new_order_id u [] s Hok).
    cbn [fst snd orders order_items calls orderItems map]. split; [reflexivity|].
    split; [eexists; split; [reflexivity|]; split; reflexivity|].
    split; [apply app_nil_r|]. now rewrite <- !app_assoc.
Qed.

End Orders.

(** The two-line sample cart, checked out on a store that holds it. *)
Lemma two_line_order :
  exists order written,
    orders (snd (mutationFn order_ident (Some buyer) (Some two_line_cart)
                            (shop two_line_cart [])))
    = orders (shop two_line_cart []) ++ [order]
    /\ order_items (snd (mutationFn order_ident (Some buyer) (Some two_line_cart)
                                    (shop two_line_cart [])))
       = order_items (shop two_line_cart []) ++ written
    /\ fst (mutationFn order_ident (Some buyer) (Some two_line_cart) (shop two_line_cart []))
       = Normal (total_amount order)
    /\ order_user_id order = user_id buyer
    /\ total_amount order
       = sum_of_lines (map (fun oi => (oi_price oi, oi_quantity oi)) written)
    /\ map oi_order_id written = repeat (order_id order) (List.length two_line_cart)
    /\ map oi_product_id written = map product_id two_line_cart
    /\ map oi_quantity written = map quantity two_line_cart
    /\ map oi_product_name written = map order_item_name two_line_cart.
Proof.
  apply (order_total_is_the_sum_of_its_lines order_ident buyer two_line_cart
                                             (shop two_line_cart [])).
  constructor.
Defined.

(** The page fetched the two-line cart; the store meanwhile got one row
    more of the buyer's. *)
Lemma late_row_is_cleared :
  let s := shop (two_line_cart ++ [line "Late" 3 1]) [] in
  let s' := snd (mutationFn order_ident (Some buyer) (Some two_line_cart) s) in
  (forall row, In row (cart_items s')
               <-> In row (cart_items s) /\ cart_user_id row <> user_id buyer)
  /\ cart_queryFn (Some buyer) None s' = Normal []
  /\ (forall v, user_id v <> user_id buyer ->
        cart_queryFn (Some v) None s' = cart_queryFn (Some v) None s)
  /\ map oi_product_id (skipn (List.length (order_items s)) (order_items s'))
     = map product_id two_line_cart.
Proof.
  apply (checkout_clears_the_whole_cart_of_the_user order_ident buyer two_line_cart
           (shop (two_line_cart ++ [line "Late" 3 1]) [])).
  constructor.
Defined.

(** A checkout before the cart is fetched. *)
Lemma checkout_without_cart :
  mutationFn order_ident (Some buyer) None (shop [] [])
  = (Throw (Error (js "Invalid state")), shop [] [])
  /\ mutate order_ident Number_toString_integral (Some buyer) None None (shop [] [])
     = (([toast_error (js "Failed to place order")], None), shop [] []).
Proof.
  apply (proj1 (checkout_guard_and_empty_cart order_ident Number_toString_integral
                  (Some buyer) None None (shop [] []))).
  right. reflexivity.
Defined.

(** X19. The total the page shows and the amount of the order.  The
    page shows the amount a checkout of the fetched cart returns and
    stores, up to the sign of zero, whenever that amount is a number;
    when it is not a number the page shows zero, and before the cart
    is fetched it shows zero. *)
Theorem page_total_is_the_order_amount (items : list CartItem) :
  (PrimFloat.is_nan (total items) = false ->
     same_number (page_total (Some items)) (total items))
  /\ (PrimFloat.is_nan (total items) = true ->
        page_total (Some items) = 0 /\ Prim2SF (total items) = S754_nan)
  /\ page_total None = 0.
Proof.
  unfold page_total, or_num, falsy. split; [|split; [|reflexivity]].
  - intros Hn. rewrite Hn, Bool.orb_false_r.
    destruct (PrimFloat.is_zero (total items)) eqn:Ez; [|apply NumFacts.same_number_refl].
    apply NumFacts.is_zero_inv in Ez as [sg Es]. unfold same_number. now rewrite Es.
  - intros Hn. rewrite Hn, Bool.orb_true_r. split; [reflexivity|].
    now apply NumFacts.is_nan_inv.
Qed.

Lemma page_total_of_two_lines :
  same_number (page_total (Some two_line_cart)) (total two_line_cart).
Proof.
  apply (proj1 (page_total_is_the_order_amount two_line_cart)). reflexivity.
Defined.

End OrderFacts.

(* ================================================================== *)
(** * Properties: the product image upload                              *)
(* ================================================================== *)

Module ProductImageFacts.
Import ProductsManagement Scenes Sample.

Lemma object_at_upsert (path : jsstring) (file : File) (objs : list (jsstring * File)) :
  object_at path (upsert path file objs) = Some file.
Proof.
  induction objs as [|[p f] objs IH]; cbn.
  - now rewrite MutationFacts.str_eqb_refl.
  - destruct (str_eqb p path) eqn:E; cbn; now rewrite E.
Qed.

Lemma object_at_upsert_other (path other : jsstring) (file : File)
      (objs : list (jsstring * File)) :
  other <> path -> object_at other (upsert path file objs) = object_at other objs.
Proof.
  intros Hne. induction objs as [|[p f] objs IH]; cbn.
  - destruct (str_eqb path other) eqn:E; [|reflexivity].
    apply MutationFacts.str_eqb_eq in E. congruence.
  - destruct (str_eqb p path) eqn:E; cbn.
    + destruct (str_eqb p other) eqn:E'; [|reflexivity].
      apply MutationFacts.str_eqb_eq in E, E'. congruence.
    + now rewrite IH.
Qed.

Lemma object_at_exists (path : jsstring) (objs : list (jsstring * File)) (file : File) :
  object_at path objs = Some file -> existsb (fun o => str_eqb (fst o) path) objs = true.
Proof.
  induction objs as [|[p f] objs IH]; cbn; [discriminate|].
  destruct (str_eqb p path); [reflexivity | exact IH].
Qed.

Lemma upsert_paths (path : jsstring) (file : File) (objs : list (jsstring * File)) :
  map fst (upsert path file objs)
  = if existsb (fun o => str_eqb (fst o) path) objs then map fst objs
    else map fst objs ++ [path].
Proof.
  induction objs as [|[p f] objs IH]; [reflexivity|]. cbn.
  destruct (str_eqb p path) eqn:E; cbn; [reflexivity|]. rewrite IH.
  now destruct (existsb _ objs).
Qed.

Section Input.

Variable getPublicUrl : jsstring -> jsstring.

Local Abbreviation change := (onChange getPublicUrl).

(** X20. What choosing a product image does.  With no file chosen
    nothing happens.  When the upload fails, one notice Image upload
    failed is raised, the form is not set and the bucket is as it was.
    When the upload succeeds, one notice of success is raised, the
    form is set to the form the handler had with only the image
    address changed, to the public address of the path; the bucket
    then holds the file at that path, and holds at every other path
    what it held before. *)
Theorem product_image_upload_outcomes
        (file : File) (now : Z) (formData : FormData) (s : Images) :
  change None now formData s = (Normal (None, []), s)
  /\ (forall e rest, upload_outcomes s = Some e :: rest ->
        fst (change (Some file) now formData s)
        = Normal (None, [toast_error (js "Image upload failed")])
        /\ objects (snd (change (Some file) now formData s)) = objects s)
  /\ (hd None (upload_outcomes s) = None ->
        exists form,
          fst (change (Some file) now formData s)
          = Normal (Some form, [toast_success (js "Image uploaded successfully")])
          /\ image_url form = getPublicUrl (filePath now file)
          /\ (name form, description form, benefits form, ingredients form,
              usage_instructions form, price form, stock_count form)
             = (name formData, description formData, benefits formData, ingredients formData,
                usage_instructions formData, price formData, stock_count formData)
          /\ object_at (filePath now file) (objects (snd (change (Some file) now formData s)))
             = Some file
          /\ (forall other, other <> filePath now file ->
                object_at other (objects (snd (change (Some file) now formData s)))
                = object_at other (objects s))).
Proof.
  split; [reflexivity|]. split.
  - intros e rest Ho. unfold onChange, mbind, product_images_upload. rewrite Ho. now cbn.
  - intros Ho. unfold onChange, mbind, product_images_upload.
    destruct (upload_outcomes s) as [|[e|] rest]; cbn in Ho; try discriminate;
      cbn [fst snd ret objects]; eexists; (split; [reflexivity|]);
      cbn [image_url name description benefits ingredients usage_instructions price stock_count];
      (split; [reflexivity|]); (split; [reflexivity|]);
      (split; [apply object_at_upsert | intros other Hne; now apply object_at_upsert_other]).
Qed.

(** X21. Two product images can land on one path.  The path of a
    product image is made of the clock reading and the extension only,
    and the upload replaces what is at the path.  So when two files
    with the same extension are uploaded at the same clock reading,
    both uploads succeed, both forms get the same image address, the
    bucket gains one path only, and that path holds the second file:
    the first file is gone. *)
Theorem same_reading_same_extension_overwrites
        (first second : File) (now : Z) (form1 form2 : FormData) (s : Images) :
  BlogsManagement.pop_text (BlogsManagement.split_dot (file_name first))
  = BlogsManagement.pop_text (BlogsManagement.split_dot (file_name second)) ->
  Forall (eq None) (firstn 2 (upload_outcomes s)) ->
  let run1 := change (Some first) now form1 s in
  let run2 := change (Some second) now form2 (snd run1) in
  filePath now first = filePath now second
  /\ (exists set1 set2,
        fst run1 = Normal (Some set1, [toast_success (js "Image uploaded successfully")])
        /\ fst run2 = Normal (Some set2, [toast_success (js "Image uploaded successfully")])
        /\ image_url set1 = image_url set2)
  /\ object_at (filePath now first) (objects (snd run2)) = Some second
  /\ map fst (objects (snd run2)) = map fst (objects (snd run1)).
Proof.
  intros Hext Hok. cbv zeta.
  assert (Hpath : filePath now first = filePath now second).
  { unfold filePath. now rewrite Hext. }
  assert (Hrun : forall file form s0,
            hd None (upload_outcomes s0) = None ->
            change (Some file) now form s0
            = (Normal (Some {| name := name form; description := description form;
                               benefits := benefits form; ingredients := ingredients form;
                               usage_instructions := usage_instructions form;
                               price := price form; stock_count := stock_count form;
                               image_url := getPublicUrl (filePath now file) |},
                       [toast_success (js "Image uploaded successfully")]),
               {| objects := upsert (filePath now file) file (objects s0);
                  upload_outcomes := tl (upload_outcomes s0) |})).
  { intros file form s0 H. unfold onChange, mbind, product_images_upload.
    destruct (upload_outcomes s0) as [|[e|] rest]; cbn in H; try discriminate; reflexivity. }
  assert (H1 : hd None (upload_outcomes s) = None).
  { destruct (upload_outcomes s) as [|o rest]; [reflexivity|]. now inversion Hok. }
  assert (H2 : hd None (tl (upload_outcomes s)) = None).
  { destruct (upload_outcomes s) as [|o [|o' rest]]; try reflexivity.
    inversion Hok as [|? ? _ Hrest]. now inversion Hrest. }
  rewrite (Hrun first form1 s H1). cbn [snd].
  rewrite (Hrun second form2) by exact H2. cbn [fst snd objects].
  split; [exact Hpath|]. split.
  - eexists _, _. split; [reflexivity|]. split; [reflexivity|]. cbn [image_url].
    now rewrite Hpath.
  - rewrite Hpath. split; [apply object_at_upsert|].
    rewrite (upsert_paths (filePath now second) second).
    rewrite (object_at_exists _ _ first (object_at_upsert (filePath now second) first (objects s))).
    reflexivity.
Qed.

End Input.

(** Choosing a picture for the sample form, the store refusing it. *)
Lemma product_image_refused :
  fst (onChange public_url (Some (png "oil.png")) 1700000000000 a_form
                {| objects := []; upload_outcomes := [Some store_failure] |})
  = Normal (None, [toast_error (js "Image upload failed")])
  /\ objects (snd (onChange public_url (Some (png "oil.png")) 1700000000000 a_form
                            {| objects := []; upload_outcomes := [Some store_failure] |}))
     = objects {| objects := []; upload_outcomes := [Some store_failure] |}.
Proof.
  apply (proj1 (proj2 (product_image_upload_outcomes public_url (png "oil.png")
                         1700000000000 a_form
                         {| objects := []; upload_outcomes := [Some store_failure] |}))
           store_failure []).
  reflexivity.
Defined.

(** Two pictures chosen at one clock reading. *)
Lemma two_pictures_one_path :
  let run1 := onChange public_url (Some (png "oil.png")) 1700000000000 a_form no_images in
  let run2 := onChange public_url (Some (png "tea.png")) 1700000000000 a_form (snd run1) in
  ProductsManagement.filePath 1700000000000 (png "oil.png")
  = ProductsManagement.filePath 1700000000000 (png "tea.png")
  /\ (exists set1 set2,
        fst run1 = Normal (Some set1, [toast_success (js "Image uploaded successfully")])
        /\ fst run2 = Normal (Some set2, [toast_success (js "Image uploaded successfully")])
        /\ image_url set1 = image_url set2)
  /\ object_at (ProductsManagement.filePath 1700000000000 (png "oil.png"))
               (objects (snd run2)) = Some (png "tea.png")
  /\ map fst (objects (snd run2)) = map fst (objects (snd run1)).
Proof.
  apply (same_reading_same_extension_overwrites public_url (png "oil.png") (png "tea.png")
           1700000000000 a_form a_form no_images).
  - reflexivity.
  - constructor.
Defined.

End ProductImageFacts.

(* ================================================================== *)
(** * Properties: the title over repeated saves                         *)
(* ================================================================== *)

Module TitleFacts.
Import BlogsManagement Scenes Sample.

(** A text that does not begin with white space. *)
Local Abbreviation starts_clean l :=
  (match l with [] => True | c :: _ => is_space c = false end).

Lemma trimStart_clean (l : jsstring) : starts_clean (trimStart l).
Proof.
  induction l as [|c l IH]; [exact I|]. cbn [trimStart].
  destruct (is_space c) eqn:E; [exact IH | exact E].
Qed.

Lemma trimStart_id (l : jsstring) : starts_clean l -> trimStart l = l.
Proof. destruct l as [|c l]; [reflexivity|]. cbn [trimStart]. now intros ->. Qed.

Lemma trimStart_snoc (a : jsstring) (c : code_unit) :
  is_space c = false -> trimStart (a ++ [c]) = trimStart a ++ [c].
Proof.
  intros Hc. induction a as [|x a IH]; cbn [app trimStart]; [now rewrite Hc|].
  destruct (is_space x); [exact IH | reflexivity].
Qed.

Lemma trimEnd_clean (l : jsstring) : starts_clean l -> starts_clean (trimEnd l).
Proof.
  destruct l as [|c l]; [intros _; exact I|]. intros Hc. unfold trimEnd. cbn [rev].
  rewrite (trimStart_snoc _ c Hc), rev_app_distr. exact Hc.
Qed.

Lemma trimEnd_id (l : jsstring) : starts_clean (rev l) -> trimEnd l = l.
Proof. intros H. unfold trimEnd. rewrite (trimStart_id _ H). apply rev_involutive. Qed.

Lemma trim_idempotent (text : jsstring) : trim (trim text) = trim text.
Proof.
  assert (Hs : starts_clean (trim text)) by (apply trimEnd_clean, trimStart_clean).
  assert (He : starts_clean (rev (trim text))).
  { unfold trim, trimEnd. rewrite rev_involutive. apply trimStart_clean. }
  unfold trim at 1. rewrite (trimStart_id _ Hs). now apply trimEnd_id.
Qed.

(** X24. Saving a post again settles its title.  Let the saved title be
    what a save stores for a form title and a content, and the
    re-saved title what a save stores when the form title is the saved
    one, as after opening the post in the editor.  Saving once more
    never changes the re-saved title.  The re-saved title is the saved
    title or the saved title trimmed; it is the saved title whenever
    the form title was not blank.  So a title taken from a content
    that begins with white space loses that white space on the next
    save, and nothing changes after that. *)
Theorem resaving_settles_the_title (title content : jsstring) :
  let saved := title_of title content in
  let resaved := title_of saved content in
  title_of resaved content = resaved
  /\ (resaved = saved \/ resaved = trim saved)
  /\ (trim title <> [] -> saved = trim title /\ resaved = saved).
Proof.
  cbv zeta. unfold title_of, slice0. generalize (firstn 60 content). intros first.
  destruct (trim title) as [|c t] eqn:Et.
  - cbn [or_str]. split; [|split; [|intros H; now destruct H]].
    + destruct first as [|f first']; cbn [or_str].
      * reflexivity.
      * destruct (trim (f :: first')) as [|x y] eqn:E; cbn [or_str].
        -- rewrite E. reflexivity.
        -- rewrite <- E, trim_idempotent, E. reflexivity.
    + destruct first as [|f first']; cbn [or_str].
      * left. reflexivity.
      * destruct (trim (f :: first')) as [|x y] eqn:E; cbn [or_str]; [left | right]; reflexivity.
  - cbn [or_str]. rewrite <- Et, trim_idempotent, Et. cbn [or_str].
    rewrite <- Et, trim_idempotent, Et. cbn [or_str].
    split; [reflexivity|]. split; [now left|]. intros _. split; reflexivity.
Qed.

(** The title of the staged sample post. *)
Lemma staged_title_settles :
  title_of (title staged_post) (content staged_post) = trim (title staged_post)
  /\ title_of (title_of (title staged_post) (content staged_post)) (content staged_post)
     = title_of (title staged_post) (content staged_post).
Proof.
  apply (proj2 (proj2 (resaving_settles_the_title (title staged_post) (content staged_post)))).
  vm_compute. discriminate.
Defined.

(** A title taken from a content that begins with white space: the
    next save strips it. *)
Example leading_space_is_lost_on_resave :
  title_of [] (js "  Tea") = js "  Tea"
  /\ title_of (title_of [] (js "  Tea")) (js "  Tea") = js "Tea".
Proof. split; reflexivity. Qed.

(** A content that begins with sixty spaces gives a title of spaces
    only, which every later save keeps. *)
Example blank_title_from_content :
  let content := repeat 32%Z 60 ++ js "Tea" in
  trim content <> []
  /\ title_of [] content = repeat 32%Z 60
  /\ title_of (title_of [] content) content = repeat 32%Z 60.
Proof. cbv zeta. split; [vm_compute; discriminate|]. split; vm_compute; reflexivity. Qed.

End TitleFacts.
